(** * fframework: deferred-evaluation expression algebra

    A shallow embedding of [fframework/function.py] and [fframework/op.py]
    together with the properties of the natural-language specification.

    The host language is modelled with Python 3 semantics: instances live
    in a store and are handled by reference, [map] returns a one-shot
    iterator object, a class that defines [__eq__] without [__hash__] has
    unhashable instances, and a call binds its arguments to the parameters of
    the callee and raises [TypeError] when they do not fit. *)

From Stdlib Require Import ZArith String List Bool Lia.
From stdpp Require Import base list.
Import ListNotations.

Set Warnings "-register-all".

Local Open Scope string_scope.
Local Open Scope list_scope.
Local Open Scope Z_scope.

(** ** Values of the host language *)

Abbreviation loc := nat.

(** [VFloat z] is the float whose value is the integer [z]; only floats of
    that form with [|z| <= 2^53] (exactly representable) are modelled.
    [VRef l] is a reference to the instance stored at [l]. *)
Inductive value : Type :=
| VNone
| VBool (b : bool)
| VInt (z : Z)
| VFloat (z : Z)
| VStr (s : string)
| VList (xs : list value)
| VTuple (xs : list value)
| VDict (kvs : list (value * value))
| VRef (l : loc).
Arguments VRef l%_nat.

Inductive exn : Type :=
| TypeError | ValueError | ZeroDivisionError | IndexError | KeyError
| AttributeError | NameError.

(** The classes of [function.py] and [op.py]. *)
Inductive class : Type :=
| Function | Constant | Identity
| OpFunction | OpWrap | Apply | ComposedFunction | OpConstant | OpIdentity
| _List | _Tuple | _Dict
| Sum | Product | Quotient | Cmp | Less | Greater | LessEqual | GreaterEqual
| Equal | NotEqual | InBetween | Power
| Neg | Not | Cos | Sin | Exp | Sqrt | SumCall | Indexing | Attribute | AsType
| Clip | Int | Float | Bool.

Definition class_eqb (c d : class) : bool :=
  match c, d with
  | Function, Function | Constant, Constant | Identity, Identity
  | OpFunction, OpFunction | OpWrap, OpWrap | Apply, Apply
  | ComposedFunction, ComposedFunction | OpConstant, OpConstant
  | OpIdentity, OpIdentity | _List, _List | _Tuple, _Tuple | _Dict, _Dict
  | Sum, Sum | Product, Product | Quotient, Quotient | Cmp, Cmp | Less, Less
  | Greater, Greater | LessEqual, LessEqual | GreaterEqual, GreaterEqual
  | Equal, Equal | NotEqual, NotEqual | InBetween, InBetween | Power, Power
  | Neg, Neg | Not, Not | Cos, Cos | Sin, Sin | Exp, Exp | Sqrt, Sqrt
  | SumCall, SumCall | Indexing, Indexing | Attribute, Attribute
  | AsType, AsType | Clip, Clip | Int, Int | Float, Float | Bool, Bool => true
  | _, _ => false
  end.

(** The base classes named in each [class] statement. *)
Definition bases (c : class) : list class :=
  match c with
  | Function => []
  | Constant | Identity | OpFunction => [Function]
  | OpConstant => [Constant; OpFunction]
  | OpIdentity => [Identity; OpFunction]
  | Neg | Not | Cos | Sin | Exp | Sqrt | SumCall | Indexing | Attribute
  | AsType => [Apply]
  | _ => [OpFunction]
  end.

(** [issubclass c d]; the hierarchy is three levels deep. *)
Fixpoint issubclass_upto (depth : nat) (c d : class) : bool :=
  class_eqb c d ||
  match depth with
  | O => false
  | S k => existsb (fun b => issubclass_upto k b d) (bases c)
  end.

Definition issubclass : class -> class -> bool := issubclass_upto 3.

(** ** The store *)

(** An instance carries its class and its attribute dictionary.  A [map]
    object is the iterator made by [map(asfunction, xs)]: it holds the items
    it has not yet handed out. *)
Inductive obj : Type :=
| Inst (c : class) (attrs : list (string * value))
| MapIter (pending : list value).

Abbreviation heap := (list obj).

(** One entry per [__call__] that is entered: the callee and the positional
    and keyword arguments it is invoked with. *)
Record event := Event {
  ev_callee : loc;
  ev_args : list value;
  ev_kwargs : list (string * value)
}.
Arguments Event ev_callee%_nat ev_args ev_kwargs.

Record state := State { st_heap : heap; st_trace : list event }.

Inductive res (A : Type) : Type :=
| Ok (a : A) (s : state)
| Raise (e : exn) (s : state)
| OutOfFuel
| Unmodelled.
Arguments Ok {A} a s.
Arguments Raise {A} e s.
Arguments OutOfFuel {A}.
Arguments Unmodelled {A}.

(** Computations of the host language: state passing with exceptions.
    [Unmodelled] marks a host operation outside the modelled fragment. *)
Definition M (A : Type) : Type := state -> res A.

Definition ret {A} (a : A) : M A := fun s => Ok a s.
Definition raise {A} (e : exn) : M A := fun s => Raise e s.
Definition unmodelled {A} : M A := fun _ => Unmodelled.
Definition bind {A B} (m : M A) (k : A -> M B) : M B :=
  fun s => match m s with
           | Ok a s' => k a s'
           | Raise e s' => Raise e s'
           | OutOfFuel => OutOfFuel
           | Unmodelled => Unmodelled
           end.

Notation "x <- m ;; k" := (bind m (fun x => k))
  (at level 100, m at level 99, k at level 200, right associativity).
Notation "m ;;; k" := (bind m (fun _ => k))
  (at level 100, k at level 200, right associativity).

Definition alloc (o : obj) : M value :=
  fun s => Ok (VRef (List.length (st_heap s)))
              (State (st_heap s ++ [o]) (st_trace s)).

Definition load (l : loc) : M obj :=
  fun s => match st_heap s !! l with
           | Some o => Ok o s
           | None => Unmodelled
           end.

Definition store (l : loc) (o : obj) : M unit :=
  fun s => Ok tt (State (<[l:=o]> (st_heap s)) (st_trace s)).

Definition log (e : event) : M unit :=
  fun s => Ok tt (State (st_heap s) (st_trace s ++ [e])).

Definition get_heap : M heap := fun s => Ok (st_heap s) s.

(** ** Attribute dictionaries and keyword arguments *)

Fixpoint assoc {A} (k : string) (l : list (string * A)) : option A :=
  match l with
  | [] => None
  | (k', v) :: r => if String.eqb k k' then Some v else assoc k r
  end.

Fixpoint remove_key {A} (k : string) (l : list (string * A))
  : list (string * A) :=
  match l with
  | [] => []
  | (k', v) :: r =>
      if String.eqb k k' then remove_key k r else (k', v) :: remove_key k r
  end.

Fixpoint set_key {A} (k : string) (v : A) (l : list (string * A))
  : list (string * A) :=
  match l with
  | [] => [(k, v)]
  | (k', v') :: r =>
      if String.eqb k k' then (k, v) :: r else (k', v') :: set_key k v r
  end.

(** [self.name = v] *)
Definition setattr (self : value) (name : string) (v : value) : M unit :=
  match self with
  | VRef l =>
      o <- load l ;;
      match o with
      | Inst c attrs => store l (Inst c (set_key name v attrs))
      | MapIter _ => raise AttributeError
      end
  | _ => raise AttributeError
  end.

(** [self.name] *)
Definition getattr (self : value) (name : string) : M value :=
  match self with
  | VRef l =>
      o <- load l ;;
      match o with
      | Inst c attrs =>
          match assoc name attrs with
          | Some v => ret v
          | None => raise AttributeError
          end
      | MapIter _ => raise AttributeError
      end
  | _ => raise AttributeError
  end.

Definition instance_class (h : heap) (v : value) : option class :=
  match v with
  | VRef l => match h !! l with
              | Some (Inst c _) => Some c
              | _ => None
              end
  | _ => None
  end.

(** [isinstance(v, d)] *)
Definition isinstance (h : heap) (v : value) (d : class) : bool :=
  match instance_class h v with
  | Some c => issubclass c d
  | None => false
  end.

(** ** Binding call arguments to parameters *)

(** A parameter: its name and its default value, if it has one. *)
Definition param : Type := string * option value.

Definition required (names : list string) : list param :=
  map (fun n => (n, None)) names.

Fixpoint bind_keywords (ps : list param) (kw : list (string * value))
  : option (list value) :=
  match ps with
  | [] => match kw with [] => Some [] | _ :: _ => None end
  | (name, dflt) :: ps' =>
      match assoc name kw with
      | Some v => option_map (cons v) (bind_keywords ps' (remove_key name kw))
      | None =>
          match dflt with
          | Some d => option_map (cons d) (bind_keywords ps' kw)
          | None => None
          end
      end
  end.

(** Positional arguments fill the parameters from the left, keyword
    arguments the named ones; a surplus argument, an unknown or doubly given
    name and a missing argument give [None] (a [TypeError] in the host). *)
Fixpoint bind_params (ps : list param) (args : list value)
    (kw : list (string * value)) : option (list value) :=
  match args, ps with
  | [], _ => bind_keywords ps kw
  | a :: args', _ :: ps' => option_map (cons a) (bind_params ps' args' kw)
  | _ :: _, [] => None
  end.

(** ** Numbers *)

Inductive num : Type := NInt (z : Z) | NFloat (z : Z).

Definition as_num (v : value) : option num :=
  match v with
  | VBool b => Some (NInt (if b then 1 else 0))
  | VInt z => Some (NInt z)
  | VFloat z => Some (NFloat z)
  | _ => None
  end.

Definition num_val (n : num) : Z :=
  match n with NInt z | NFloat z => z end.

Definition is_float (n : num) : bool :=
  match n with NFloat _ => true | NInt _ => false end.

Definition float_ok (z : Z) : bool := Z.abs z <=? 2 ^ 53.

Definition mk_float (z : Z) : M value :=
  if float_ok z then ret (VFloat z) else unmodelled.

Definition mk_num (float : bool) (z : Z) : M value :=
  if float then mk_float z else ret (VInt z).

(** ** Equality, hashing and dictionaries of the host language *)

(** [a == b] on values that are not operator-algebra instances: numbers
    compare by value across [bool], [int] and [float], sequences
    element-wise, instances without [__eq__] by identity. *)
Fixpoint value_eq (a b : value) : bool :=
  match a, b with
  | VNone, VNone => true
  | VStr s, VStr t => String.eqb s t
  | VList xs, VList ys | VTuple xs, VTuple ys =>
      (fix all2 (xs ys : list value) : bool :=
         match xs, ys with
         | [], [] => true
         | x :: xs', y :: ys' => value_eq x y && all2 xs' ys'
         | _, _ => false
         end) xs ys
  | VRef l, VRef m => Nat.eqb l m
  | _, _ =>
      match as_num a, as_num b with
      | Some x, Some y => num_val x =? num_val y
      | _, _ => false
      end
  end.

(** [hash(v)] succeeds.  [OpFunction] defines [__eq__] and no [__hash__], so
    its instances and those of its subclasses are unhashable; instances of
    [Function], [Constant] and [Identity] hash by identity. *)
Fixpoint hashable (h : heap) (v : value) : bool :=
  match v with
  | VNone | VBool _ | VInt _ | VFloat _ | VStr _ => true
  | VList _ | VDict _ => false
  | VTuple xs => forallb (hashable h) xs
  | VRef l =>
      match h !! l with
      | Some (Inst c _) => negb (issubclass c OpFunction)
      | Some (MapIter _) => true
      | None => false
      end
  end.

(** [d[k] = v]: an equal key keeps its place and gets the new value. *)
Fixpoint dict_set (k v : value) (kvs : list (value * value))
  : list (value * value) :=
  match kvs with
  | [] => [(k, v)]
  | (k', v') :: r =>
      if value_eq k' k then (k', v) :: r else (k', v') :: dict_set k v r
  end.

Fixpoint dict_get (k : value) (kvs : list (value * value)) : option value :=
  match kvs with
  | [] => None
  | (k', v') :: r => if value_eq k' k then Some v' else dict_get k r
  end.

Fixpoint dict_of_pairs (h : heap) (pairs acc : list (value * value))
  : option (list (value * value)) :=
  match pairs with
  | [] => Some acc
  | (k, v) :: r =>
      if hashable h k then dict_of_pairs h r (dict_set k v acc) else None
  end.

(** [dict(pairs)] *)
Definition py_dict (pairs : list (value * value)) : M value :=
  h <- get_heap ;;
  match dict_of_pairs h pairs [] with
  | Some d => ret (VDict d)
  | None => raise TypeError
  end.

(** [d.keys()] and [d.values()] *)
Definition dict_keys (d : value) : M value :=
  match d with
  | VDict kvs => ret (VList (map fst kvs))
  | VRef _ => unmodelled
  | _ => raise AttributeError
  end.

Definition dict_values (d : value) : M value :=
  match d with
  | VDict kvs => ret (VList (map snd kvs))
  | VRef _ => unmodelled
  | _ => raise AttributeError
  end.

(** [map(asfunction, xs)]: a new iterator over the items of [xs]; nothing is
    converted before the iterator is advanced. *)
Definition py_map_asfunction (xs : value) : M value :=
  match xs with
  | VList items | VTuple items => alloc (MapIter items)
  | VDict kvs => alloc (MapIter (map fst kvs))
  | VNone | VBool _ | VInt _ | VFloat _ => raise TypeError
  | VStr _ | VRef _ => unmodelled
  end.

(** ** function.py *)

Definition bind_args (ps : list param) (args : list value)
    (kw : list (string * value)) : M (list value) :=
  match bind_params ps args kw with
  | Some vs => ret vs
  | None => raise TypeError
  end.

Definition arg (i : nat) (vs : list value) : value := nth i vs VNone.

(** [Constant.__init__(self, value)] *)
Definition Constant__init__ (self : value) (args : list value)
    (kw : list (string * value)) : M unit :=
  vs <- bind_args (required ["value"]) args kw ;;
  setattr self "value" (arg 0 vs).

(** [asfunction(function_like)] *)
Definition asfunction (function_like : value) : M value :=
  h <- get_heap ;;
  if isinstance h function_like Function then ret function_like
  else
    self <- alloc (Inst Constant []) ;;
    Constant__init__ self [function_like] [] ;;;
    ret self.

(** ** op.py: constructors *)

Definition kwargs_dict (kw : list (string * value)) : value :=
  VDict (map (fun p => (VStr (fst p), snd p)) kw).

(** [self.name = asfunction(v)] *)
Definition set_function (self : value) (name : string) (v : value) : M unit :=
  f <- asfunction v ;;
  setattr self name f.

(** The [__init__] that the method resolution order of [c] selects, run on
    the fresh instance [self]. *)
Definition init (c : class) (self : value) (args : list value)
    (kw : list (string * value)) : M unit :=
  match c with
  | Function | Identity | OpFunction | OpIdentity | Int | Float | Bool =>
      (* Function.__init__(self) *)
      _ <- bind_args [] args kw ;; ret tt
  | Constant | OpConstant => Constant__init__ self args kw
  | OpWrap =>
      vs <- bind_args (required ["target"]) args kw ;;
      setattr self "target" (arg 0 vs)
  | Apply | Cos | Sin | Exp | Sqrt | SumCall | Indexing | Attribute | AsType =>
      (* Apply.__init__(self, *args, **kwargs) *)
      setattr self "args" (VTuple args) ;;;
      setattr self "kwargs" (kwargs_dict kw)
  | Neg | Not =>
      (* __init__(self): Apply.__init__(self) *)
      _ <- bind_args [] args kw ;;
      setattr self "args" (VTuple []) ;;;
      setattr self "kwargs" (kwargs_dict [])
  | ComposedFunction =>
      vs <- bind_args (required ["a"; "b"]) args kw ;;
      set_function self "a" (arg 0 vs) ;;;
      set_function self "b" (arg 1 vs)
  | _List | _Tuple =>
      vs <- bind_args (required ["elements"]) args kw ;;
      m <- py_map_asfunction (arg 0 vs) ;;
      setattr self "_elements" m
  | _Dict =>
      vs <- bind_args (required ["dictionary"]) args kw ;;
      ks <- dict_keys (arg 0 vs) ;;
      mk <- py_map_asfunction ks ;;
      setattr self "_keys" mk ;;;
      xs <- dict_values (arg 0 vs) ;;
      mv <- py_map_asfunction xs ;;
      setattr self "_values" mv
  | Sum | Product | Quotient =>
      vs <- bind_args (required ["one"; "two"]) args kw ;;
      set_function self "one" (arg 0 vs) ;;;
      set_function self "two" (arg 1 vs)
  | Cmp | Less | Greater | LessEqual | GreaterEqual | Equal | NotEqual =>
      vs <- bind_args (required ["A"; "B"]) args kw ;;
      set_function self "A" (arg 0 vs) ;;;
      set_function self "B" (arg 1 vs)
  | InBetween =>
      vs <- bind_args (required ["value"; "low"; "high"]) args kw ;;
      set_function self "value" (arg 0 vs) ;;;
      set_function self "low" (arg 1 vs) ;;;
      set_function self "high" (arg 2 vs)
  | Power =>
      vs <- bind_args (required ["base"; "exponent"]) args kw ;;
      set_function self "base" (arg 0 vs) ;;;
      set_function self "exponent" (arg 1 vs)
  | Clip =>
      vs <- bind_args [("low", None); ("high", None); ("leaf", Some VNone)]
              args kw ;;
      set_function self "low" (arg 0 vs) ;;;
      set_function self "high" (arg 1 vs) ;;;
      set_function self "leaf" (arg 2 vs)
  end.

(** Instantiation of class [c] with positional arguments [args] and keyword
    arguments [kw]: a fresh instance, then [__init__]. *)
Definition new (c : class) (args : list value) (kw : list (string * value))
  : M value :=
  self <- alloc (Inst c []) ;;
  init c self args kw ;;;
  ret self.

(** [asopfunction(opfunction_like)] *)
Definition asopfunction (opfunction_like : value) : M value :=
  h <- get_heap ;;
  if isinstance h opfunction_like OpFunction then ret opfunction_like
  else if isinstance h opfunction_like Function
       then new OpWrap [opfunction_like] []
       else new OpConstant [opfunction_like] [].

(** The list comprehension [[f(x) for x in xs]]. *)
Definition each {A} (f : A -> M value) : list A -> M (list value) :=
  fix each (xs : list A) : M (list value) :=
    match xs with
    | [] => ret []
    | x :: r => e <- f x ;; es <- each r ;; ret (e :: es)
    end.

(** [compound(obj)] *)
Fixpoint compound (obj : value) : M value :=
  match obj with
  | VList xs =>
      es <- each compound xs ;;
      new _List [VList es] []
  | VTuple xs =>
      es <- each compound xs ;;
      new _Tuple [VList es] []
  | VDict kvs =>
      keys <- each (fun kv => compound (fst kv)) kvs ;;
      values <- each (fun kv => compound (snd kv)) kvs ;;
      d <- py_dict (combine keys values) ;;
      new _Dict [d] []
  | _ => asfunction obj
  end.

(** ** op.py: the operator methods of [OpFunction] *)

Definition OpFunction__or__ (self other : value) : M value :=
  new ComposedFunction [] [("a", self); ("b", other)].

Definition OpFunction__add__ (self other : value) : M value :=
  other <- asfunction other ;; new Sum [self; other] [].

Definition OpFunction__radd__ (self other : value) : M value :=
  other <- asfunction other ;; new Sum [other; self] [].

Definition OpFunction__neg__ (self : value) : M value :=
  n <- new Neg [] [] ;; OpFunction__or__ self n.

Definition OpFunction__sub__ (self other : value) : M value :=
  other <- asfunction other ;;
  n <- new Neg [other] [] ;;
  new Sum [self; n] [].

Definition OpFunction__rsub__ (self other : value) : M value :=
  other <- asfunction other ;;
  n <- OpFunction__neg__ self ;;
  new Sum [other; n] [].

Definition OpFunction__mul__ (self other : value) : M value :=
  other <- asfunction other ;; new Product [self; other] [].

Definition OpFunction__rmul__ (self other : value) : M value :=
  other <- asfunction other ;; new Product [other; self] [].

Definition OpFunction__div__ (self other : value) : M value :=
  other <- asfunction other ;; new Quotient [self; other] [].

Definition OpFunction__rdiv__ (self other : value) : M value :=
  other <- asfunction other ;; new Quotient [other; self] [].

Definition OpFunction__pow__ (self exponent : value) : M value :=
  exponent <- asfunction exponent ;;
  new Power [] [("base", self); ("exponent", exponent)].

Definition OpFunction__rpow__ (self base : value) : M value :=
  base <- asfunction base ;;
  new Power [] [("base", base); ("exponent", self)].

Definition OpFunction__pos__ (self : value) : M value := ret self.

Definition OpFunction__int__ (self : value) : M value :=
  c <- new Int [] [] ;; OpFunction__or__ self c.

Definition OpFunction__float__ (self : value) : M value :=
  c <- new Float [] [] ;; OpFunction__or__ self c.

Definition OpFunction__bool__ (self : value) : M value :=
  c <- new Bool [] [] ;; OpFunction__or__ self c.

Definition OpFunction_sin (self : value) : M value :=
  f <- new Sin [] [] ;; OpFunction__or__ self f.

Definition OpFunction_cos (self : value) : M value :=
  f <- new Cos [] [] ;; OpFunction__or__ self f.

Definition OpFunction_exp (self : value) : M value :=
  f <- new Exp [] [] ;; OpFunction__or__ self f.

Definition OpFunction_sqrt (self : value) : M value :=
  f <- new Sqrt [] [] ;; OpFunction__or__ self f.

Definition OpFunction_sum (self : value) (args : list value)
    (kw : list (string * value)) : M value :=
  f <- new SumCall args kw ;; OpFunction__or__ self f.

Definition OpFunction_clip (self low high : value) : M value :=
  new Clip [] [("leaf", self); ("low", low); ("high", high)].

Definition OpFunction_astype (self : value) (args : list value)
    (kw : list (string * value)) : M value :=
  f <- new AsType args kw ;; OpFunction__or__ self f.

Definition OpFunction__getitem__ (self index : value) : M value :=
  f <- new Indexing [index] [] ;; OpFunction__or__ self f.

Definition OpFunction__lt__ (self other : value) : M value :=
  new Less [self; other] [].
Definition OpFunction__le__ (self other : value) : M value :=
  new LessEqual [self; other] [].
Definition OpFunction__eq__ (self other : value) : M value :=
  new Equal [self; other] [].
Definition OpFunction__ne__ (self other : value) : M value :=
  new NotEqual [self; other] [].
Definition OpFunction__gt__ (self other : value) : M value :=
  new Greater [self; other] [].
Definition OpFunction__ge__ (self other : value) : M value :=
  new GreaterEqual [self; other] [].

(** ** Operators of the host language *)

Inductive binop : Type :=
| Add | Sub | Mul | TrueDiv | Pow | Lt | Gt | Le | Ge | Eq | Ne.

Definition is_comparison (op : binop) : bool :=
  match op with
  | Lt | Gt | Le | Ge | Eq | Ne => true
  | _ => false
  end.

(** The method of [OpFunction] behind [x op y] with [x] as [self];
    [OpFunction] defines [__div__] but no [__truediv__]. *)
Definition forward (op : binop) : option (value -> value -> M value) :=
  match op with
  | Add => Some OpFunction__add__
  | Sub => Some OpFunction__sub__
  | Mul => Some OpFunction__mul__
  | TrueDiv => None
  | Pow => Some OpFunction__pow__
  | Lt => Some OpFunction__lt__
  | Gt => Some OpFunction__gt__
  | Le => Some OpFunction__le__
  | Ge => Some OpFunction__ge__
  | Eq => Some OpFunction__eq__
  | Ne => Some OpFunction__ne__
  end.

(** The method behind [x op y] with [y] as [self]. *)
Definition reflected (op : binop) : option (value -> value -> M value) :=
  match op with
  | Add => Some OpFunction__radd__
  | Sub => Some OpFunction__rsub__
  | Mul => Some OpFunction__rmul__
  | TrueDiv => None
  | Pow => Some OpFunction__rpow__
  | Lt => Some OpFunction__gt__
  | Gt => Some OpFunction__lt__
  | Le => Some OpFunction__ge__
  | Ge => Some OpFunction__le__
  | Eq => Some OpFunction__eq__
  | Ne => Some OpFunction__ne__
  end.

(** No reference and no dictionary anywhere inside. *)
Fixpoint plain (v : value) : bool :=
  match v with
  | VList xs | VTuple xs => forallb plain xs
  | VDict _ | VRef _ => false
  | _ => true
  end.

Definition eq_modelled (v : value) : bool :=
  plain v || match v with VRef _ => true | _ => false end.

(** Mixed arithmetic converts an [int] operand to [float] first. *)
Definition arith (float : bool) (u v r : Z) : M value :=
  if float then
    if float_ok u && float_ok v then mk_float r else unmodelled
  else ret (VInt r).

(** [x op y] when neither operand is an [OpFunction] instance. *)
Definition prim_binop (op : binop) (x y : value) : M value :=
  match as_num x, as_num y with
  | Some a, Some b =>
      let f := is_float a || is_float b in
      let u := num_val a in
      let v := num_val b in
      match op with
      | Add => arith f u v (u + v)
      | Sub => arith f u v (u - v)
      | Mul => arith f u v (u * v)
      | TrueDiv =>
          if v =? 0 then raise ZeroDivisionError
          else if u mod v =? 0 then arith true u v (u / v)
          else unmodelled
      | Pow =>
          if negb f && (0 <=? v) then ret (VInt (u ^ v)) else unmodelled
      | Lt => ret (VBool (u <? v))
      | Gt => ret (VBool (v <? u))
      | Le => ret (VBool (u <=? v))
      | Ge => ret (VBool (v <=? u))
      | Eq => ret (VBool (u =? v))
      | Ne => ret (VBool (negb (u =? v)))
      end
  | _, _ =>
      match op, x, y with
      | Add, VStr s, VStr t => ret (VStr (String.append s t))
      | Add, VList xs, VList ys => ret (VList (xs ++ ys))
      | Add, VTuple xs, VTuple ys => ret (VTuple (xs ++ ys))
      | Lt, VStr s, VStr t => ret (VBool (String.ltb s t))
      | Gt, VStr s, VStr t => ret (VBool (String.ltb t s))
      | Le, VStr s, VStr t => ret (VBool (String.leb s t))
      | Ge, VStr s, VStr t => ret (VBool (String.leb t s))
      | Eq, _, _ =>
          if eq_modelled x && eq_modelled y then ret (VBool (value_eq x y))
          else unmodelled
      | Ne, _, _ =>
          if eq_modelled x && eq_modelled y
          then ret (VBool (negb (value_eq x y)))
          else unmodelled
      | (Add | Sub | TrueDiv | Pow), _, _ => raise TypeError
      | _, _, _ => unmodelled
      end
  end.

Definition proper_subclass (h : heap) (y x : value) : bool :=
  match instance_class h y, instance_class h x with
  | Some cy, Some cx => issubclass cy cx && negb (class_eqb cy cx)
  | _, _ => false
  end.

Definition dispatch (m : option (value -> value -> M value))
    (self other : value) : M value :=
  match m with
  | Some method => method self other
  | None => raise TypeError
  end.

(** [x op y]: an [OpFunction] operand answers with a new node; for a
    comparison the right operand goes first when its class is a proper
    subclass of the left one's. *)
Definition py_binop (op : binop) (x y : value) : M value :=
  h <- get_heap ;;
  let xo := isinstance h x OpFunction in
  let yo := isinstance h y OpFunction in
  if xo && yo && is_comparison op && proper_subclass h y x
  then dispatch (reflected op) y x
  else if xo then dispatch (forward op) x y
  else if yo then dispatch (reflected op) y x
  else prim_binop op x y.

(** [x | y]: only [OpFunction] gives [|] a meaning for instances, and it has
    no reflected form. *)
Definition py_or (x y : value) : M value :=
  h <- get_heap ;;
  if isinstance h x OpFunction then OpFunction__or__ x y
  else match x, y with
       | VRef _, _ | _, VRef _ => raise TypeError
       | _, _ => unmodelled
       end.

(** [-x] *)
Definition py_neg (x : value) : M value :=
  h <- get_heap ;;
  if isinstance h x OpFunction then OpFunction__neg__ x
  else match x with
       | VBool b => ret (VInt (- (if b then 1 else 0)))
       | VInt z => ret (VInt (- z))
       | VFloat z => if z =? 0 then unmodelled else ret (VFloat (- z))
       | _ => raise TypeError
       end.

(** [bool(x)]; [__bool__] of an [OpFunction] returns a node, which the host
    rejects. *)
Definition truth (x : value) : M bool :=
  h <- get_heap ;;
  if isinstance h x OpFunction
  then _ <- OpFunction__bool__ x ;; raise TypeError
  else ret match x with
           | VNone => false
           | VBool b => b
           | VInt z | VFloat z => negb (z =? 0)
           | VStr s => negb (String.eqb s "")
           | VList xs | VTuple xs => negb (Nat.eqb (List.length xs) 0)
           | VDict kvs => negb (Nat.eqb (List.length kvs) 0)
           | VRef _ => true
           end.

(** ** The numeric backend and the scalar fallback

    The elementary functions are modelled where their result is exact:
    square roots of perfect squares and the values at zero. *)

Definition perfect_square (u : Z) : bool :=
  (0 <=? u) && (Z.sqrt u * Z.sqrt u =? u).

Definition no_extra (args kwargs : value) : bool :=
  match args, kwargs with
  | VTuple [], VDict [] => true
  | _, _ => false
  end.

Definition math_sqrt (x : value) : M value :=
  match as_num x with
  | Some a =>
      let u := num_val a in
      if u <? 0 then raise ValueError
      else if perfect_square u && float_ok u then ret (VFloat (Z.sqrt u))
      else unmodelled
  | None => match x with VRef _ => unmodelled | _ => raise TypeError end
  end.

Definition numpy_sqrt (x args kwargs : value) : M value :=
  match as_num x with
  | Some a =>
      let u := num_val a in
      if no_extra args kwargs && perfect_square u && float_ok u
      then ret (VFloat (Z.sqrt u))
      else unmodelled
  | None => unmodelled
  end.

(** [cos], [sin] and [exp] at zero, of either provider. *)
Definition at_zero (r : Z) (x : value) : M value :=
  match as_num x with
  | Some a => if num_val a =? 0 then ret (VFloat r) else unmodelled
  | None => unmodelled
  end.

Definition numpy_at_zero (r : Z) (x args kwargs : value) : M value :=
  if no_extra args kwargs then at_zero r x else unmodelled.

Definition numpy_logical_and (a b : value) : M value :=
  match as_num a, as_num b with
  | Some u, Some v =>
      ret (VBool (negb (num_val u =? 0) && negb (num_val v =? 0)))
  | _, _ => unmodelled
  end.

Definition numpy_logical_not (a : value) : M value :=
  match as_num a with
  | Some u => ret (VBool (num_val u =? 0))
  | None => unmodelled
  end.

(** [numpy.clip(leaf, low, high)] returns a NumPy scalar or array (for
    integers a fixed-width one, whose arithmetic wraps around and which has
    methods such as [sum] and [astype]) and rejects bounds that do not fit
    the width.  The values of this development are those of the host
    language only, so the result is not modelled. *)
Definition numpy_clip (leaf low high : value) : M value := unmodelled.

(** Unpacking of a stored argument tuple and keyword dictionary at a call. *)
Definition unpack_args (v : value) : list value :=
  match v with VTuple xs => xs | _ => [] end.

Definition unpack_kwargs (v : value) : list (string * value) :=
  match v with
  | VDict kvs =>
      flat_map (fun p => match fst p with
                         | VStr k => [(k, snd p)]
                         | _ => []
                         end) kvs
  | _ => []
  end.

(** [sum(array)] of the host: [0 + x1 + x2 + ...]. *)
Definition py_sum (array : value) : M value :=
  match array with
  | VList xs | VTuple xs =>
      fold_left (fun acc x => a <- acc ;; py_binop Add a x) xs (ret (VInt 0))
  | VNone | VBool _ | VInt _ | VFloat _ => raise TypeError
  | _ => unmodelled
  end.

(** [xs[i]] of a list or tuple. *)
Definition seq_index (xs : list value) (i : Z) : M value :=
  let n := Z.of_nat (List.length xs) in
  let j := if i <? 0 then i + n else i in
  if (0 <=? j) && (j <? n) then ret (nth (Z.to_nat j) xs VNone)
  else raise IndexError.

(** [indexable.__getitem__] applied to the stored arguments. *)
Definition py_getitem (indexable : value) (args : list value)
    (kw : list (string * value)) : M value :=
  h <- get_heap ;;
  if isinstance h indexable OpFunction then
    vs <- bind_args (required ["index"]) args kw ;;
    OpFunction__getitem__ indexable (arg 0 vs)
  else
    match indexable with
    | VNone | VBool _ | VInt _ | VFloat _ | VRef _ => raise AttributeError
    | VStr _ => unmodelled
    | VList xs | VTuple xs =>
        match args, kw with
        | [VInt i], [] => seq_index xs i
        | [VBool b], [] => seq_index xs (if b then 1 else 0)
        | _, _ => unmodelled
        end
    | VDict kvs =>
        match args, kw with
        | [k], [] =>
            if hashable h k then
              match dict_get k kvs with
              | Some v => ret v
              | None => raise KeyError
              end
            else raise TypeError
        | _, _ => unmodelled
        end
    end.

(** [int(x)], [float(x)] *)
Definition py_int (x : value) : M value :=
  h <- get_heap ;;
  if isinstance h x OpFunction then _ <- OpFunction__int__ x ;; raise TypeError
  else match x with
       | VStr _ => unmodelled
       | _ => match as_num x with
              | Some a => ret (VInt (num_val a))
              | None => raise TypeError
              end
       end.

Definition py_float (x : value) : M value :=
  h <- get_heap ;;
  if isinstance h x OpFunction
  then _ <- OpFunction__float__ x ;; raise TypeError
  else match x with
       | VStr _ => unmodelled
       | _ => match as_num x with
              | Some a => mk_float (num_val a)
              | None => raise TypeError
              end
       end.

(** ** op.py and function.py: evaluation *)

Section Evaluation.

(** The module-level flag of [op.py]. *)
Variable numpy_available : bool.

Definition callee : Type :=
  value -> list value -> list (string * value) -> M value.

(** The comprehension over a [map] object, which calls every element with
    the arguments of the node.  Each step advances the iterator, converts
    the item and calls it. *)
Fixpoint advance (rec : callee) (l : loc) (args : list value)
    (kw : list (string * value)) (pending : list value)
  : M (list value) :=
  match pending with
  | [] => ret []
  | x :: r =>
      store l (MapIter r) ;;;
      element <- asfunction x ;;
      v <- rec element args kw ;;
      vs <- advance rec l args kw r ;;
      ret (v :: vs)
  end.

Definition call_each (rec : callee) (it : value) (args : list value)
    (kw : list (string * value)) : M (list value) :=
  match it with
  | VRef l =>
      o <- load l ;;
      match o with
      | MapIter pending => advance rec l args kw pending
      | Inst _ _ => unmodelled
      end
  | _ => unmodelled
  end.

(** The function stored in attribute [name], called with the arguments
    of the node. *)
Definition call_attr (rec : callee) (self : value) (name : string)
    (args : list value) (kw : list (string * value)) : M value :=
  f <- getattr self name ;;
  rec f args kw.

Definition binary (rec : callee) (op : binop) (self : value)
    (left right : string) (args : list value) (kw : list (string * value))
  : M value :=
  x <- call_attr rec self left args kw ;;
  y <- call_attr rec self right args kw ;;
  py_binop op x y.

(** The single parameter of an apply-style [__call__]. *)
Definition operand (name : string) (args : list value)
    (kw : list (string * value)) : M value :=
  vs <- bind_args (required [name]) args kw ;;
  ret (arg 0 vs).

Definition elementary (r : Z) (self x : value) : M value :=
  if numpy_available then
    sa <- getattr self "args" ;;
    sk <- getattr self "kwargs" ;;
    numpy_at_zero r x sa sk
  else at_zero r x.

(** The [__call__] that the method resolution order of [c] selects. *)
Definition call_method (rec : callee) (c : class) (self : value)
    (args : list value) (kw : list (string * value)) : M value :=
  match c with
  | Function | OpFunction | Apply => raise TypeError
  | Constant | OpConstant => getattr self "value"
  | Identity | OpIdentity =>
      match kw with
      | [] => match args with
              | [x] => ret x
              | _ => ret (VTuple args)
              end
      | _ :: _ => raise TypeError
      end
  | OpWrap => call_attr rec self "target" args kw
  | ComposedFunction =>
      r <- call_attr rec self "a" args kw ;;
      call_attr rec self "b" [r] []
  | _List =>
      it <- getattr self "_elements" ;;
      vs <- call_each rec it args kw ;;
      ret (VList vs)
  | _Tuple =>
      it <- getattr self "_elements" ;;
      vs <- call_each rec it args kw ;;
      ret (VTuple vs)
  | _Dict =>
      ks <- getattr self "_keys" ;;
      keys <- call_each rec ks args kw ;;
      vs <- getattr self "_values" ;;
      values <- call_each rec vs args kw ;;
      py_dict (combine keys values)
  | Sum => binary rec Add self "one" "two" args kw
  | Product => binary rec Mul self "one" "two" args kw
  | Quotient => binary rec TrueDiv self "one" "two" args kw
  | Cmp => raise NameError
  | Less => binary rec Lt self "A" "B" args kw
  | Greater => binary rec Gt self "A" "B" args kw
  | LessEqual => binary rec Le self "A" "B" args kw
  | GreaterEqual => binary rec Ge self "A" "B" args kw
  | Equal => binary rec Eq self "A" "B" args kw
  | NotEqual => binary rec Ne self "A" "B" args kw
  | InBetween =>
      low <- call_attr rec self "low" args kw ;;
      high <- call_attr rec self "high" args kw ;;
      value <- call_attr rec self "value" args kw ;;
      if numpy_available then
        c1 <- py_binop Le low value ;;
        c2 <- py_binop Lt value high ;;
        numpy_logical_and c1 c2
      else
        c1 <- py_binop Le low value ;;
        t <- truth c1 ;;
        if t then py_binop Lt value high else ret c1
  | Power => binary rec Pow self "base" "exponent" args kw
  | Neg => x <- operand "invertible" args kw ;; py_neg x
  | Not =>
      x <- operand "invertible" args kw ;;
      if numpy_available then numpy_logical_not x
      else t <- truth x ;; ret (VBool (negb t))
  | Cos => x <- operand "angle" args kw ;; elementary 1 self x
  | Sin => x <- operand "angle" args kw ;; elementary 0 self x
  | Exp => x <- operand "exponent" args kw ;; elementary 1 self x
  | Sqrt =>
      x <- operand "radicand" args kw ;;
      if numpy_available then
        sa <- getattr self "args" ;;
        sk <- getattr self "kwargs" ;;
        numpy_sqrt x sa sk
      else math_sqrt x
  | SumCall =>
      x <- operand "array" args kw ;;
      if numpy_available then
        h <- get_heap ;;
        if isinstance h x OpFunction then
          sa <- getattr self "args" ;;
          sk <- getattr self "kwargs" ;;
          OpFunction_sum x (unpack_args sa) (unpack_kwargs sk)
        else raise AttributeError
      else py_sum x
  | Indexing =>
      x <- operand "indexable" args kw ;;
      sa <- getattr self "args" ;;
      sk <- getattr self "kwargs" ;;
      py_getitem x (unpack_args sa) (unpack_kwargs sk)
  | Attribute => _ <- operand "host" args kw ;; unmodelled
  | AsType =>
      x <- operand "argument" args kw ;;
      h <- get_heap ;;
      if isinstance h x OpFunction then
        sa <- getattr self "args" ;;
        sk <- getattr self "kwargs" ;;
        OpFunction_astype x (unpack_args sa) (unpack_kwargs sk)
      else raise AttributeError
  | Clip =>
      low <- call_attr rec self "low" args kw ;;
      high <- call_attr rec self "high" args kw ;;
      leaf <- call_attr rec self "leaf" args kw ;;
      if numpy_available then numpy_clip leaf low high
      else
        c1 <- py_binop Lt leaf low ;;
        t1 <- truth c1 ;;
        if t1 then ret low
        else
          c2 <- py_binop Lt leaf high ;;
          t2 <- truth c2 ;;
          if t2 then ret leaf else ret high
  | Int => x <- operand "convertible" args kw ;; py_int x
  | Float => x <- operand "convertible" args kw ;; py_float x
  | Bool => x <- operand "convertible" args kw ;; t <- truth x ;; ret (VBool t)
  end.

(** Calling a value with positional and keyword arguments.  The recursion
    through the store is bounded by [fuel], the nesting depth of calls. *)
Fixpoint call (fuel : nat) (f : value) (args : list value)
    (kw : list (string * value)) : M value :=
  match fuel with
  | O => fun _ => OutOfFuel
  | S n =>
      match f with
      | VRef l =>
          o <- load l ;;
          match o with
          | Inst c _ =>
              log (Event l args kw) ;;;
              call_method (call n) c f args kw
          | MapIter _ => raise TypeError
          end
      | _ => raise TypeError
      end
  end.

End Evaluation.
Arguments call numpy_available fuel%_nat f args kw.

Definition empty_state : state := State [] [].

(** * Example programs *)

(** [Clip(low=low, high=high, leaf=Constant(leaf))()] without the backend. *)
Definition clip_example (low high leaf : Z) : M value :=
  c <- new Constant [VInt leaf] [] ;;
  k <- new Clip [] [("low", VInt low); ("high", VInt high); ("leaf", c)] ;;
  call false 2 k [] [].

(** [InBetween(Constant(value), low, high)()] *)
Definition inbetween_example (numpy_available : bool) (x low high : Z)
  : M value :=
  c <- new Constant [VInt x] [] ;;
  k <- new InBetween [c; VInt low; VInt high] [] ;;
  call numpy_available 2 k [] [].

(** [compound([Constant(3), Constant(4)])()] *)
Definition list_example (numpy_available : bool) : M value :=
  a <- new Constant [VInt 3] [] ;;
  b <- new Constant [VInt 4] [] ;;
  node <- compound (VList [a; b]) ;;
  call numpy_available 2 node [] [].

(** * Specification predicates *)

(** What evaluation may do to an object of the store: an instance keeps its
    class and attributes, a [map] iterator stays an iterator. *)
Definition preserved (o o' : obj) : Prop :=
  match o with
  | Inst _ _ => o' = o
  | MapIter _ => exists p, o' = MapIter p
  end.

(** The store has grown and its objects below [n] are preserved. *)
Definition grows_below (n : nat) (h h' : heap) : Prop :=
  (List.length h <= List.length h')%nat /\
  forall l o, (l < n)%nat -> h !! l = Some o ->
              exists o', h' !! l = Some o' /\ preserved o o'.

(** The outcome [r] of a computation started in [s] preserves the objects
    below [n] and records only events that satisfy [P]. *)
Definition evolves (n : nat) (P : event -> Prop) (s : state) {A} (r : res A)
  : Prop :=
  match r with
  | Ok _ s' | Raise _ s' =>
      grows_below n (st_heap s) (st_heap s') /\
      exists evs, st_trace s' = st_trace s ++ evs /\ Forall P evs
  | _ => True
  end.

(** A computation that does so from every store of at least [n] objects. *)
Definition stable (n : nat) (P : event -> Prop) {A} (m : M A) : Prop :=
  forall s, (n <= List.length (st_heap s))%nat -> evolves n P s (m s).

(** The arguments a node is invoked with during the evaluation of a tree
    that was invoked with [args] and [kw]: the same ones, or the single
    positional argument that a composition hands to its right-hand side. *)
Definition forwarded (args : list value) (kw : list (string * value))
    (e : event) : Prop :=
  (ev_args e = args /\ ev_kwargs e = kw) \/
  (exists v, ev_args e = [v] /\ ev_kwargs e = []).

(** A reference that points into the store. *)
Definition bound (h : heap) (v : value) : Prop :=
  match v with
  | VRef l => (l < List.length h)%nat
  | _ => True
  end.

(** The iterator at [l], if it is among the objects to preserve, is still an
    iterator. *)
Definition iterator_at (n : nat) (l : loc) (h : heap) : Prop :=
  (n <= List.length h)%nat /\
  ((l < n)%nat -> exists p, h !! l = Some (MapIter p)).

(** The values that [compound] and [asfunction] wrap as they are. *)
Definition scalar (v : value) : bool :=
  match v with
  | VNone | VBool _ | VInt _ | VFloat _ | VStr _ => true
  | _ => false
  end.

(** [c] refers to a [Constant] (or [OpConstant]) that holds [v]. *)
Definition constant_at (h : heap) (c v : value) : Prop :=
  exists k cls attrs,
    c = VRef k /\ h !! k = Some (Inst cls attrs) /\
    (cls = Constant \/ cls = OpConstant) /\ assoc "value" attrs = Some v.

(** An element of a literal whose evaluation result is [v]: a scalar [v]
    itself, or a constant node that holds [v]. *)
Definition leaf_value (h : heap) (x v : value) : Prop :=
  (scalar x = true /\ v = x) \/ constant_at h x v.

(** How a lifting may end: with a node, or with [TypeError]. *)
Definition lifting_outcome {A} (r : res A) : Prop :=
  match r with
  | Ok _ _ => True
  | Raise e _ => e = TypeError
  | _ => False
  end.

(** No dictionary anywhere inside. *)
Fixpoint dict_free (v : value) : bool :=
  match v with
  | VList xs | VTuple xs => forallb dict_free xs
  | VDict _ => false
  | _ => true
  end.

(** Induction on values through the lists they contain. *)
Section ValueInduction.

Variable P : value -> Prop.
Hypothesis HNone : P VNone.
Hypothesis HBool : forall b, P (VBool b).
Hypothesis HInt : forall z, P (VInt z).
Hypothesis HFloat : forall z, P (VFloat z).
Hypothesis HStr : forall s, P (VStr s).
Hypothesis HList : forall xs, Forall P xs -> P (VList xs).
Hypothesis HTuple : forall xs, Forall P xs -> P (VTuple xs).
Hypothesis HDict :
  forall kvs, Forall (fun kv => P (fst kv) /\ P (snd kv)) kvs ->
              P (VDict kvs).
Hypothesis HRef : forall l, P (VRef l).

Fixpoint value_nested_ind (v : value) : P v :=
  match v with
  | VNone => HNone
  | VBool b => HBool b
  | VInt z => HInt z
  | VFloat z => HFloat z
  | VStr s => HStr s
  | VList xs =>
      HList xs ((fix all (xs : list value) : Forall P xs :=
                   match xs with
                   | [] => @List.Forall_nil _ P
                   | x :: r =>
                       @List.Forall_cons _ P x r (value_nested_ind x)
                         (all r)
                   end) xs)
  | VTuple xs =>
      HTuple xs ((fix all (xs : list value) : Forall P xs :=
                    match xs with
                    | [] => @List.Forall_nil _ P
                    | x :: r =>
                        @List.Forall_cons _ P x r (value_nested_ind x)
                         (all r)
                    end) xs)
  | VDict kvs =>
      HDict kvs
        ((fix all (kvs : list (value * value))
           : Forall (fun kv => P (fst kv) /\ P (snd kv)) kvs :=
            match kvs with
            | [] => @List.Forall_nil _ _
            | (k, x) :: r =>
                @List.Forall_cons _ (fun kv => P (fst kv) /\ P (snd kv))
                  (k, x) r
                  (conj (value_nested_ind k) (value_nested_ind x)) (all r)
            end) kvs)
  | VRef l => HRef l
  end.

End ValueInduction.

(** The node class that an operator of the host builds from an [OpFunction]
    operand; [-] goes through [Neg] and [/] has no method in Python 3. *)
Definition node_class (op : binop) : option class :=
  match op with
  | Add => Some Sum
  | Mul => Some Product
  | Pow => Some Power
  | Lt => Some Less
  | Gt => Some Greater
  | Le => Some LessEqual
  | Ge => Some GreaterEqual
  | Eq => Some Equal
  | Ne => Some NotEqual
  | Sub | TrueDiv => None
  end.

(** The attributes in which a binary node keeps its operands. *)
Definition operands (c : class) : option (string * string) :=
  match c with
  | Sum | Product | Quotient => Some ("one", "two")
  | Less | Greater | LessEqual | GreaterEqual | Equal | NotEqual =>
      Some ("A", "B")
  | Power => Some ("base", "exponent")
  | _ => None
  end.

(** The operator that a binary node applies to the results of its
    operands. *)
Definition operator_of (c : class) : option binop :=
  match c with
  | Sum => Some Add
  | Product => Some Mul
  | Quotient => Some TrueDiv
  | Power => Some Pow
  | Less => Some Lt
  | Greater => Some Gt
  | LessEqual => Some Le
  | GreaterEqual => Some Ge
  | Equal => Some Eq
  | NotEqual => Some Ne
  | _ => None
  end.

(** The comparison that answers [x op y] from the side of [y]. *)
Definition mirror (op : binop) : binop :=
  match op with
  | Lt => Gt
  | Gt => Lt
  | Le => Ge
  | Ge => Le
  | _ => op
  end.

(** [(Constant(x) op Constant(y))()] over operator-algebra constants. *)
Definition arithmetic_example (numpy_available : bool) (op : binop) (x y : Z)
  : M value :=
  a <- new OpConstant [VInt x] [] ;;
  b <- new OpConstant [VInt y] [] ;;
  node <- py_binop op a b ;;
  call numpy_available 2 node [] [].

(** What a [_List] or [_Tuple] node makes of the results of its
    elements. *)
Definition sequence_value (c : class) (vs : list value) : value :=
  match c with
  | _Tuple => VTuple vs
  | _ => VList vs
  end.

(** The classes whose [__call__] takes the single runtime operand of an
    apply-style node. *)
Definition apply_style (c : class) : bool :=
  match c with
  | Neg | Not | Cos | Sin | Exp | Sqrt | SumCall | Indexing | Attribute
  | AsType | Int | Float | Bool => true
  | _ => false
  end.

(** The number of operands of the constructors with a fixed signature. *)
Definition arity (c : class) : option nat :=
  match c with
  | Function | Identity | OpFunction | OpIdentity | Int | Float | Bool
  | Neg | Not => Some 0%nat
  | Constant | OpConstant | OpWrap | _List | _Tuple | _Dict => Some 1%nat
  | ComposedFunction | Sum | Product | Quotient | Cmp | Less | Greater
  | LessEqual | GreaterEqual | Equal | NotEqual | Power => Some 2%nat
  | InBetween => Some 3%nat
  | _ => None
  end.

(** The keys of a dictionary are pairwise different under [==]. *)
Fixpoint distinct_keys (ks : list value) : bool :=
  match ks with
  | [] => true
  | k :: r => forallb (fun k' => negb (value_eq k k')) r && distinct_keys r
  end.

(** The [Constant] instances that wrap the values [xs], and the references
    to [n] consecutive objects from [a] on. *)
Definition constants_of (xs : list value) : heap :=
  map (fun x => Inst Constant [("value", x)]) xs.

Definition refs (a n : nat) : list value := map VRef (seq a n).

(** The attributes in which a node keeps the operands that it invokes with
    its own arguments: all operands, but of a composition only the
    left-hand side.  ([Cmp] never returns and is left out.) *)
Definition operand_names (c : class) : list string :=
  match c with
  | OpWrap => ["target"]
  | ComposedFunction => ["a"]
  | Sum | Product | Quotient => ["one"; "two"]
  | Less | Greater | LessEqual | GreaterEqual | Equal | NotEqual => ["A"; "B"]
  | InBetween => ["low"; "high"; "value"]
  | Power => ["base"; "exponent"]
  | Clip => ["low"; "high"; "leaf"]
  | _ => []
  end.

(** The node at [m] is the node at [l] or lies below it in the tree, at most
    [depth] operand attributes away. *)
Fixpoint reaches (depth : nat) (h : heap) (l m : loc) : bool :=
  Nat.eqb l m ||
  match depth with
  | O => false
  | S d =>
      match h !! l with
      | Some (Inst c attrs) =>
          existsb (fun name => match assoc name attrs with
                               | Some (VRef k) => reaches d h k m
                               | _ => false
                               end) (operand_names c)
      | _ => false
      end
  end.

(** The instances of [h0] are still in the store of [s]. *)
Definition kept (h0 : heap) (s : state) : Prop :=
  (List.length h0 <= List.length (st_heap s))%nat /\
  forall l c attrs,
    h0 !! l = Some (Inst c attrs) -> st_heap s !! l = Some (Inst c attrs).

(** A computation that, when it returns, has kept the instances of [h0] and
    extended the trace; and one that has then also recorded the event
    [e]. *)
Definition quiet (h0 : heap) {A} (m : M A) : Prop :=
  forall s a s',
    kept h0 s -> m s = Ok a s' ->
    kept h0 s' /\ exists evs, st_trace s' = st_trace s ++ evs.

Definition records (h0 : heap) (e : event) {A} (m : M A) : Prop :=
  forall s a s',
    kept h0 s -> m s = Ok a s' ->
    kept h0 s' /\ exists evs, st_trace s' = st_trace s ++ evs /\ In e evs.

(** The store of [s] with the pending items of the [map] object at [it]
    replaced by [p]; and an outcome with its store so changed. *)
Definition over (it : loc) (p : list value) (s : state) : state :=
  State (<[it:=MapIter p]> (st_heap s)) (st_trace s).

Definition lift (it : loc) (p : list value) {A} (r : res A) : res A :=
  match r with
  | Ok a s => Ok a (over it p s)
  | Raise e s => Raise e (over it p s)
  | OutOfFuel => OutOfFuel
  | Unmodelled => Unmodelled
  end.

(** A value that is no reference to an object at [b] or beyond. *)
Definition below (b : nat) (v : value) : Prop :=
  match v with
  | VRef j => (j < b)%nat
  | _ => True
  end.

(** The values that an object holds: its attributes, or its pending
    items. *)
Definition held (o : obj) : list value :=
  match o with
  | Inst _ attrs => map snd attrs
  | MapIter p => p
  end.

(** The objects below [b] refer to objects below [b] only. *)
Definition closed_below (b : nat) (h : heap) : Prop :=
  forall k o, (k < b)%nat -> h !! k = Some o -> Forall (below b) (held o).

(** There is a [map] object at [it], and the objects below [b] are closed. *)
Definition good (it : loc) (b : nat) (s : state) : Prop :=
  (exists q, st_heap s !! it = Some (MapIter q)) /\
  closed_below b (st_heap s).

(** A computation that does not look at the pending items of the [map]
    object at [it]: started with other items there, it ends in the same way
    and leaves them there. *)
Definition framed (it : loc) (b : nat) {A} (m : M A) : Prop :=
  forall p s,
    good it b s ->
    m (over it p s) = lift it p (m s) /\
    match m s with
    | Ok _ s' | Raise _ s' => good it b s'
    | _ => True
    end.

(** Every reference inside [v] points below [n]. *)
Fixpoint references_bound (n : nat) (v : value) : bool :=
  match v with
  | VRef j => Nat.ltb j n
  | VList xs | VTuple xs => forallb (references_bound n) xs
  | VDict kvs =>
      forallb (fun kv => references_bound n (fst kv)
                         && references_bound n (snd kv)) kvs
  | _ => true
  end.

(** Every object of the store refers to objects of the store only. *)
Definition well_formed (h : heap) : bool :=
  forallb (fun o => forallb (fun v => match v with
                                      | VRef j => Nat.ltb j (List.length h)
                                      | _ => true
                                      end) (held o)) h.

(** The list comprehension [[c(args, kwargs) for c in children]] over
    the children themselves. *)
Definition evaluate_children (numpy_available : bool) (fuel : nat)
    (children : list value) (args : list value)
    (kw : list (string * value)) : M (list value) :=
  each (fun c => call numpy_available fuel c args kw) children.

(** * Properties *)

(** ** The store *)

Lemma lookup_fresh (h : heap) (o : obj) (rest : heap) :
  (h ++ o :: rest) !! List.length h = Some o.
Proof. by apply list_lookup_middle. Qed.

Lemma lookup_fresh_next (h : heap) (o1 o2 : obj) (rest : heap) :
  (h ++ o1 :: o2 :: rest) !! S (List.length h) = Some o2.
Proof.
  rewrite lookup_app_r by lia.
  by replace (S (List.length h) - List.length h)%nat with 1%nat by lia.
Qed.

Lemma insert_fresh (h : heap) (o o' : obj) (rest : heap) :
  <[List.length h := o']> (h ++ o :: rest) = h ++ o' :: rest.
Proof.
  rewrite insert_app_r_alt by reflexivity.
  by rewrite Nat.sub_diag.
Qed.

Lemma lookup_old (h rest : heap) (l : loc) (o : obj) :
  h !! l = Some o -> (h ++ rest) !! l = Some o.
Proof. apply lookup_app_l_Some. Qed.

Lemma alloc_eq (o : obj) (h : heap) (t : list event) :
  alloc o (State h t) = Ok (VRef (List.length h)) (State (h ++ [o]) t).
Proof. reflexivity. Qed.

Lemma setattr_eq (h : heap) (t : list event) (l : loc) (c : class)
    (attrs : list (string * value)) (name : string) (v : value) :
  h !! l = Some (Inst c attrs) ->
  setattr (VRef l) name v (State h t)
  = Ok tt (State (<[l := Inst c (set_key name v attrs)]> h) t).
Proof.
  intros H. unfold setattr, bind, load, store. cbn. by rewrite H.
Qed.

Lemma getattr_eq (h : heap) (t : list event) (l : loc) (c : class)
    (attrs : list (string * value)) (name : string) (v : value) :
  h !! l = Some (Inst c attrs) -> assoc name attrs = Some v ->
  getattr (VRef l) name (State h t) = Ok v (State h t).
Proof.
  intros H A. unfold getattr, bind, load. cbn. by rewrite H, A.
Qed.

Lemma isinstance_old (h rest : heap) (v : value) (d : class) :
  isinstance h v d = true -> isinstance (h ++ rest) v d = true.
Proof.
  unfold isinstance, instance_class. destruct v; try discriminate.
  destruct (h !! l) as [o|] eqn:E; [|discriminate].
  by rewrite (lookup_old h rest l o E).
Qed.

Lemma isinstance_fresh (h rest : heap) (c d : class)
    (attrs : list (string * value)) :
  isinstance (h ++ Inst c attrs :: rest) (VRef (List.length h)) d
  = issubclass c d.
Proof. unfold isinstance, instance_class. by rewrite lookup_fresh. Qed.

(** ** Conversion *)

Lemma asfunction_function (s : state) (x : value) :
  isinstance (st_heap s) x Function = true -> asfunction x s = Ok x s.
Proof. intros H. unfold asfunction, bind, get_heap. by rewrite H. Qed.

Lemma asfunction_constant (s : state) (x : value) :
  isinstance (st_heap s) x Function = false ->
  asfunction x s
  = Ok (VRef (List.length (st_heap s)))
       (State (st_heap s ++ [Inst Constant [("value", x)]]) (st_trace s)).
Proof.
  intros H. destruct s as [h t]. cbn in H.
  unfold asfunction, bind at 1, get_heap. cbn. rewrite H.
  unfold bind at 1. rewrite alloc_eq.
  unfold bind at 1, Constant__init__, bind at 1. cbn -[setattr].
  rewrite (setattr_eq _ _ _ Constant []) by apply lookup_fresh.
  cbn. by rewrite insert_fresh.
Qed.

(** C9: conversion to a node is idempotent.  A value that is already a
    [Function] instance is returned as the same reference and nothing is
    allocated; any other value is wrapped in a fresh [Constant] that holds
    it; and for every value [x], converting [asfunction x] again returns the
    very same reference and leaves the store as it is. *)
Theorem asfunction_idempotent (s : state) (x : value) :
  (isinstance (st_heap s) x Function = true -> asfunction x s = Ok x s) /\
  (isinstance (st_heap s) x Function = false ->
   asfunction x s
   = Ok (VRef (List.length (st_heap s)))
        (State (st_heap s ++ [Inst Constant [("value", x)]]) (st_trace s))) /\
  (exists r s1, asfunction x s = Ok r s1 /\ asfunction r s1 = Ok r s1).
Proof.
  split; [apply asfunction_function|].
  split; [apply asfunction_constant|].
  destruct (isinstance (st_heap s) x Function) eqn:E.
  - exists x, s. split; by apply asfunction_function.
  - eexists _, _. split; [by apply asfunction_constant|].
    apply asfunction_function. cbn. apply isinstance_fresh.
Qed.

Lemma asfunction_idempotent_witness :
  let s := State [Inst Identity []] [] in
  asfunction (VRef 0) s = Ok (VRef 0) s /\
  asfunction (VInt 7) s
  = Ok (VRef 1)
       (State [Inst Identity []; Inst Constant [("value", VInt 7)]] []).
Proof.
  split.
  - apply (proj1 (asfunction_idempotent
                    (State [Inst Identity []] []) (VRef 0))).
    reflexivity.
  - apply (proj1 (proj2 (asfunction_idempotent
                           (State [Inst Identity []] []) (VInt 7)))).
    reflexivity.
Defined.

(** ** Subtraction *)

Lemma new_Neg_operand (s : state) (x : value) :
  new Neg [x] [] s
  = Raise TypeError (State (st_heap s ++ [Inst Neg []]) (st_trace s)).
Proof. reflexivity. Qed.

Lemma asfunction_total (s : state) (x : value) :
  exists r s1, asfunction x s = Ok r s1.
Proof.
  destruct (isinstance (st_heap s) x Function) eqn:E.
  - exists x, s. by apply asfunction_function.
  - eexists _, _. by apply asfunction_constant.
Qed.

(** C1: [a - b] with [a] an operator-algebra node never returns a node:
    [__sub__] instantiates [Neg] with the converted operand, [Neg.__init__]
    takes no operand, and the construction raises [TypeError], whatever [b]
    is. *)
Theorem sub_raises_TypeError (s : state) (a b : value) :
  isinstance (st_heap s) a OpFunction = true ->
  exists s', py_binop Sub a b s = Raise TypeError s'.
Proof.
  intros Ha. unfold py_binop, bind at 1, get_heap. rewrite Ha.
  replace (true && isinstance (st_heap s) b OpFunction && is_comparison Sub
           && proper_subclass (st_heap s) b a) with false
    by (cbn; by destruct (isinstance (st_heap s) b OpFunction)).
  cbn [dispatch forward]. unfold OpFunction__sub__, bind at 1.
  destruct (asfunction_total s b) as (r & s1 & ->).
  unfold bind at 1. rewrite new_Neg_operand. by eexists.
Qed.

Lemma sub_raises_TypeError_witness :
  exists s',
    py_binop Sub (VRef 0) (VInt 3)
             (State [Inst OpConstant [("value", VInt 5)]] [])
    = Raise TypeError s'.
Proof.
  apply (sub_raises_TypeError
           (State [Inst OpConstant [("value", VInt 5)]] []) (VRef 0) (VInt 3)).
  reflexivity.
Defined.

(** The reflected subtraction negates through [__neg__] and evaluates:
    [3 - OpConstant(5)] is [3 + (-5)]. *)
Example rsub_evaluates (numpy_available : bool) :
  exists s',
    (a <- new OpConstant [VInt 5] [] ;;
     d <- py_binop Sub (VInt 3) a ;;
     call numpy_available 3 d [] []) empty_state
    = Ok (VInt (-2)) s'.
Proof. by eexists. Qed.

(** ** Evaluation preserves the objects of the store *)

Lemma preserved_refl (o : obj) : preserved o o.
Proof. destruct o; cbn; eauto. Qed.

Lemma preserved_trans (o1 o2 o3 : obj) :
  preserved o1 o2 -> preserved o2 o3 -> preserved o1 o3.
Proof.
  destruct o1; cbn.
  - intros ->. cbn. auto.
  - intros [p ->]. cbn. auto.
Qed.

Lemma grows_below_refl (n : nat) (h : heap) : grows_below n h h.
Proof. split; [lia|]. intros l o _ H. exists o. auto using preserved_refl. Qed.

Lemma grows_below_trans (n : nat) (h1 h2 h3 : heap) :
  grows_below n h1 h2 -> grows_below n h2 h3 -> grows_below n h1 h3.
Proof.
  intros [L1 H1] [L2 H2]. split; [lia|].
  intros l o Hl Ho. destruct (H1 l o Hl Ho) as (o' & Ho' & P1).
  destruct (H2 l o' Hl Ho') as (o'' & Ho'' & P2).
  exists o''. eauto using preserved_trans.
Qed.

Lemma grows_below_le (n m : nat) (h h' : heap) :
  (m <= n)%nat -> grows_below n h h' -> grows_below m h h'.
Proof.
  intros Hm [L H]. split; [exact L|].
  intros l o Hl. apply H. lia.
Qed.

Lemma grows_below_app (n : nat) (h rest : heap) : grows_below n h (h ++ rest).
Proof.
  split; [rewrite length_app; lia|].
  intros l o _ H. exists o. split; [by apply lookup_old|apply preserved_refl].
Qed.

Lemma grows_below_insert (n : nat) (h : heap) (l : loc) (o : obj) :
  (n <= l)%nat -> grows_below n h (<[l:=o]> h).
Proof.
  intros Hl. split; [rewrite length_insert; lia|].
  intros l' o' Hl' H. exists o'. split; [|apply preserved_refl].
  rewrite list_lookup_insert_ne by lia. exact H.
Qed.

Lemma grows_below_advance (n : nat) (h : heap) (l : loc) (p p' : list value) :
  h !! l = Some (MapIter p) -> grows_below n h (<[l:=MapIter p']> h).
Proof.
  intros Hl. split; [rewrite length_insert; lia|].
  intros l' o' _ H. destruct (decide (l' = l)) as [->|Hne].
  - exists (MapIter p'). split.
    + apply list_lookup_insert_eq. by eapply lookup_lt_Some.
    + rewrite Hl in H. injection H as <-. cbn. eauto.
  - exists o'. split; [|apply preserved_refl].
    by rewrite list_lookup_insert_ne.
Qed.

Section Stable.

Context (n : nat) (P : event -> Prop).

Lemma stable_same {A} (m : M A) :
  (forall s, match m s with
             | Ok _ s' | Raise _ s' => s' = s
             | _ => True
             end) ->
  stable n P m.
Proof.
  intros H s _. specialize (H s). destruct (m s); auto; subst;
    (split; [apply grows_below_refl|exists []; by rewrite app_nil_r]).
Qed.

Lemma stable_ret {A} (a : A) : stable n P (ret a).
Proof. by apply stable_same. Qed.

Lemma stable_raise {A} (e : exn) : stable n P (@raise A e).
Proof. by apply stable_same. Qed.

Lemma stable_unmodelled {A} : stable n P (@unmodelled A).
Proof. by apply stable_same. Qed.

Lemma stable_get_heap : stable n P get_heap.
Proof. by apply stable_same. Qed.

Lemma stable_load (l : loc) : stable n P (load l).
Proof.
  apply stable_same. intros s. unfold load. by destruct (st_heap s !! l).
Qed.

Lemma stable_bind {A B} (m : M A) (k : A -> M B) :
  stable n P m -> (forall a, stable n P (k a)) -> stable n P (bind m k).
Proof.
  intros Hm Hk s Hs. unfold bind. specialize (Hm s Hs).
  destruct (m s) as [a s1|e s1| |]; auto.
  destruct Hm as (G1 & evs1 & T1 & F1).
  assert (Hs1 : (n <= List.length (st_heap s1))%nat)
    by (destruct G1; lia).
  specialize (Hk a s1 Hs1).
  destruct (k a s1) as [b s2|e s2| |]; auto;
    destruct Hk as (G2 & evs2 & T2 & F2);
    (split; [eauto using grows_below_trans|]);
    exists (evs1 ++ evs2); rewrite T2, T1, app_assoc;
    (split; [reflexivity|by apply Forall_app]).
Qed.

Lemma stable_alloc_then {B} (o : obj) (k : value -> M B) :
  (forall l, (n <= l)%nat -> stable n P (k (VRef l))) ->
  stable n P (bind (alloc o) k).
Proof.
  intros Hk s Hs. unfold bind, alloc.
  specialize (Hk (List.length (st_heap s)) Hs
                 (State (st_heap s ++ [o]) (st_trace s))).
  cbn in Hk. rewrite length_app in Hk.
  specialize (Hk ltac:(lia)).
  destruct (k _ _) as [b s2|e s2| |]; auto;
    destruct Hk as (G2 & evs2 & T2 & F2);
    (split; [eauto using grows_below_trans, grows_below_app|eauto]).
Qed.

Lemma stable_alloc (o : obj) : stable n P (alloc o).
Proof.
  intros s _. cbn. split; [apply grows_below_app|].
  exists []. by rewrite app_nil_r.
Qed.

Lemma stable_store (l : loc) (o : obj) :
  (n <= l)%nat -> stable n P (store l o).
Proof.
  intros Hl s _. cbn. split; [by apply grows_below_insert|].
  exists []. by rewrite app_nil_r.
Qed.

End Stable.

Create HintDb stable.

#[local] Hint Resolve stable_ret stable_raise stable_unmodelled
  stable_get_heap stable_load stable_alloc : stable.

Ltac stable_step :=
  lazymatch goal with
  | |- stable _ _ (bind (alloc _) _) => apply stable_alloc_then; intros
  | |- stable _ _ (bind _ _) => apply stable_bind; [|intros]
  | |- stable _ _ (store _ _) => apply stable_store; lia
  | |- stable _ _ (match ?x with _ => _ end) => destruct x
  | |- stable _ _ _ => solve [eauto with stable]
  end.

Ltac stable_auto := repeat stable_step.

Section StableConstruction.

Context (n : nat) (P : event -> Prop).

Lemma stable_setattr (l : loc) (name : string) (v : value) :
  (n <= l)%nat -> stable n P (setattr (VRef l) name v).
Proof. intros. unfold setattr. stable_auto. Qed.

Lemma stable_getattr (self : value) (name : string) :
  stable n P (getattr self name).
Proof. unfold getattr. stable_auto. Qed.

Lemma stable_bind_args (ps : list param) (args : list value)
    (kw : list (string * value)) : stable n P (bind_args ps args kw).
Proof. unfold bind_args. stable_auto. Qed.

Lemma stable_py_dict (pairs : list (value * value)) :
  stable n P (py_dict pairs).
Proof. unfold py_dict. stable_auto. Qed.

Lemma stable_dict_keys (d : value) : stable n P (dict_keys d).
Proof. unfold dict_keys. stable_auto. Qed.

Lemma stable_dict_values (d : value) : stable n P (dict_values d).
Proof. unfold dict_values. stable_auto. Qed.

Lemma stable_py_map_asfunction (xs : value) :
  stable n P (py_map_asfunction xs).
Proof. unfold py_map_asfunction. stable_auto. Qed.

Hint Resolve stable_setattr stable_getattr stable_bind_args stable_py_dict
  stable_dict_keys stable_dict_values stable_py_map_asfunction : stable.

Lemma stable_Constant__init__ (l : loc) (args : list value)
    (kw : list (string * value)) :
  (n <= l)%nat -> stable n P (Constant__init__ (VRef l) args kw).
Proof. intros. unfold Constant__init__. stable_auto. Qed.

Hint Resolve stable_Constant__init__ : stable.

Lemma stable_asfunction (v : value) : stable n P (asfunction v).
Proof. unfold asfunction. stable_auto. Qed.

Hint Resolve stable_asfunction : stable.

Lemma stable_set_function (l : loc) (name : string) (v : value) :
  (n <= l)%nat -> stable n P (set_function (VRef l) name v).
Proof. intros. unfold set_function. stable_auto. Qed.

Hint Resolve stable_set_function : stable.

Lemma stable_init (c : class) (l : loc) (args : list value)
    (kw : list (string * value)) :
  (n <= l)%nat -> stable n P (init c (VRef l) args kw).
Proof. intros. unfold init. destruct c; stable_auto. Qed.

Hint Resolve stable_init : stable.

Lemma stable_new (c : class) (args : list value)
    (kw : list (string * value)) : stable n P (new c args kw).
Proof. unfold new. stable_auto. Qed.

End StableConstruction.

#[local] Hint Resolve stable_setattr stable_getattr stable_bind_args
  stable_py_dict stable_dict_keys stable_dict_values stable_py_map_asfunction
  stable_asfunction stable_new : stable.

Section StableOperators.

Context (n : nat) (P : event -> Prop).

Lemma stable_or (self other : value) :
  stable n P (OpFunction__or__ self other).
Proof. unfold OpFunction__or__. stable_auto. Qed.

Hint Resolve stable_or : stable.

Lemma stable_forward (op : binop) (self other : value) :
  stable n P (dispatch (forward op) self other).
Proof.
  destruct op; cbn;
    unfold OpFunction__add__, OpFunction__sub__, OpFunction__mul__,
      OpFunction__pow__, OpFunction__lt__, OpFunction__gt__,
      OpFunction__le__, OpFunction__ge__, OpFunction__eq__,
      OpFunction__ne__; stable_auto.
Qed.

Lemma stable_neg (self : value) : stable n P (OpFunction__neg__ self).
Proof. unfold OpFunction__neg__. stable_auto. Qed.

Hint Resolve stable_neg : stable.

Lemma stable_reflected (op : binop) (self other : value) :
  stable n P (dispatch (reflected op) self other).
Proof.
  destruct op; cbn;
    unfold OpFunction__radd__, OpFunction__rsub__, OpFunction__rmul__,
      OpFunction__rpow__, OpFunction__lt__, OpFunction__gt__,
      OpFunction__le__, OpFunction__ge__, OpFunction__eq__,
      OpFunction__ne__; stable_auto.
Qed.

Lemma stable_mk_float (z : Z) : stable n P (mk_float z).
Proof. unfold mk_float. stable_auto. Qed.

Hint Resolve stable_mk_float : stable.

Lemma stable_arith (float : bool) (u v r : Z) :
  stable n P (arith float u v r).
Proof. unfold arith. stable_auto. Qed.

Hint Resolve stable_arith : stable.

Lemma stable_prim_binop (op : binop) (x y : value) :
  stable n P (prim_binop op x y).
Proof.
  unfold prim_binop.
  destruct (as_num x); [destruct (as_num y)|].
  - destruct op; stable_auto.
  - destruct op, x, y; stable_auto.
  - destruct op, x, y; stable_auto.
Qed.

Hint Resolve stable_forward stable_reflected stable_prim_binop : stable.

Lemma stable_py_binop (op : binop) (x y : value) :
  stable n P (py_binop op x y).
Proof. unfold py_binop. stable_auto. Qed.

Lemma stable_py_neg (x : value) : stable n P (py_neg x).
Proof. unfold py_neg. stable_auto. Qed.

Lemma stable_truth (x : value) : stable n P (truth x).
Proof. unfold truth, OpFunction__bool__. stable_auto. Qed.

Hint Resolve stable_py_binop stable_py_neg stable_truth : stable.

Lemma stable_math_sqrt (x : value) : stable n P (math_sqrt x).
Proof. unfold math_sqrt. stable_auto. Qed.

Lemma stable_numpy_sqrt (x sa sk : value) : stable n P (numpy_sqrt x sa sk).
Proof. unfold numpy_sqrt. stable_auto. Qed.

Lemma stable_at_zero (r : Z) (x : value) : stable n P (at_zero r x).
Proof. unfold at_zero. stable_auto. Qed.

Hint Resolve stable_at_zero : stable.

Lemma stable_numpy_at_zero (r : Z) (x sa sk : value) :
  stable n P (numpy_at_zero r x sa sk).
Proof. unfold numpy_at_zero. stable_auto. Qed.

Lemma stable_numpy_logical_and (a b : value) :
  stable n P (numpy_logical_and a b).
Proof. unfold numpy_logical_and. stable_auto. Qed.

Lemma stable_numpy_logical_not (a : value) :
  stable n P (numpy_logical_not a).
Proof. unfold numpy_logical_not. stable_auto. Qed.

Lemma stable_numpy_clip (leaf low high : value) :
  stable n P (numpy_clip leaf low high).
Proof. unfold numpy_clip. stable_auto. Qed.

Lemma stable_py_sum (array : value) : stable n P (py_sum array).
Proof.
  assert (F : forall xs acc, stable n P acc ->
              stable n P (fold_left
                            (fun acc x => a <- acc ;; py_binop Add a x)
                            xs acc)).
  { induction xs as [|x xs IH]; intros acc Hacc; cbn; [exact Hacc|].
    apply IH. stable_auto. }
  unfold py_sum. destruct array; stable_auto; apply F; stable_auto.
Qed.

Lemma stable_seq_index (xs : list value) (i : Z) :
  stable n P (seq_index xs i).
Proof. unfold seq_index. stable_auto. Qed.

Hint Resolve stable_seq_index : stable.

Lemma stable_py_getitem (x : value) (args : list value)
    (kw : list (string * value)) : stable n P (py_getitem x args kw).
Proof. unfold py_getitem, OpFunction__getitem__. stable_auto. Qed.

Lemma stable_py_int (x : value) : stable n P (py_int x).
Proof. unfold py_int, OpFunction__int__. stable_auto. Qed.

Lemma stable_py_float (x : value) : stable n P (py_float x).
Proof. unfold py_float, OpFunction__float__. stable_auto. Qed.

Lemma stable_sum_method (self : value) (args : list value)
    (kw : list (string * value)) : stable n P (OpFunction_sum self args kw).
Proof. unfold OpFunction_sum. stable_auto. Qed.

Lemma stable_astype_method (self : value) (args : list value)
    (kw : list (string * value)) :
  stable n P (OpFunction_astype self args kw).
Proof. unfold OpFunction_astype. stable_auto. Qed.

End StableOperators.

#[local] Hint Resolve stable_or stable_py_binop stable_py_neg stable_truth
  stable_math_sqrt stable_numpy_sqrt stable_at_zero stable_numpy_at_zero
  stable_numpy_logical_and stable_numpy_logical_not stable_numpy_clip
  stable_py_sum stable_py_getitem stable_py_int stable_py_float
  stable_sum_method stable_astype_method : stable.

Lemma forwarded_single (args : list value) (kw : list (string * value))
    (r : value) (e : event) :
  forwarded [r] [] e -> forwarded args kw e.
Proof. intros [[H1 H2]|H]; right; eauto. Qed.

Lemma evolves_refl (n : nat) (P : event -> Prop) (s : state) {A} (a : A) :
  evolves n P s (Ok a s).
Proof. split; [apply grows_below_refl|]. exists []. by rewrite app_nil_r. Qed.

Lemma evolves_bind (n : nat) (P : event -> Prop) (s : state) {A B}
    (m : M A) (k : A -> M B) :
  evolves n P s (m s) ->
  (forall a s1, m s = Ok a s1 -> evolves n P s1 (k a s1)) ->
  evolves n P s (bind m k s).
Proof.
  intros Hm Hk. unfold bind. destruct (m s) as [a s1|e s1| |]; auto.
  specialize (Hk a s1 eq_refl). cbn in Hm.
  destruct Hm as (G1 & evs1 & T1 & F1).
  destruct (k a s1) as [b s2|e s2| |]; auto;
    destruct Hk as (G2 & evs2 & T2 & F2);
    (split; [eauto using grows_below_trans|]);
    exists (evs1 ++ evs2); rewrite T2, T1, app_assoc;
    (split; [reflexivity|by apply Forall_app]).
Qed.

Lemma stable_weaken (n : nat) (P Q : event -> Prop) {A} (m : M A) :
  (forall e, P e -> Q e) -> stable n P m -> stable n Q m.
Proof.
  intros PQ H s Hs. specialize (H s Hs). unfold evolves in *.
  destruct (m s); auto; destruct H as (G & evs & T & F);
    (split; [exact G|]); exists evs; (split; [exact T|]);
    eapply Forall_impl; eauto.
Qed.

Lemma iterator_at_grows (n : nat) (l : loc) (h h' : heap) :
  iterator_at n l h -> grows_below n h h' -> iterator_at n l h'.
Proof.
  intros [L I] [L' G]. split; [lia|].
  intros Hl. destruct (I Hl) as [p Hp].
  destruct (G l _ Hl Hp) as (o' & Ho' & [p' ->]). eauto.
Qed.

Lemma iterator_at_step (n : nat) (P : event -> Prop) (l : loc) (s s1 : state)
    {A} (m : M A) (a : A) :
  stable n P m -> iterator_at n l (st_heap s) -> m s = Ok a s1 ->
  iterator_at n l (st_heap s1).
Proof.
  intros Hm I E. pose proof (Hm s (proj1 I)) as H. rewrite E in H.
  destruct H as [G _]. eauto using iterator_at_grows.
Qed.

Section StableEvaluation.

Context (numpy_available : bool) (n : nat) (P : event -> Prop).

Lemma evolves_advance (rec : callee) (l : loc) (args : list value)
    (kw : list (string * value)) :
  (forall f, stable n P (rec f args kw)) ->
  forall pending s,
    iterator_at n l (st_heap s) ->
    evolves n P s (advance rec l args kw pending s).
Proof.
  intros Hrec. induction pending as [|x r IH]; intros s I; cbn [advance].
  - apply evolves_refl.
  - assert (G : grows_below n (st_heap s) (<[l:=MapIter r]> (st_heap s))).
    { destruct (le_lt_dec n l) as [Hl|Hl].
      - by apply grows_below_insert.
      - destruct (proj2 I Hl) as [p Hp]. by eapply grows_below_advance. }
    apply evolves_bind.
    { cbn. split; [exact G|]. exists []. by rewrite app_nil_r. }
    intros [] s1 E1.
    assert (I1 : iterator_at n l (st_heap s1)).
    { injection E1 as <-. exact (iterator_at_grows _ _ _ _ I G). }
    apply evolves_bind; [apply stable_asfunction, I1|].
    intros element s2 E2.
    assert (I2 := iterator_at_step n P _ _ _ _ _
                    (stable_asfunction n P x) I1 E2).
    apply evolves_bind; [apply Hrec, I2|].
    intros v s3 E3.
    assert (I3 := iterator_at_step n P _ _ _ _ _ (Hrec element) I2 E3).
    apply evolves_bind; [by apply IH|].
    intros vs s4 _. apply evolves_refl.
Qed.

Lemma stable_call_each (rec : callee) (it : value) (args : list value)
    (kw : list (string * value)) :
  (forall f, stable n P (rec f args kw)) ->
  stable n P (call_each rec it args kw).
Proof.
  intros Hrec. unfold call_each. destruct it; try solve [stable_auto].
  intros s Hs. unfold bind, load.
  destruct (st_heap s !! l) as [[c attrs|items]|] eqn:E; cbn; auto.
  apply evolves_advance; [exact Hrec|]. split; eauto.
Qed.

End StableEvaluation.

Lemma stable_log (n : nat) (P : event -> Prop) (e : event) :
  P e -> stable n P (log e).
Proof.
  intros He s _. cbn. split; [apply grows_below_refl|].
  exists [e]. split; [reflexivity|]. by constructor.
Qed.

Section StableCall.

Context (numpy_available : bool) (n : nat).

Lemma stable_call_method (rec : callee) (c : class) (self : value)
    (args : list value) (kw : list (string * value)) :
  (forall f a k, stable n (forwarded a k) (rec f a k)) ->
  stable n (forwarded args kw)
         (call_method numpy_available rec c self args kw).
Proof.
  intros Hrec.
  assert (Hb : forall f r, stable n (forwarded args kw) (rec f [r] [])).
  { intros f r. eapply stable_weaken; [apply forwarded_single|apply Hrec]. }
  assert (He : forall it,
             stable n (forwarded args kw) (call_each rec it args kw)).
  { intros it. apply stable_call_each. intros f. apply Hrec. }
  destruct c; cbn [call_method];
    unfold binary, operand, elementary, call_attr; stable_auto.
Qed.

Lemma stable_call (fuel : nat) :
  forall f args kw,
    stable n (forwarded args kw) (call numpy_available fuel f args kw).
Proof.
  induction fuel as [|fuel IH]; intros f args kw; cbn [call].
  - intros s _. exact I.
  - destruct f; stable_auto.
    + apply stable_log. by left.
    + by apply stable_call_method.
Qed.

End StableCall.

(** An instance is never changed by an evaluation that returns: it keeps its
    class and every attribute. *)
Lemma call_keeps_instance (numpy_available : bool) (fuel : nat) (f : value)
    (args : list value) (kw : list (string * value)) (s s' : state)
    (v : value) (l : loc) (c : class) (attrs : list (string * value)) :
  call numpy_available fuel f args kw s = Ok v s' ->
  st_heap s !! l = Some (Inst c attrs) ->
  st_heap s' !! l = Some (Inst c attrs).
Proof.
  intros E H.
  pose proof (stable_call numpy_available (List.length (st_heap s)) fuel
                f args kw s (le_n _)) as St.
  rewrite E in St. destruct St as [[_ G] _].
  destruct (G l _ (lookup_lt_Some _ _ _ H) H) as (o' & Ho' & Hp).
  cbn in Hp. by subst.
Qed.

Lemma call_keeps_isinstance (numpy_available : bool) (fuel : nat) (f : value)
    (args : list value) (kw : list (string * value)) (s s' : state)
    (v x : value) (d : class) :
  call numpy_available fuel f args kw s = Ok v s' ->
  isinstance (st_heap s) x d = true -> isinstance (st_heap s') x d = true.
Proof.
  intros E. unfold isinstance, instance_class. destruct x; try discriminate.
  destruct (st_heap s !! l) as [[c attrs|p]|] eqn:H; try discriminate.
  by rewrite (call_keeps_instance _ _ _ _ _ _ _ _ _ _ _ E H).
Qed.

(** ** Argument forwarding *)

Lemma bind_cong {A B} (m m' : M A) (k k' : A -> M B) (s : state) :
  (forall s, m s = m' s) -> (forall a s, k a s = k' a s) ->
  bind m k s = bind m' k' s.
Proof.
  intros Hm Hk. unfold bind. rewrite Hm.
  destruct (m' s); auto.
Qed.

Ltac forward_step :=
  lazymatch goal with
  | |- ?x = ?x => reflexivity
  | |- bind _ _ _ = bind _ _ _ => apply bind_cong; intros
  | |- (match ?x with _ => _ end) _ = (match ?x with _ => _ end) _ =>
      destruct x
  | |- _ => solve [auto]
  end.

Section Forwarding.

Context (numpy_available : bool) (rec rec' : callee) (args : list value)
  (kw : list (string * value)).
Hypothesis agree : forall f s, rec f args kw s = rec' f args kw s.

Lemma advance_forwards (l : loc) (pending : list value) (s : state) :
  advance rec l args kw pending s = advance rec' l args kw pending s.
Proof.
  revert s. induction pending as [|x r IH]; intros s; cbn [advance];
    repeat forward_step.
Qed.

Lemma call_each_forwards (it : value) (s : state) :
  call_each rec it args kw s = call_each rec' it args kw s.
Proof.
  unfold call_each. destruct it; try reflexivity.
  apply bind_cong; [reflexivity|]. intros [c attrs|pending] s'.
  - reflexivity.
  - apply advance_forwards.
Qed.

Lemma call_attr_forwards (self : value) (name : string) (s : state) :
  call_attr rec self name args kw s = call_attr rec' self name args kw s.
Proof. unfold call_attr. repeat forward_step. Qed.

Lemma call_method_forwards (c : class) (self : value) (s : state) :
  c <> ComposedFunction ->
  call_method numpy_available rec c self args kw s
  = call_method numpy_available rec' c self args kw s.
Proof.
  pose proof call_attr_forwards as Ha.
  pose proof call_each_forwards as He.
  intros Hc. destruct c; try contradiction; cbn [call_method];
    unfold binary; repeat forward_step.
Qed.

End Forwarding.

(** ** Construction of nodes *)

Lemma isinstance_insert (h : heap) (l : loc) (c : class)
    (attrs attrs' : list (string * value)) (x : value) (d : class) :
  h !! l = Some (Inst c attrs) ->
  isinstance (<[l:=Inst c attrs']> h) x d = isinstance h x d.
Proof.
  intros H. unfold isinstance, instance_class. destruct x; try reflexivity.
  destruct (decide (l0 = l)) as [->|Hne].
  - rewrite list_lookup_insert_eq by (by eapply lookup_lt_Some). by rewrite H.
  - by rewrite list_lookup_insert_ne.
Qed.

Lemma set_function_node (h : heap) (t : list event) (l : loc) (c : class)
    (attrs : list (string * value)) (name : string) (f : value) :
  h !! l = Some (Inst c attrs) -> isinstance h f Function = true ->
  set_function (VRef l) name f (State h t)
  = Ok tt (State (<[l:=Inst c (set_key name f attrs)]> h) t).
Proof.
  intros H F. unfold set_function, bind.
  rewrite asfunction_function by exact F.
  by apply setattr_eq.
Qed.

Lemma set_function_plain (h : heap) (t : list event) (l : loc) (c : class)
    (attrs : list (string * value)) (name : string) (v : value) :
  h !! l = Some (Inst c attrs) -> isinstance h v Function = false ->
  set_function (VRef l) name v (State h t)
  = Ok tt (State (<[l:=Inst c (set_key name (VRef (List.length h)) attrs)]>
                    (h ++ [Inst Constant [("value", v)]])) t).
Proof.
  intros H F. unfold set_function, bind.
  rewrite asfunction_constant by exact F. cbn [st_heap st_trace].
  apply setattr_eq. by apply lookup_old.
Qed.

Lemma or_nodes (s : state) (a b : value) :
  isinstance (st_heap s) a Function = true ->
  isinstance (st_heap s) b Function = true ->
  OpFunction__or__ a b s
  = Ok (VRef (List.length (st_heap s)))
       (State (st_heap s ++ [Inst ComposedFunction [("a", a); ("b", b)]])
              (st_trace s)).
Proof.
  destruct s as [h t]. cbn [st_heap st_trace]. intros Ha Hb.
  unfold OpFunction__or__, new, bind at 1. rewrite alloc_eq.
  unfold bind at 1, init, bind at 1. cbn -[set_function].
  unfold bind at 1.
  rewrite (set_function_node _ _ _ ComposedFunction [])
    by (apply lookup_fresh || by apply isinstance_old).
  rewrite insert_fresh. cbn [set_key].
  rewrite (set_function_node _ _ _ ComposedFunction [("a", a)])
    by (apply lookup_fresh || by apply isinstance_old).
  by rewrite insert_fresh.
Qed.

Lemma isinstance_app_false (h rest : heap) (v : value) (d : class) :
  bound h v -> isinstance h v d = false ->
  isinstance (h ++ rest) v d = false.
Proof.
  unfold isinstance, instance_class. destruct v; try reflexivity.
  cbn. intros Hl. by rewrite lookup_app_l.
Qed.

Lemma or_plain (s : state) (f v : value) :
  isinstance (st_heap s) f Function = true ->
  isinstance (st_heap s) v Function = false -> bound (st_heap s) v ->
  OpFunction__or__ f v s
  = Ok (VRef (List.length (st_heap s)))
       (State (st_heap s
               ++ [Inst ComposedFunction
                        [("a", f); ("b", VRef (S (List.length (st_heap s))))];
                   Inst Constant [("value", v)]])
              (st_trace s)).
Proof.
  destruct s as [h t]. cbn [st_heap st_trace]. intros Hf Hv Bv.
  unfold OpFunction__or__, new, bind at 1. rewrite alloc_eq.
  unfold bind at 1, init, bind at 1. cbn -[set_function].
  unfold bind at 1.
  rewrite (set_function_node _ _ _ ComposedFunction [])
    by (apply lookup_fresh || by apply isinstance_old).
  rewrite insert_fresh. cbn [set_key].
  rewrite (set_function_plain _ _ _ ComposedFunction [("a", f)])
    by (apply lookup_fresh || by apply isinstance_app_false).
  cbn [set_key String.eqb Ascii.eqb Bool.eqb].
  rewrite length_app. cbn [List.length].
  replace (List.length h + 1)%nat with (S (List.length h)) by lia.
  rewrite <- app_assoc. cbn [app]. by rewrite insert_fresh.
Qed.

(** ** Composition *)

Lemma getattr_state (s : state) (l : loc) (c : class)
    (attrs : list (string * value)) (name : string) (v : value) :
  st_heap s !! l = Some (Inst c attrs) -> assoc name attrs = Some v ->
  getattr (VRef l) name s = Ok v s.
Proof. destruct s. apply getattr_eq. Qed.

Lemma call_enter (numpy_available : bool) (n : nat) (l : loc) (c : class)
    (attrs : list (string * value)) (args : list value)
    (kw : list (string * value)) (s : state) :
  st_heap s !! l = Some (Inst c attrs) ->
  call numpy_available (S n) (VRef l) args kw s
  = (log (Event l args kw) ;;;
     call_method numpy_available (call numpy_available n) c (VRef l) args kw)
      s.
Proof. intros H. cbn [call]. unfold bind at 1, load. by rewrite H. Qed.

Lemma call_composed (numpy_available : bool) (n : nat) (l : loc)
    (attrs : list (string * value)) (a b : value) (args : list value)
    (kw : list (string * value)) (s : state) :
  st_heap s !! l = Some (Inst ComposedFunction attrs) ->
  assoc "a" attrs = Some a -> assoc "b" attrs = Some b ->
  call numpy_available (S n) (VRef l) args kw s
  = (log (Event l args kw) ;;;
     r <- call numpy_available n a args kw ;;
     call numpy_available n b [r] []) s.
Proof.
  intros H Ha Hb. rewrite (call_enter _ _ _ _ _ _ _ _ H).
  cbn [call_method]. unfold call_attr, bind, log.
  set (s1 := State (st_heap s) (st_trace s ++ [Event l args kw])).
  rewrite (getattr_state s1 l _ _ "a" a H Ha).
  destruct (call numpy_available n a args kw s1) as [r s2|e s2| |] eqn:E;
    try reflexivity.
  assert (H2 := call_keeps_instance _ _ _ _ _ _ _ _ _ _ _ E H).
  by rewrite (getattr_state s2 l _ _ "b" b H2 Hb).
Qed.

Lemma isinstance_OpFunction_Function (h : heap) (x : value) :
  isinstance h x OpFunction = true -> isinstance h x Function = true.
Proof.
  unfold isinstance. destruct (instance_class h x) as [c|]; [|discriminate].
  by destruct c.
Qed.

Lemma py_or_node (s : state) (a b : value) :
  isinstance (st_heap s) a OpFunction = true ->
  py_or a b s = OpFunction__or__ a b s.
Proof. intros H. unfold py_or, bind, get_heap. by rewrite H. Qed.

(** ** Operands receive the arguments of the invocation *)

Section Reaching.

Context (numpy_available : bool) (h0 : heap) (e : event).

Lemma stable_quiet {A} (P : event -> Prop) (m : M A) :
  stable (List.length h0) P m -> quiet h0 m.
Proof.
  intros St s a s' [L K] E. specialize (St s L). rewrite E in St.
  destruct St as [[L' G] (evs & T & _)].
  split; [split; [lia|]|by exists evs].
  intros l c attrs H.
  destruct (G l _ (lookup_lt_Some _ _ _ H) (K l c attrs H))
    as (o' & Ho' & Hp).
  cbn in Hp. by subst.
Qed.

Lemma records_bind_l {A B} (m : M A) (k : A -> M B) :
  records h0 e m -> (forall a, quiet h0 (k a)) -> records h0 e (bind m k).
Proof.
  intros Hm Hk s b s' K E. unfold bind in E.
  destruct (m s) as [a s1|x s1| |] eqn:Em; try discriminate E.
  destruct (Hm s a s1 K Em) as (K1 & evs1 & T1 & I1).
  destruct (Hk a s1 b s' K1 E) as (K2 & evs2 & T2).
  split; [exact K2|].
  exists (evs1 ++ evs2). rewrite T2, T1, app_assoc. split; [reflexivity|].
  apply in_or_app. by left.
Qed.

Lemma records_bind_r {A B} (m : M A) (k : A -> M B) :
  quiet h0 m -> (forall a, records h0 e (k a)) -> records h0 e (bind m k).
Proof.
  intros Hm Hk s b s' K E. unfold bind in E.
  destruct (m s) as [a s1|x s1| |] eqn:Em; try discriminate E.
  destruct (Hm s a s1 K Em) as (K1 & evs1 & T1).
  destruct (Hk a s1 b s' K1 E) as (K2 & evs2 & T2 & I2).
  split; [exact K2|].
  exists (evs1 ++ evs2). rewrite T2, T1, app_assoc. split; [reflexivity|].
  apply in_or_app. by right.
Qed.

Lemma call_attr_records (rec : callee) (l : loc) (c : class)
    (attrs : list (string * value)) (name : string) (f : value)
    (args : list value) (kw : list (string * value)) :
  h0 !! l = Some (Inst c attrs) -> assoc name attrs = Some f ->
  records h0 e (rec f args kw) ->
  records h0 e (call_attr rec (VRef l) name args kw).
Proof.
  intros H Ha Hrec s a s' K E. unfold call_attr, bind in E.
  rewrite (getattr_state s l c attrs name f (proj2 K l c attrs H) Ha) in E.
  exact (Hrec s a s' K E).
Qed.

End Reaching.

Ltac records_step Hattr :=
  first
    [ exact Hattr
    | apply records_bind_l;
      [exact Hattr
      |intros; apply stable_quiet with (P := fun _ => True); stable_auto]
    | apply records_bind_r;
      [apply stable_quiet with (P := fun _ => True); stable_auto
      |intros; records_step Hattr] ].

Lemma call_method_records (numpy_available : bool) (h0 : heap) (e : event)
    (fuel : nat) (l : loc) (c : class) (attrs : list (string * value))
    (name : string) (k : loc) (args : list value)
    (kw : list (string * value)) :
  h0 !! l = Some (Inst c attrs) ->
  In name (operand_names c) -> assoc name attrs = Some (VRef k) ->
  records h0 e (call numpy_available fuel (VRef k) args kw) ->
  records h0 e
    (call_method numpy_available (call numpy_available fuel) c (VRef l)
                 args kw).
Proof.
  intros H Hin Ha Hk.
  assert (Hrec : forall f a kw0,
             stable (List.length h0) (fun _ => True)
                    (call numpy_available fuel f a kw0)).
  { intros f a kw0. eapply stable_weaken; [|apply stable_call]. auto. }
  pose proof (call_attr_records h0 e (call numpy_available fuel) l c attrs
                name (VRef k) args kw H Ha Hk) as Hattr.
  assert (Hca : forall name' a kw0,
             stable (List.length h0) (fun _ => True)
                    (call_attr (call numpy_available fuel) (VRef l) name'
                               a kw0)).
  { intros name' a kw0. unfold call_attr. stable_auto. }
  destruct c; cbn in Hin; try contradiction;
    repeat (destruct Hin as [<-|Hin]; [|try contradiction]);
    cbn [call_method]; unfold binary; records_step Hattr.
Qed.

Lemma call_records (numpy_available : bool) (h0 : heap) (m : loc)
    (args : list value) (kw : list (string * value)) (fuel : nat) :
  forall d l,
    reaches d h0 l m = true ->
    records h0 (Event m args kw)
            (call numpy_available fuel (VRef l) args kw).
Proof.
  induction fuel as [|fuel IH]; intros d l R s r s' K E; [discriminate E|].
  cbn [call] in E. unfold bind at 1, load in E.
  destruct (st_heap s !! l) as [[c attrs|p]|] eqn:Hl; try discriminate E.
  unfold bind at 1, log in E.
  set (s0 := State (st_heap s) (st_trace s ++ [Event l args kw])) in E.
  assert (K0 : kept h0 s0) by exact K.
  assert (St : stable (List.length h0) (forwarded args kw)
                      (call_method numpy_available
                                   (call numpy_available fuel) c (VRef l)
                                   args kw)).
  { apply stable_call_method. intros f a k. apply stable_call. }
  assert (R' : Nat.eqb l m = true \/
               exists d', d = S d' /\
                 match h0 !! l with
                 | Some (Inst c attrs) =>
                     existsb (fun name => match assoc name attrs with
                                          | Some (VRef k) =>
                                              reaches d' h0 k m
                                          | _ => false
                                          end) (operand_names c)
                 | _ => false
                 end = true).
  { destruct d as [|d']; cbn [reaches] in R; apply orb_prop in R as [R|R];
      try (by left); try discriminate R. right. by exists d'. }
  destruct R' as [R'|(d' & -> & R')].
  - apply Nat.eqb_eq in R' as <-.
    destruct (stable_quiet h0 _ _ St s0 r s' K0 E) as (K1 & evs & T).
    split; [exact K1|]. exists (Event l args kw :: evs).
    split; [|by left]. rewrite T. cbn [s0 st_trace].
    by rewrite <- app_assoc.
  - destruct (h0 !! l) as [[c' attrs'|p]|] eqn:H0; try discriminate R'.
    pose proof (proj2 K l c' attrs' H0) as Hl'. rewrite Hl in Hl'.
    injection Hl' as <- <-.
    apply existsb_exists in R' as (name & Hin & Hn).
    destruct (assoc name attrs) as [f|] eqn:Ha; [|discriminate Hn].
    destruct f; try discriminate Hn.
    destruct (call_method_records numpy_available h0 (Event m args kw) fuel
                l c attrs name l0 args kw H0 Hin Ha (IH d' l0 Hn)
                s0 r s' K0 E) as (K1 & evs & T & I).
    split; [exact K1|]. exists (Event l args kw :: evs).
    split; [|by right]. rewrite T. cbn [s0 st_trace].
    by rewrite <- app_assoc.
Qed.




(** C5, as amended: the pipe applies the right-hand node to the output of
    the left-hand node, for a left-hand side that carries the operator.  For
    an [OpFunction] instance [a] and a node [b], [a | b] is a new node whose
    invocation with any arguments enters the node, evaluates [a] with these
    arguments and then [b] with the output of [a] as its only argument; a
    failure of either propagates.  [OpConstant(4) | Sqrt()], invoked without
    arguments, returns the float [2.0], which equals [2], with and without
    the numeric backend. *)
Theorem pipe_composes :
  (forall numpy_available s a b,
      isinstance (st_heap s) a OpFunction = true ->
      isinstance (st_heap s) b Function = true ->
      exists l s1,
        py_or a b s = Ok (VRef l) s1 /\
        forall n args kw,
          call numpy_available (S n) (VRef l) args kw s1
          = (log (Event l args kw) ;;;
             r <- call numpy_available n a args kw ;;
             call numpy_available n b [r] []) s1) /\
  (forall numpy_available,
      exists s',
        (a <- new OpConstant [VInt 4] [] ;;
         b <- new Sqrt [] [] ;;
         c <- py_or a b ;;
         call numpy_available 2 c [] []) empty_state = Ok (VFloat 2) s') /\
  value_eq (VFloat 2) (VInt 2) = true.
Proof.
  split; [|split; [intros []; by eexists|reflexivity]].
  intros np s a b Ha Hb.
  rewrite (py_or_node s a b Ha).
  rewrite or_nodes by (exact Hb || by apply isinstance_OpFunction_Function).
  eexists _, _. split; [reflexivity|]. intros n args kw.
  eapply call_composed; [apply lookup_fresh|reflexivity|reflexivity].
Qed.

Lemma pipe_composes_witness :
  let s := State [Inst OpConstant [("value", VInt 4)];
                  Inst Sqrt [("args", VTuple []); ("kwargs", VDict [])]] [] in
  exists l s1,
    py_or (VRef 0) (VRef 1) s = Ok (VRef l) s1 /\
    forall n args kw,
      call false (S n) (VRef l) args kw s1
      = (log (Event l args kw) ;;;
         r <- call false n (VRef 0) args kw ;;
         call false n (VRef 1) [r] []) s1.
Proof.
  apply (proj1 pipe_composes false
           (State [Inst OpConstant [("value", VInt 4)];
                   Inst Sqrt [("args", VTuple []); ("kwargs", VDict [])]] [])
           (VRef 0) (VRef 1)); reflexivity.
Defined.

(** C5, as stated, fails on its own example.  The operator is a method of
    [OpFunction]: the [Constant] of [function.py] has no [__or__], and
    [Constant(4) | Sqrt()] raises [TypeError] before anything is composed or
    evaluated, after the two operands have been built. *)
Lemma pipe_composes_counterexample :
  (a <- new Constant [VInt 4] [] ;;
   b <- new Sqrt [] [] ;;
   py_or a b) empty_state
  = Raise TypeError
      (State [Inst Constant [("value", VInt 4)];
              Inst Sqrt [("args", VTuple []); ("kwargs", VDict [])]] []).
Proof. reflexivity. Qed.

(** Built with the constructor instead of the operator, the composition of
    the plain [Constant] evaluates as the pipe would. *)
Example constructed_composition (numpy_available : bool) :
  exists s',
    (a <- new Constant [VInt 4] [] ;;
     b <- new Sqrt [] [] ;;
     c <- new ComposedFunction [a; b] [] ;;
     call numpy_available 2 c [] []) empty_state = Ok (VFloat 2) s'.
Proof. destruct numpy_available; by eexists. Qed.

Lemma call_constant (numpy_available : bool) (n : nat) (l : loc) (c : class)
    (attrs : list (string * value)) (v : value) (args : list value)
    (kw : list (string * value)) (s : state) :
  st_heap s !! l = Some (Inst c attrs) ->
  c = Constant \/ c = OpConstant ->
  assoc "value" attrs = Some v ->
  call numpy_available (S n) (VRef l) args kw s
  = Ok v (State (st_heap s) (st_trace s ++ [Event l args kw])).
Proof.
  intros H Hc Hv. rewrite (call_enter _ _ _ _ _ _ _ _ H).
  unfold bind, log.
  destruct Hc as [-> | ->]; cbn [call_method];
    by rewrite (getattr_state
                  (State (st_heap s) (st_trace s ++ [Event l args kw]))
                  l _ _ "value" v H Hv).
Qed.

Lemma pipe_into_value (numpy_available : bool) (s : state) (f v : value) :
  isinstance (st_heap s) f OpFunction = true ->
  isinstance (st_heap s) v Function = false -> bound (st_heap s) v ->
  let l := List.length (st_heap s) in
  let s1 := State (st_heap s
                   ++ [Inst ComposedFunction [("a", f); ("b", VRef (S l))];
                       Inst Constant [("value", v)]])
                  (st_trace s) in
  py_or f v s = Ok (VRef l) s1 /\
  forall n args kw,
    call numpy_available (S n) (VRef l) args kw s1
    = (r <- call numpy_available n f args kw ;;
       call numpy_available n (VRef (S l)) [r] [])
        (State (st_heap s1) (st_trace s1 ++ [Event l args kw])).
Proof.
  intros Hf Nv Bv l s1. split.
  - rewrite (py_or_node s f v Hf).
    by rewrite or_plain
      by (assumption || by apply isinstance_OpFunction_Function).
  - intros n args kw.
    assert (Hc : st_heap s1 !! l
                 = Some (Inst ComposedFunction
                           [("a", f); ("b", VRef (S l))]))
      by apply lookup_fresh.
    by rewrite (call_composed numpy_available n l _ f (VRef (S l)) args kw
                  s1 Hc eq_refl eq_refl).
Qed.

(** C10, as amended: piping an [OpFunction] instance [f] into a value [v]
    that is not a node gives a constant result whenever [f] returns.  The
    composition converts [v] to a [Constant], one new object beside the
    composition.  Whenever the evaluation of [f] with the arguments returns,
    the pipe returns [v] itself, whatever [f] returned; when that evaluation
    raises, the pipe raises the same exception, since [f] is still evaluated
    first.  For a constant [f] the pipe returns [v] for all arguments, with
    the backend and without it. *)
Theorem pipe_into_plain_value (s : state) (f v : value) :
  isinstance (st_heap s) f OpFunction = true ->
  isinstance (st_heap s) v Function = false -> bound (st_heap s) v ->
  let l := List.length (st_heap s) in
  let s1 := State (st_heap s
                   ++ [Inst ComposedFunction [("a", f); ("b", VRef (S l))];
                       Inst Constant [("value", v)]])
                  (st_trace s) in
  py_or f v s = Ok (VRef l) s1 /\
  (forall numpy_available n args kw,
      let entered := State (st_heap s1) (st_trace s1 ++ [Event l args kw]) in
      (forall r s2,
          call numpy_available n f args kw entered = Ok r s2 ->
          call numpy_available (S n) (VRef l) args kw s1
          = Ok v (State (st_heap s2)
                        (st_trace s2 ++ [Event (S l) [r] []]))) /\
      (forall e s2,
          call numpy_available n f args kw entered = Raise e s2 ->
          call numpy_available (S n) (VRef l) args kw s1 = Raise e s2)) /\
  (forall numpy_available x args kw,
      constant_at (st_heap s) f x ->
      exists s3, call numpy_available 2 (VRef l) args kw s1 = Ok v s3).
Proof.
  intros Hf Nv Bv l s1.
  assert (P : forall np, _) by
    (intros np; exact (pipe_into_value np s f v Hf Nv Bv)).
  cbn zeta in P. fold l s1 in P.
  split; [exact (proj1 (P false))|].
  assert (Hb : st_heap s1 !! S l = Some (Inst Constant [("value", v)]))
    by apply lookup_fresh_next.
  assert (Cond : forall np n args kw r s2,
             call np n f args kw
                  (State (st_heap s1) (st_trace s1 ++ [Event l args kw]))
             = Ok r s2 ->
             call np (S n) (VRef l) args kw s1
             = Ok v (State (st_heap s2)
                           (st_trace s2 ++ [Event (S l) [r] []]))).
  { intros np n args kw r s2 E.
    rewrite (proj2 (P np) n args kw). unfold bind. rewrite E.
    destruct n as [|n]; [discriminate E|].
    pose proof (call_keeps_instance _ _ _ _ _ _ _ _ _ _ _ E Hb) as Hb2.
    exact (call_constant np n (S l) Constant _ v [r] [] s2
             Hb2 (or_introl eq_refl) eq_refl). }
  split.
  - intros np n args kw entered. split.
    + intros r s2 E. by apply Cond.
    + intros e s2 E. rewrite (proj2 (P np) n args kw). unfold bind.
      fold entered. by rewrite E.
  - intros np x args kw (k & cls & attrs & -> & H & Hcls & Hx).
    assert (H1 : st_heap s1 !! k = Some (Inst cls attrs))
      by (by apply lookup_old).
    eexists.
    exact (Cond np 1%nat args kw x _
             (call_constant np 0 k cls attrs x args kw
                (State (st_heap s1) (st_trace s1 ++ [Event l args kw]))
                H1 Hcls Hx)).
Qed.

Lemma pipe_into_plain_value_witness :
  let s1 := State [Inst OpIdentity [];
                   Inst ComposedFunction [("a", VRef 0); ("b", VRef 2)];
                   Inst Constant [("value", VInt 5)]] [] in
  py_or (VRef 0) (VInt 5) (State [Inst OpIdentity []] [])
  = Ok (VRef 1) s1 /\
  call false 2 (VRef 1) [VInt 7] [] s1
  = Ok (VInt 5)
       (State (st_heap s1)
              [Event 1 [VInt 7] []; Event 0 [VInt 7] [];
               Event 2 [VInt 7] []]).
Proof.
  intros s1.
  destruct (pipe_into_plain_value (State [Inst OpIdentity []] []) (VRef 0)
              (VInt 5) eq_refl eq_refl I) as (E & G & _).
  split; [exact E|].
  exact (proj1 (G false 1%nat [VInt 7] []) (VInt 7)
           (State (st_heap s1) [Event 1 [VInt 7] []; Event 0 [VInt 7] []])
           eq_refl).
Defined.

(** C10, as stated, fails when the left-hand side does not return.  The
    left-hand side is evaluated although its output is dropped:
    [OpIdentity() | 5] invoked with a keyword argument never returns [5];
    it raises [TypeError], since [Identity.__call__] takes positional
    arguments only. *)
Lemma pipe_into_plain_value_counterexample :
  exists c s1,
    py_or (VRef 0) (VInt 5) (State [Inst OpIdentity []] []) = Ok c s1 /\
    (forall numpy_available fuel r s',
        call numpy_available fuel c [] [("x", VInt 1)] s1 <> Ok r s') /\
    (forall numpy_available fuel,
        exists s',
          call numpy_available (S (S fuel)) c [] [("x", VInt 1)] s1
          = Raise TypeError s').
Proof.
  eexists _, _. split; [reflexivity|]. split.
  - intros np [|[|fuel]] r s'; discriminate.
  - intros np fuel. by eexists.
Qed.

(** ** Comparison of numbers *)

Lemma number_not_instance (h : heap) (x : value) (a : num) (d : class) :
  as_num x = Some a -> isinstance h x d = false.
Proof. by destruct x. Qed.

Lemma py_binop_numbers (op : binop) (x y : value) (a b : num) (s : state) :
  as_num x = Some a -> as_num y = Some b ->
  py_binop op x y s = prim_binop op x y s.
Proof.
  intros Hx Hy. unfold py_binop, bind, get_heap.
  by rewrite (number_not_instance _ x a _ Hx),
             (number_not_instance _ y b _ Hy).
Qed.

Lemma lt_numbers (x y : value) (a b : num) (s : state) :
  as_num x = Some a -> as_num y = Some b ->
  py_binop Lt x y s = Ok (VBool (num_val a <? num_val b)) s.
Proof.
  intros Hx Hy. rewrite (py_binop_numbers Lt x y a b s Hx Hy).
  unfold prim_binop. by rewrite Hx, Hy.
Qed.

Lemma le_numbers (x y : value) (a b : num) (s : state) :
  as_num x = Some a -> as_num y = Some b ->
  py_binop Le x y s = Ok (VBool (num_val a <=? num_val b)) s.
Proof.
  intros Hx Hy. rewrite (py_binop_numbers Le x y a b s Hx Hy).
  unfold prim_binop. by rewrite Hx, Hy.
Qed.

Lemma truth_bool (b : bool) (s : state) : truth (VBool b) s = Ok b s.
Proof. reflexivity. Qed.

(** ** Clip *)

Lemma clip_fallback (n : nat) (l : loc) (attrs : list (string * value))
    (fl fh fx lo hi x : value) (a b c : num) (args : list value)
    (kw : list (string * value)) (s s1 s2 s3 : state) :
  st_heap s !! l = Some (Inst Clip attrs) ->
  assoc "low" attrs = Some fl -> assoc "high" attrs = Some fh ->
  assoc "leaf" attrs = Some fx ->
  call false n fl args kw
       (State (st_heap s) (st_trace s ++ [Event l args kw])) = Ok lo s1 ->
  call false n fh args kw s1 = Ok hi s2 ->
  call false n fx args kw s2 = Ok x s3 ->
  as_num lo = Some a -> as_num hi = Some b -> as_num x = Some c ->
  call false (S n) (VRef l) args kw s
  = Ok (if num_val c <? num_val a then lo
        else if num_val c <? num_val b then x else hi) s3.
Proof.
  intros H Hl Hh Hx E1 E2 E3 Na Nb Nc.
  rewrite (call_enter _ _ _ _ _ _ _ _ H).
  cbn [call_method]. unfold call_attr, bind, log.
  rewrite (getattr_state
             (State (st_heap s) (st_trace s ++ [Event l args kw]))
             l _ _ "low" fl H Hl), E1.
  assert (H1 := call_keeps_instance _ _ _ _ _ _ _ _ _ _ _ E1 H).
  rewrite (getattr_state s1 l _ _ "high" fh H1 Hh), E2.
  assert (H2 := call_keeps_instance _ _ _ _ _ _ _ _ _ _ _ E2 H1).
  rewrite (getattr_state s2 l _ _ "leaf" fx H2 Hx), E3.
  rewrite (lt_numbers x lo c a s3 Nc Na), truth_bool.
  destruct (num_val c <? num_val a); [reflexivity|].
  rewrite (lt_numbers x hi c b s3 Nc Nb), truth_bool.
  by destruct (num_val c <? num_val b).
Qed.

(** ** InBetween *)

Lemma inbetween_numbers (numpy_available : bool) (n : nat) (l : loc)
    (attrs : list (string * value)) (fv fl fh lo hi v : value) (a b c : num)
    (args : list value) (kw : list (string * value)) (s s1 s2 s3 : state) :
  st_heap s !! l = Some (Inst InBetween attrs) ->
  assoc "value" attrs = Some fv -> assoc "low" attrs = Some fl ->
  assoc "high" attrs = Some fh ->
  call numpy_available n fl args kw
       (State (st_heap s) (st_trace s ++ [Event l args kw])) = Ok lo s1 ->
  call numpy_available n fh args kw s1 = Ok hi s2 ->
  call numpy_available n fv args kw s2 = Ok v s3 ->
  as_num lo = Some a -> as_num hi = Some b -> as_num v = Some c ->
  call numpy_available (S n) (VRef l) args kw s
  = Ok (VBool ((num_val a <=? num_val c) && (num_val c <? num_val b))) s3.
Proof.
  intros H Hv Hl Hh E1 E2 E3 Na Nb Nc.
  rewrite (call_enter _ _ _ _ _ _ _ _ H).
  cbn [call_method]. unfold call_attr, bind, log.
  rewrite (getattr_state
             (State (st_heap s) (st_trace s ++ [Event l args kw]))
             l _ _ "low" fl H Hl), E1.
  assert (H1 := call_keeps_instance _ _ _ _ _ _ _ _ _ _ _ E1 H).
  rewrite (getattr_state s1 l _ _ "high" fh H1 Hh), E2.
  assert (H2 := call_keeps_instance _ _ _ _ _ _ _ _ _ _ _ E2 H1).
  rewrite (getattr_state s2 l _ _ "value" fv H2 Hv), E3.
  destruct numpy_available.
  - rewrite (le_numbers lo v a c s3 Na Nc), (lt_numbers v hi c b s3 Nc Nb).
    cbn. by destruct (num_val a <=? num_val c), (num_val c <? num_val b).
  - rewrite (le_numbers lo v a c s3 Na Nc), truth_bool.
    destruct (num_val a <=? num_val c); [|reflexivity].
    by rewrite (lt_numbers v hi c b s3 Nc Nb).
Qed.

(** ** Structural lifting *)

Lemma constant_at_old (h ext : heap) (c v : value) :
  constant_at h c v -> constant_at (h ++ ext) c v.
Proof.
  intros (k & cls & attrs & -> & H & Hc & Hv).
  exists k, cls, attrs. eauto using lookup_old.
Qed.

Lemma constant_at_isinstance (h : heap) (c v : value) :
  constant_at h c v -> isinstance h c Function = true.
Proof.
  intros (k & cls & attrs & -> & H & Hc & Hv).
  unfold isinstance, instance_class. rewrite H.
  by destruct Hc as [-> | ->].
Qed.

Lemma leaf_value_old (h ext : heap) (x v : value) :
  leaf_value h x v -> leaf_value (h ++ ext) x v.
Proof. intros [H|H]; [by left|right; by apply constant_at_old]. Qed.

Lemma compound_leaf (s : state) (x v : value) :
  leaf_value (st_heap s) x v ->
  exists c ext,
    compound x s = Ok c (State (st_heap s ++ ext) (st_trace s)) /\
    constant_at (st_heap s ++ ext) c v.
Proof.
  intros [[Hs ->]|Hc].
  - exists (VRef (List.length (st_heap s))), [Inst Constant [("value", x)]].
    split.
    + destruct x; try discriminate; by apply asfunction_constant.
    + exists (List.length (st_heap s)), Constant, [("value", x)].
      repeat split; auto. apply lookup_fresh.
  - exists x, []. rewrite app_nil_r. split; [|exact Hc].
    pose proof (constant_at_isinstance _ _ _ Hc) as Hi.
    destruct Hc as (k & cls & attrs & -> & _).
    cbn [compound]. rewrite asfunction_function by exact Hi. by destruct s.
Qed.

Lemma each_leaves (xs vs : list value) :
  forall s,
    Forall2 (leaf_value (st_heap s)) xs vs ->
    exists cs ext,
      each compound xs s = Ok cs (State (st_heap s ++ ext) (st_trace s)) /\
      Forall2 (constant_at (st_heap s ++ ext)) cs vs.
Proof.
  revert vs. induction xs as [|x xs IH]; intros vs s HF.
  - apply Forall2_nil_inv_l in HF as ->. exists [], [].
    rewrite app_nil_r. split; [by destruct s|constructor].
  - apply Forall2_cons_inv_l in HF as (v & vs' & Hx & Hxs & ->).
    destruct (compound_leaf s x v Hx) as (c & ext1 & E1 & C1).
    set (s1 := State (st_heap s ++ ext1) (st_trace s)) in *.
    destruct (IH vs' s1) as (cs & ext2 & E2 & C2).
    { eapply Forall2_impl; [exact Hxs|]. intros. by apply leaf_value_old. }
    exists (c :: cs), (ext1 ++ ext2). cbn [each]. unfold bind.
    rewrite E1. fold (each compound). rewrite E2. cbn [st_heap st_trace s1].
    cbn [st_heap s1] in C2. rewrite <- app_assoc in C2.
    rewrite <- app_assoc. split; [reflexivity|].
    constructor; [|exact C2]. rewrite app_assoc. by apply constant_at_old.
Qed.

Lemma new_sequence (c : class) (es : list value) (s : state) :
  c = _List \/ c = _Tuple ->
  new c [VList es] [] s
  = Ok (VRef (List.length (st_heap s)))
       (State (st_heap s
               ++ [Inst c [("_elements", VRef (S (List.length (st_heap s))))];
                   MapIter es])
              (st_trace s)).
Proof.
  destruct s as [h t]. cbn [st_heap st_trace].
  intros Hc. unfold new, bind at 1. rewrite alloc_eq. unfold bind at 1.
  assert (E : init c (VRef (List.length h)) [VList es] []
                   (State (h ++ [Inst c []]) t)
              = Ok tt (State (h ++ [Inst c [("_elements",
                                             VRef (S (List.length h)))];
                                    MapIter es]) t)).
  { destruct Hc as [-> | ->]; cbn [init]; unfold bind at 1; cbn -[setattr];
      rewrite length_app; cbn [List.length];
      replace (List.length h + 1)%nat with (S (List.length h)) by lia;
      rewrite <- app_assoc; cbn [app];
      (erewrite setattr_eq by apply lookup_fresh);
      by rewrite insert_fresh. }
  by rewrite E.
Qed.

Lemma advance_constants (numpy_available : bool) (n : nat) (l : loc)
    (args : list value) (kw : list (string * value)) (cs vs : list value) :
  forall s,
    Forall2 (constant_at (st_heap s)) cs vs ->
    st_heap s !! l = Some (MapIter cs) ->
    exists t',
      advance (call numpy_available (S n)) l args kw cs s
      = Ok vs (State (<[l:=MapIter []]> (st_heap s)) t').
Proof.
  revert vs. induction cs as [|c cs IH]; intros vs s HF Hl.
  - apply Forall2_nil_inv_l in HF as ->. exists (st_trace s). cbn.
    rewrite list_insert_id by exact Hl. by destruct s.
  - apply Forall2_cons_inv_l in HF as (v & vs' & Hc & Hcs & ->).
    cbn [advance]. unfold bind at 1, store.
    set (h1 := <[l:=MapIter cs]> (st_heap s)).
    assert (K : forall c' v', constant_at (st_heap s) c' v' ->
                              constant_at h1 c' v').
    { intros c' v' (k & cls & attrs & -> & H & R).
      exists k, cls, attrs. repeat split; try apply R.
      unfold h1. rewrite list_lookup_insert_ne; [exact H|].
      intros ->. rewrite Hl in H. discriminate. }
    unfold bind at 1.
    rewrite asfunction_function
      by (eapply constant_at_isinstance; apply K, Hc).
    destruct (K c v Hc) as (k & cls & attrs & -> & H & Hcls & Hv).
    unfold bind at 1.
    rewrite (call_constant numpy_available n k cls attrs v args kw
               (State h1 (st_trace s)) H Hcls Hv).
    cbn [st_heap st_trace].
    destruct (IH vs' (State h1 (st_trace s ++ [Event k args kw])))
      as (t' & E).
    { eapply Forall2_impl; [exact Hcs|]. exact K. }
    { cbn. unfold h1. apply list_lookup_insert_eq.
      by eapply lookup_lt_Some. }
    unfold bind. rewrite E. exists t'. cbn [st_heap]. unfold h1.
    by rewrite list_insert_insert_eq.
Qed.

Lemma call_sequence_node (numpy_available : bool) (n : nat) (l m : loc)
    (pending : list value) (args : list value) (kw : list (string * value))
    (s : state) :
  st_heap s !! l = Some (Inst _List [("_elements", VRef m)]) ->
  st_heap s !! m = Some (MapIter pending) ->
  call numpy_available (S n) (VRef l) args kw s
  = (vs <- advance (call numpy_available n) m args kw pending ;;
     ret (VList vs))
      (State (st_heap s) (st_trace s ++ [Event l args kw])).
Proof.
  intros Hl Hm. rewrite (call_enter _ _ _ _ _ _ _ _ Hl).
  cbn [call_method]. unfold bind at 1, log. unfold bind at 1.
  rewrite (getattr_state
             (State (st_heap s) (st_trace s ++ [Event l args kw]))
             l _ _ "_elements" (VRef m) Hl eq_refl).
  unfold call_each, bind, load. cbn [st_heap]. by rewrite Hm.
Qed.

(** A lifted list over scalars and constant nodes: the first evaluation
    returns the values in order and exhausts the [map] object of the node;
    the second evaluation finds it exhausted and returns the empty list. *)
Lemma lifted_list_evaluations (numpy_available : bool) (s : state)
    (xs vs : list value) (args : list value) (kw : list (string * value)) :
  Forall2 (leaf_value (st_heap s)) xs vs ->
  exists l cs s1 s2 s3,
    compound (VList xs) s = Ok (VRef l) s1 /\
    st_heap s1 !! l = Some (Inst _List [("_elements", VRef (S l))]) /\
    st_heap s1 !! S l = Some (MapIter cs) /\
    Forall2 (constant_at (st_heap s1)) cs vs /\
    call numpy_available 2 (VRef l) args kw s1 = Ok (VList vs) s2 /\
    st_heap s2 !! l = Some (Inst _List [("_elements", VRef (S l))]) /\
    st_heap s2 !! S l = Some (MapIter []) /\
    call numpy_available 2 (VRef l) args kw s2 = Ok (VList []) s3.
Proof.
  intros HF. destruct (each_leaves xs vs s HF) as (cs & ext & E & C).
  set (h1 := st_heap s ++ ext) in *.
  set (l := List.length h1).
  set (h2 := h1 ++ [Inst _List [("_elements", VRef (S l))]; MapIter cs]).
  assert (Hl : h2 !! l = Some (Inst _List [("_elements", VRef (S l))]))
    by apply lookup_fresh.
  assert (Hm : h2 !! S l = Some (MapIter cs)) by apply lookup_fresh_next.
  assert (C2 : Forall2 (constant_at h2) cs vs).
  { eapply Forall2_impl; [exact C|]. intros. by apply constant_at_old. }
  destruct (advance_constants numpy_available 0 (S l) args kw cs vs
              (State h2 (st_trace s ++ [Event l args kw])) C2 Hm)
    as (t' & A).
  set (h3 := <[S l:=MapIter []]> h2) in *.
  assert (Hl3 : h3 !! l = Some (Inst _List [("_elements", VRef (S l))])).
  { unfold h3. rewrite list_lookup_insert_ne by lia. exact Hl. }
  assert (Hm3 : h3 !! S l = Some (MapIter [])).
  { unfold h3. apply list_lookup_insert_eq. by eapply lookup_lt_Some. }
  exists l, cs, (State h2 (st_trace s)), (State h3 t'),
    (State h3 (t' ++ [Event l args kw])).
  split.
  { cbn [compound]. unfold bind. rewrite E.
    by rewrite (new_sequence _List cs _ (or_introl eq_refl)). }
  split; [exact Hl|]. split; [exact Hm|]. split; [exact C2|].
  split.
  { rewrite (call_sequence_node numpy_available 1 l (S l) cs args kw
               (State h2 (st_trace s)) Hl Hm).
    unfold bind. cbn [st_heap st_trace]. by rewrite A. }
  split; [exact Hl3|]. split; [exact Hm3|].
  by rewrite (call_sequence_node numpy_available 1 l (S l) [] args kw
                (State h3 t') Hl3 Hm3).
Qed.

(** ** Lifting of arbitrary values *)

Lemma stable_each (n : nat) (P : event -> Prop) {A} (f : A -> M value)
    (xs : list A) :
  Forall (fun x => stable n P (f x)) xs -> stable n P (each f xs).
Proof.
  induction 1 as [|x r Hx Hr IH]; cbn [each]; stable_auto.
Qed.

Lemma stable_compound (n : nat) (P : event -> Prop) (v : value) :
  stable n P (compound v).
Proof.
  induction v as [| | | | |xs IH|xs IH|kvs IH|] using value_nested_ind;
    cbn [compound]; try apply stable_asfunction.
  - apply stable_bind; [by apply stable_each|intros; apply stable_new].
  - apply stable_bind; [by apply stable_each|intros; apply stable_new].
  - apply stable_bind.
    { apply stable_each. eapply Forall_impl; [exact IH|]. by intros ? []. }
    intros keys. apply stable_bind.
    { apply stable_each. eapply Forall_impl; [exact IH|]. by intros ? []. }
    intros values. stable_auto.
Qed.

Lemma new_mapping (kvs : list (value * value)) (s : state) :
  new _Dict [VDict kvs] [] s
  = Ok (VRef (List.length (st_heap s)))
       (State (st_heap s
               ++ [Inst _Dict
                        [("_keys", VRef (S (List.length (st_heap s))));
                         ("_values", VRef (S (S (List.length (st_heap s)))))];
                   MapIter (map fst kvs); MapIter (map snd kvs)])
              (st_trace s)).
Proof.
  destruct s as [h t]. cbn [st_heap st_trace].
  unfold new, bind at 1. rewrite alloc_eq. unfold bind at 1.
  cbn [init]. unfold bind at 1. cbn -[setattr].
  rewrite length_app. cbn [List.length].
  replace (List.length h + 1)%nat with (S (List.length h)) by lia.
  rewrite <- app_assoc. cbn [app].
  unfold bind at 1.
  erewrite setattr_eq by apply lookup_fresh.
  rewrite insert_fresh. cbn -[setattr].
  rewrite length_app. cbn [List.length].
  replace (List.length h + 2)%nat with (S (S (List.length h))) by lia.
  rewrite <- app_assoc. cbn [app].
  erewrite setattr_eq by apply lookup_fresh.
  by rewrite insert_fresh.
Qed.

Lemma each_outcome {A} (f : A -> M value) (xs : list A) :
  Forall (fun x => forall s, lifting_outcome (f x s)) xs ->
  forall s, lifting_outcome (each f xs s).
Proof.
  induction 1 as [|x r Hx Hr IH]; intros s; cbn [each]; [exact I|].
  unfold bind. specialize (Hx s).
  destruct (f x s) as [e s1|e s1| |]; try exact Hx.
  specialize (IH s1). fold (each f).
  by destruct (each f r s1) as [es s2|e' s2| |].
Qed.

Lemma py_dict_outcome (pairs : list (value * value)) (s : state) :
  lifting_outcome (py_dict pairs s).
Proof.
  unfold py_dict, bind, get_heap.
  by destruct (dict_of_pairs (st_heap s) pairs []).
Qed.

(** Lifting returns a node or raises [TypeError]; it never ends otherwise. *)
Lemma compound_outcome (v : value) : forall s, lifting_outcome (compound v s).
Proof.
  induction v as [| | | | |xs IH|xs IH|kvs IH|] using value_nested_ind;
    intros st; cbn [compound];
    try (match goal with
         | |- lifting_outcome (asfunction ?x st) =>
             by destruct (asfunction_total st x) as (r & s1 & ->)
         end).
  - unfold bind. pose proof (each_outcome compound xs IH st) as H.
    destruct (each compound xs st) as [es s1|e s1| |]; try exact H.
    by rewrite (new_sequence _List es s1 (or_introl eq_refl)).
  - unfold bind. pose proof (each_outcome compound xs IH st) as H.
    destruct (each compound xs st) as [es s1|e s1| |]; try exact H.
    by rewrite (new_sequence _Tuple es s1 (or_intror eq_refl)).
  - unfold bind.
    assert (Hk : Forall (fun kv => forall s, lifting_outcome
                                               (compound (fst kv) s)) kvs)
      by (eapply Forall_impl; [exact IH|]; by intros ? []).
    assert (Hv : Forall (fun kv => forall s, lifting_outcome
                                               (compound (snd kv) s)) kvs)
      by (eapply Forall_impl; [exact IH|]; by intros ? []).
    pose proof (each_outcome _ kvs Hk st) as H1.
    destruct (each _ kvs st) as [keys s1|e s1| |]; try exact H1.
    pose proof (each_outcome _ kvs Hv s1) as H2.
    destruct (each _ kvs s1) as [values s2|e s2| |]; try exact H2.
    pose proof (py_dict_outcome (combine keys values) s2) as H3.
    destruct (py_dict (combine keys values) s2) as [d s3|e s3| |] eqn:E3;
      try exact H3.
    unfold py_dict, bind, get_heap in E3.
    destruct (dict_of_pairs (st_heap s2) (combine keys values) [])
      as [pairs|]; [|discriminate].
    injection E3 as <- <-. by rewrite new_mapping.
Qed.

Lemma each_ok {A} (f : A -> M value) (xs : list A) :
  Forall (fun x => forall s, exists r s', f x s = Ok r s') xs ->
  forall s, exists rs s', each f xs s = Ok rs s'.
Proof.
  induction 1 as [|x r Hx Hr IH]; intros s; cbn [each]; [by eexists _, _|].
  unfold bind. destruct (Hx s) as (e & s1 & ->). fold (each f).
  destruct (IH s1) as (es & s2 & ->). by eexists _, _.
Qed.

(** Lifting succeeds on every value that contains no dictionary. *)
Lemma compound_dict_free (v : value) :
  dict_free v = true -> forall s, exists r s', compound v s = Ok r s'.
Proof.
  induction v as [| | | | |xs IH|xs IH|kvs IH|] using value_nested_ind;
    intros Hd st; cbn [compound]; try apply asfunction_total;
    try discriminate.
  - cbn in Hd. pose proof (proj1 (forallb_forall _ _) Hd) as Hall.
    unfold bind.
    destruct (each_ok compound xs) with (s := st) as (es & s1 & ->).
    { apply Forall_forall. intros x Hx. rewrite Forall_forall in IH.
      apply IH; [exact Hx|]. apply Hall. by apply list_elem_of_In. }
    rewrite (new_sequence _List es s1 (or_introl eq_refl)). by eexists _, _.
  - cbn in Hd. pose proof (proj1 (forallb_forall _ _) Hd) as Hall.
    unfold bind.
    destruct (each_ok compound xs) with (s := st) as (es & s1 & ->).
    { apply Forall_forall. intros x Hx. rewrite Forall_forall in IH.
      apply IH; [exact Hx|]. apply Hall. by apply list_elem_of_In. }
    rewrite (new_sequence _Tuple es s1 (or_intror eq_refl)). by eexists _, _.
Qed.

Lemma stable_keeps_instance {A} (m : M A) (s s' : state) (a : A) (l : loc)
    (c : class) (attrs : list (string * value)) :
  stable (List.length (st_heap s)) (fun _ => True) m ->
  m s = Ok a s' ->
  st_heap s !! l = Some (Inst c attrs) ->
  st_heap s' !! l = Some (Inst c attrs).
Proof.
  intros St E H. specialize (St s (le_n _)). rewrite E in St.
  destruct St as [[_ G] _].
  destruct (G l _ (lookup_lt_Some _ _ _ H) H) as (o' & Ho' & Hp).
  cbn in Hp. by subst.
Qed.

Lemma compound_tuple_node (xs : list value) (s s1 : state) (r : value) :
  compound (VTuple xs) s = Ok r s1 ->
  exists l attrs, r = VRef l /\ st_heap s1 !! l = Some (Inst _Tuple attrs).
Proof.
  cbn [compound]. unfold bind.
  destruct (each compound xs s) as [es s0|e s0| |]; try discriminate.
  rewrite (new_sequence _Tuple es s0 (or_intror eq_refl)).
  intros E. injection E as <- <-. eexists _, _. split; [reflexivity|].
  apply lookup_fresh.
Qed.

Lemma hashable_tuple_node (h : heap) (l : loc)
    (attrs : list (string * value)) :
  h !! l = Some (Inst _Tuple attrs) -> hashable h (VRef l) = false.
Proof. intros H. cbn. by rewrite H. Qed.

(** C3 fails on the code: lifting a dictionary that has a tuple among its
    keys raises [TypeError], in every store and whatever the tuple, the
    values and the other entries are.  The lifted key is a [_Tuple] node,
    [compound] puts the lifted keys into a native dictionary, and an
    [OpFunction] instance is unhashable because the class defines [__eq__]
    without [__hash__]. *)
Theorem tuple_key_lifting_raises (s : state) (xs : list value) (v : value)
    (kvs : list (value * value)) :
  exists s', compound (VDict ((VTuple xs, v) :: kvs)) s = Raise TypeError s'.
Proof.
  set (fk := fun kv : value * value => compound (fst kv)).
  set (fv := fun kv : value * value => compound (snd kv)).
  assert (Ok_k : forall l s, lifting_outcome (each fk l s)).
  { intros l. apply each_outcome, Forall_forall. intros.
    apply compound_outcome. }
  assert (Ok_v : forall l s, lifting_outcome (each fv l s)).
  { intros l. apply each_outcome, Forall_forall. intros.
    apply compound_outcome. }
  assert (St_k : forall l n, stable n (fun _ => True) (each fk l)).
  { intros l n. apply stable_each, Forall_forall. intros.
    apply stable_compound. }
  assert (St_v : forall l n, stable n (fun _ => True) (each fv l)).
  { intros l n. apply stable_each, Forall_forall. intros.
    apply stable_compound. }
  change (compound (VDict ((VTuple xs, v) :: kvs)))
    with (keys <- (e <- compound (VTuple xs) ;; es <- each fk kvs ;;
                   ret (e :: es)) ;;
          values <- each fv ((VTuple xs, v) :: kvs) ;;
          d <- py_dict (combine keys values) ;;
          new _Dict [d] []).
  unfold bind at 1 2.
  pose proof (compound_outcome (VTuple xs) s) as H0.
  destruct (compound (VTuple xs) s) as [r s1|e s1| |] eqn:E0;
    try contradiction; [|cbn in H0; subst; by eexists].
  destruct (compound_tuple_node xs s s1 r E0) as (l & attrs & -> & Hl).
  unfold bind at 1.
  pose proof (Ok_k kvs s1) as H1.
  destruct (each fk kvs s1) as [es s2|e s2| |] eqn:E1;
    try contradiction; [|cbn in H1; subst; by eexists].
  pose proof (stable_keeps_instance _ _ _ _ _ _ _ (St_k kvs _) E1 Hl) as Hl2.
  unfold ret at 1. unfold bind at 1.
  pose proof (Ok_v ((VTuple xs, v) :: kvs) s2) as H2.
  destruct (each fv ((VTuple xs, v) :: kvs) s2) as [vals s3|e s3| |] eqn:E2;
    try contradiction; [|cbn in H2; subst; by eexists].
  pose proof (stable_keeps_instance _ _ _ _ _ _ _ (St_v _ _) E2 Hl2) as Hl3.
  assert (exists v' vs', vals = v' :: vs') as (v' & vs' & ->).
  { cbn [each] in E2. unfold bind in E2.
    destruct (fv (VTuple xs, v) s2); try discriminate.
    destruct (each fv kvs s0); try discriminate.
    injection E2 as <- _. by eexists _, _. }
  unfold py_dict, get_heap, bind. cbn [combine dict_of_pairs].
  rewrite (hashable_tuple_node _ _ _ Hl3). by eexists.
Qed.

(** The instance of the failure at [compound({(1, 2): 3})]. *)
Example tuple_key_example :
  exists s',
    compound (VDict [(VTuple [VInt 1; VInt 2], VInt 3)]) empty_state
    = Raise TypeError s'.
Proof. by eexists. Qed.

(** A dictionary whose key is a plain [Constant] node lifts and evaluates:
    [compound({Constant(3): Constant(4)})()] is [{3: 4}]. *)
Example constant_key_example (numpy_available : bool) :
  exists s',
    (a <- new Constant [VInt 3] [] ;;
     b <- new Constant [VInt 4] [] ;;
     d <- compound (VDict [(a, b)]) ;;
     call numpy_available 2 d [] []) empty_state
    = Ok (VDict [(VInt 3, VInt 4)]) s'.
Proof. by eexists. Qed.

(** ** Lifted lists *)

Lemma stable_keeps_isinstance {A} (m : M A) (s s' : state) (a : A)
    (x : value) (d : class) :
  stable (List.length (st_heap s)) (fun _ => True) m ->
  m s = Ok a s' ->
  isinstance (st_heap s) x d = true -> isinstance (st_heap s') x d = true.
Proof.
  intros St E. unfold isinstance, instance_class.
  destruct x; try discriminate.
  destruct (st_heap s !! l) as [[c attrs|p]|] eqn:H; try discriminate.
  by rewrite (stable_keeps_instance m s s' a l c attrs St E H).
Qed.

(** Whatever is lifted, the result is a node. *)
Lemma compound_is_function (v : value) (s s' : state) (r : value) :
  compound v s = Ok r s' -> isinstance (st_heap s') r Function = true.
Proof.
  assert (Ha : forall x, asfunction x s = Ok r s' ->
                         isinstance (st_heap s') r Function = true).
  { intros x. destruct (isinstance (st_heap s) x Function) eqn:E.
    - rewrite asfunction_function by exact E. by intros [= <- <-].
    - rewrite asfunction_constant by exact E. intros [= <- <-].
      cbn [st_heap]. apply isinstance_fresh. }
  destruct v; cbn [compound]; try apply Ha; unfold bind.
  - destruct (each compound xs s) as [es s0|e s0| |]; try discriminate.
    rewrite (new_sequence _List es s0 (or_introl eq_refl)).
    intros [= <- <-]. cbn [st_heap]. apply isinstance_fresh.
  - destruct (each compound xs s) as [es s0|e s0| |]; try discriminate.
    rewrite (new_sequence _Tuple es s0 (or_intror eq_refl)).
    intros [= <- <-]. cbn [st_heap]. apply isinstance_fresh.
  - destruct (each _ kvs s) as [keys s0|e s0| |]; try discriminate.
    destruct (each _ kvs s0) as [values s1|e s1| |]; try discriminate.
    unfold py_dict, bind, get_heap.
    destruct (dict_of_pairs (st_heap s1) (combine keys values) [])
      as [pairs|]; try discriminate.
    unfold ret. rewrite new_mapping.
    intros [= <- <-]. cbn [st_heap]. apply isinstance_fresh.
Qed.

Lemma each_compound_children (xs : list value) :
  forall s cs s',
    each compound xs s = Ok cs s' ->
    List.length cs = List.length xs /\
    Forall (fun c => isinstance (st_heap s') c Function = true) cs.
Proof.
  induction xs as [|x xs IH]; intros s cs s'; cbn [each].
  - intros [= <- <-]. by split.
  - unfold bind.
    destruct (compound x s) as [e s1|e s1| |] eqn:E1; try discriminate.
    fold (each compound).
    destruct (each compound xs s1) as [es s2|e' s2| |] eqn:E2;
      try discriminate.
    intros [= <- <-]. destruct (IH s1 es s2 E2) as [L F].
    split; [cbn; by rewrite L|]. constructor; [|exact F].
    eapply stable_keeps_isinstance; [|exact E2|].
    + apply stable_each, Forall_forall. intros. apply stable_compound.
    + by eapply compound_is_function.
Qed.

(** C2: a lifted list cannot be evaluated twice.  For every non-empty list of
    scalars or constant nodes, the first evaluation of [compound(vs)] returns
    the values and the second evaluation, with the same arguments, returns
    the empty list: the node keeps its elements in a [map] object, which the
    first evaluation exhausts. *)
Theorem second_evaluation_is_empty (numpy_available : bool) (s : state)
    (xs vs : list value) (args : list value) (kw : list (string * value)) :
  Forall2 (leaf_value (st_heap s)) xs vs -> xs <> [] ->
  exists l s1 s2 s3,
    compound (VList xs) s = Ok (VRef l) s1 /\
    call numpy_available 2 (VRef l) args kw s1 = Ok (VList vs) s2 /\
    call numpy_available 2 (VRef l) args kw s2 = Ok (VList []) s3 /\
    VList [] <> VList vs.
Proof.
  intros HF Hne.
  destruct (lifted_list_evaluations numpy_available s xs vs args kw HF)
    as (l & cs & s1 & s2 & s3 & E & _ & _ & _ & E1 & _ & _ & E2).
  exists l, s1, s2, s3. repeat split; try assumption.
  intros Heq. injection Heq as <-. apply Forall2_nil_inv_r in HF. contradiction.
Qed.

Lemma second_evaluation_is_empty_witness :
  exists l s1 s2 s3,
    compound (VList [VInt 1; VInt 2]) empty_state = Ok (VRef l) s1 /\
    call false 2 (VRef l) [] [] s1 = Ok (VList [VInt 1; VInt 2]) s2 /\
    call false 2 (VRef l) [] [] s2 = Ok (VList []) s3 /\
    VList [] <> VList [VInt 1; VInt 2].
Proof.
  apply (second_evaluation_is_empty false empty_state [VInt 1; VInt 2]
           [VInt 1; VInt 2] [] []).
  - constructor; [|constructor; [|constructor]];
      left; split; reflexivity.
  - discriminate.
Defined.


(** ** Nodes over three operands, from their construction *)

Lemma constant_at_self_update (h rest ext : heap) (c : class)
    (attrs attrs' : list (string * value)) (r v : value) :
  c <> Constant -> c <> OpConstant ->
  constant_at (h ++ Inst c attrs :: rest) r v ->
  constant_at (h ++ Inst c attrs' :: rest ++ ext) r v.
Proof.
  intros N1 N2 (k & cls & a & -> & H & Hc & Hv).
  exists k, cls, a. split; [reflexivity|]. split; [|by split].
  destruct (decide (k < List.length h)%nat) as [Hk|Hk].
  - rewrite lookup_app_l in * by exact Hk. exact H.
  - destruct (decide (k = List.length h)) as [->|Hne].
    + rewrite lookup_fresh in H. injection H as -> _.
      by destruct Hc.
    + rewrite lookup_app_r in * by lia.
      destruct (k - List.length h)%nat as [|j] eqn:Ej; [lia|].
      cbn in *. by apply lookup_old.
Qed.

Lemma set_function_leaf (h rest : heap) (t : list event) (c : class)
    (attrs : list (string * value)) (name : string) (x v : value) :
  c <> Constant -> c <> OpConstant ->
  leaf_value (h ++ Inst c attrs :: rest) x v ->
  exists r ext,
    set_function (VRef (List.length h)) name x
                 (State (h ++ Inst c attrs :: rest) t)
    = Ok tt (State (h ++ Inst c (set_key name r attrs) :: rest ++ ext) t) /\
    constant_at (h ++ Inst c (set_key name r attrs) :: rest ++ ext) r v.
Proof.
  intros N1 N2 [[Hs ->]|Hc].
  - exists (VRef (List.length (h ++ Inst c attrs :: rest))),
      [Inst Constant [("value", x)]].
    split.
    + rewrite (set_function_plain _ _ _ c attrs)
        by (apply lookup_fresh || by destruct x).
      rewrite <- app_assoc. cbn [app]. by rewrite insert_fresh.
    + exists (List.length (h ++ Inst c attrs :: rest)), Constant,
        [("value", x)].
      split; [reflexivity|]. split; [|by split; [left|]].
      rewrite (app_comm_cons rest), app_assoc.
      apply list_lookup_middle. by rewrite !length_app.
  - exists x, []. rewrite app_nil_r. split.
    + rewrite (set_function_node _ _ _ c attrs)
        by (apply lookup_fresh || by eapply constant_at_isinstance).
      by rewrite insert_fresh.
    + rewrite <- (app_nil_r rest) at 1.
      by apply (constant_at_self_update h rest [] c attrs).
Qed.

Lemma set_three_operands (h : heap) (t : list event) (c : class)
    (n1 n2 n3 : string) (x1 x2 x3 v1 v2 v3 : value) :
  c <> Constant -> c <> OpConstant ->
  leaf_value h x1 v1 -> leaf_value h x2 v2 -> leaf_value h x3 v3 ->
  exists r1 r2 r3 ext,
    let attrs := set_key n3 r3 (set_key n2 r2 (set_key n1 r1 [])) in
    (set_function (VRef (List.length h)) n1 x1 ;;;
     set_function (VRef (List.length h)) n2 x2 ;;;
     set_function (VRef (List.length h)) n3 x3) (State (h ++ [Inst c []]) t)
    = Ok tt (State (h ++ Inst c attrs :: ext) t) /\
    constant_at (h ++ Inst c attrs :: ext) r1 v1 /\
    constant_at (h ++ Inst c attrs :: ext) r2 v2 /\
    constant_at (h ++ Inst c attrs :: ext) r3 v3.
Proof.
  intros N1 N2 L1 L2 L3.
  destruct (set_function_leaf h [] t c [] n1 x1 v1 N1 N2)
    as (r1 & e1 & E1 & C1); [by apply leaf_value_old|].
  cbn [app] in E1, C1.
  destruct (set_function_leaf h e1 t c (set_key n1 r1 []) n2 x2 v2 N1 N2)
    as (r2 & e2 & E2 & C2); [by apply leaf_value_old|].
  destruct (set_function_leaf h (e1 ++ e2) t c
              (set_key n2 r2 (set_key n1 r1 [])) n3 x3 v3 N1 N2)
    as (r3 & e3 & E3 & C3); [by apply leaf_value_old|].
  exists r1, r2, r3, ((e1 ++ e2) ++ e3). cbn zeta.
  split; [|split; [|split]].
  - unfold bind. by rewrite E1, E2, E3.
  - apply (constant_at_self_update h (e1 ++ e2) e3 c
             (set_key n2 r2 (set_key n1 r1 []))); [exact N1|exact N2|].
    by apply (constant_at_self_update h e1 e2 c (set_key n1 r1 [])).
  - by apply (constant_at_self_update h (e1 ++ e2) e3 c
                (set_key n2 r2 (set_key n1 r1 []))).
  - exact C3.
Qed.

Lemma constant_operand (numpy_available : bool) (h : heap) (t : list event)
    (r v : value) (args : list value) (kw : list (string * value)) :
  constant_at h r v ->
  exists t', call numpy_available 1 r args kw (State h t) = Ok v (State h t').
Proof.
  intros (k & cls & attrs & -> & H & Hc & Hv).
  rewrite (call_constant numpy_available 0 k cls attrs v args kw
             (State h t) H Hc Hv).
  by eexists.
Qed.

(** [Clip(low, high, leaf)] over numbers and constant nodes that hold
    numbers, from the construction to the result. *)
Lemma clip_constructed (s : state) (low high leaf lo hi x : value)
    (a b c : num) (args : list value) (kw : list (string * value)) :
  leaf_value (st_heap s) low lo -> leaf_value (st_heap s) high hi ->
  leaf_value (st_heap s) leaf x ->
  as_num lo = Some a -> as_num hi = Some b -> as_num x = Some c ->
  exists k s1 s2,
    new Clip [low; high; leaf] [] s = Ok k s1 /\
    call false 2 k args kw s1
    = Ok (if num_val c <? num_val a then lo
          else if num_val c <? num_val b then x else hi) s2.
Proof.
  destruct s as [h t]. cbn [st_heap]. intros L1 L2 L3 Na Nb Nc.
  destruct (set_three_operands h t Clip "low" "high" "leaf" low high leaf
              lo hi x) as (r1 & r2 & r3 & ext & E & C1 & C2 & C3);
    try assumption; try discriminate.
  cbn zeta in E, C1, C2, C3. cbn [set_key String.eqb Ascii.eqb Bool.eqb] in *.
  set (hf := h ++ Inst Clip [("low", r1); ("high", r2); ("leaf", r3)] :: ext)
    in *.
  assert (En : new Clip [low; high; leaf] [] (State h t)
               = Ok (VRef (List.length h)) (State hf t)).
  { unfold new, bind at 1. rewrite alloc_eq. unfold bind at 1.
    cbn [init]. unfold bind at 1. cbn -[set_function].
    unfold arg. cbn [nth]. by rewrite E. }
  destruct (constant_operand false hf (t ++ [Event (List.length h) args kw])
              r1 lo args kw C1) as (t1 & E1).
  destruct (constant_operand false hf t1 r2 hi args kw C2) as (t2 & E2).
  destruct (constant_operand false hf t2 r3 x args kw C3) as (t3 & E3).
  exists (VRef (List.length h)), (State hf t), (State hf t3).
  split; [exact En|].
  eapply (clip_fallback 1 (List.length h) _ r1 r2 r3 lo hi x a b c args kw
            (State hf t) (State hf t1) (State hf t2) (State hf t3));
    [apply lookup_fresh|reflexivity|reflexivity|reflexivity
    |exact E1|exact E2|exact E3|exact Na|exact Nb|exact Nc].
Qed.

(** [InBetween(value, low, high)] over numbers and constant nodes that hold
    numbers, from the construction to the result. *)
Lemma inbetween_constructed (numpy_available : bool) (s : state)
    (operand low high v lo hi : value) (a b c : num) (args : list value)
    (kw : list (string * value)) :
  leaf_value (st_heap s) operand v -> leaf_value (st_heap s) low lo ->
  leaf_value (st_heap s) high hi ->
  as_num lo = Some a -> as_num hi = Some b -> as_num v = Some c ->
  exists k s1 s2,
    new InBetween [operand; low; high] [] s = Ok k s1 /\
    call numpy_available 2 k args kw s1
    = Ok (VBool ((num_val a <=? num_val c) && (num_val c <? num_val b))) s2.
Proof.
  destruct s as [h t]. cbn [st_heap]. intros L1 L2 L3 Na Nb Nc.
  destruct (set_three_operands h t InBetween "value" "low" "high"
              operand low high v lo hi)
    as (r1 & r2 & r3 & ext & E & C1 & C2 & C3);
    try assumption; try discriminate.
  cbn zeta in E, C1, C2, C3. cbn [set_key String.eqb Ascii.eqb Bool.eqb] in *.
  set (hf := h ++ Inst InBetween
                    [("value", r1); ("low", r2); ("high", r3)] :: ext) in *.
  assert (En : new InBetween [operand; low; high] [] (State h t)
               = Ok (VRef (List.length h)) (State hf t)).
  { unfold new, bind at 1. rewrite alloc_eq. unfold bind at 1.
    cbn [init]. unfold bind at 1. cbn -[set_function].
    unfold arg. cbn [nth]. by rewrite E. }
  destruct (constant_operand numpy_available hf
              (t ++ [Event (List.length h) args kw]) r2 lo args kw C2)
    as (t1 & E1).
  destruct (constant_operand numpy_available hf t1 r3 hi args kw C3)
    as (t2 & E2).
  destruct (constant_operand numpy_available hf t2 r1 v args kw C1)
    as (t3 & E3).
  exists (VRef (List.length h)), (State hf t), (State hf t3).
  split; [exact En|].
  eapply (inbetween_numbers numpy_available 1 (List.length h) _ r1 r2 r3
            lo hi v a b c args kw
            (State hf t) (State hf t1) (State hf t2) (State hf t3));
    [apply lookup_fresh|reflexivity|reflexivity|reflexivity
    |exact E1|exact E2|exact E3|exact Na|exact Nb|exact Nc].
Qed.

(** ** Clip and InBetween: the claims *)

(** C6: without the numeric backend, a [Clip] node evaluates its [low],
    [high] and [leaf] operands, in this order, with the arguments of the
    invocation, and for numbers returns [low] when [leaf < low], else
    [leaf] when [leaf < high], else [high].  This holds for every [Clip]
    instance whose operands evaluate to numbers, and from the construction
    [Clip(low, high, leaf)] over numbers and constant nodes.  With
    [low = 0] and [high = 10] the leaf values [-5], [15] and [5] give [0],
    [10] and [5]. *)
Theorem clip_without_backend :
  (forall n l attrs fl fh fx lo hi x a b c args kw s s1 s2 s3,
      st_heap s !! l = Some (Inst Clip attrs) ->
      assoc "low" attrs = Some fl -> assoc "high" attrs = Some fh ->
      assoc "leaf" attrs = Some fx ->
      call false n fl args kw
           (State (st_heap s) (st_trace s ++ [Event l args kw])) = Ok lo s1 ->
      call false n fh args kw s1 = Ok hi s2 ->
      call false n fx args kw s2 = Ok x s3 ->
      as_num lo = Some a -> as_num hi = Some b -> as_num x = Some c ->
      call false (S n) (VRef l) args kw s
      = Ok (if num_val c <? num_val a then lo
            else if num_val c <? num_val b then x else hi) s3) /\
  (forall s low high leaf lo hi x a b c args kw,
      leaf_value (st_heap s) low lo -> leaf_value (st_heap s) high hi ->
      leaf_value (st_heap s) leaf x ->
      as_num lo = Some a -> as_num hi = Some b -> as_num x = Some c ->
      exists k s1 s2,
        new Clip [low; high; leaf] [] s = Ok k s1 /\
        call false 2 k args kw s1
        = Ok (if num_val c <? num_val a then lo
              else if num_val c <? num_val b then x else hi) s2) /\
  (exists s', clip_example 0 10 (-5) empty_state = Ok (VInt 0) s') /\
  (exists s', clip_example 0 10 15 empty_state = Ok (VInt 10) s') /\
  (exists s', clip_example 0 10 5 empty_state = Ok (VInt 5) s').
Proof.
  split; [apply clip_fallback|].
  split; [apply clip_constructed|].
  repeat split; by eexists.
Qed.

Lemma clip_without_backend_witness :
  let h := [Inst Constant [("value", VInt (-5))];
            Inst Clip [("low", VRef 2); ("high", VRef 3); ("leaf", VRef 0)];
            Inst Constant [("value", VInt 0)];
            Inst Constant [("value", VInt 10)]] in
  call false 2 (VRef 1) [] [] (State h [])
  = Ok (VInt 0)
       (State h [Event 1 [] []; Event 2 [] []; Event 3 [] []; Event 0 [] []]).
Proof.
  intros h.
  apply (proj1 clip_without_backend 1%nat 1%nat
           [("low", VRef 2); ("high", VRef 3); ("leaf", VRef 0)]
           (VRef 2) (VRef 3) (VRef 0) (VInt 0) (VInt 10) (VInt (-5))
           (NInt 0) (NInt 10) (NInt (-5)) [] [] (State h [])
           (State h [Event 1 [] []; Event 2 [] []])
           (State h [Event 1 [] []; Event 2 [] []; Event 3 [] []])
           (State h [Event 1 [] []; Event 2 [] []; Event 3 [] [];
                     Event 0 [] []]));
    reflexivity.
Defined.

(** C7: an [InBetween] node evaluates its [low], [high] and [value]
    operands with the arguments of the invocation and, for numbers, returns
    [low <= value and value < high], with and without the numeric backend.
    This holds for every [InBetween] instance whose operands evaluate to
    numbers, and from the construction [InBetween(value, low, high)] over
    numbers and constant nodes.  The lower bound is inclusive and the upper
    bound exclusive: [InBetween(Constant(5), 5, 10)()] is true and
    [InBetween(Constant(10), 5, 10)()] is false. *)
Theorem inbetween_bounds :
  (forall numpy_available n l attrs fv fl fh lo hi v a b c args kw s s1 s2 s3,
      st_heap s !! l = Some (Inst InBetween attrs) ->
      assoc "value" attrs = Some fv -> assoc "low" attrs = Some fl ->
      assoc "high" attrs = Some fh ->
      call numpy_available n fl args kw
           (State (st_heap s) (st_trace s ++ [Event l args kw])) = Ok lo s1 ->
      call numpy_available n fh args kw s1 = Ok hi s2 ->
      call numpy_available n fv args kw s2 = Ok v s3 ->
      as_num lo = Some a -> as_num hi = Some b -> as_num v = Some c ->
      call numpy_available (S n) (VRef l) args kw s
      = Ok (VBool ((num_val a <=? num_val c) && (num_val c <? num_val b)))
           s3) /\
  (forall numpy_available s operand low high v lo hi a b c args kw,
      leaf_value (st_heap s) operand v -> leaf_value (st_heap s) low lo ->
      leaf_value (st_heap s) high hi ->
      as_num lo = Some a -> as_num hi = Some b -> as_num v = Some c ->
      exists k s1 s2,
        new InBetween [operand; low; high] [] s = Ok k s1 /\
        call numpy_available 2 k args kw s1
        = Ok (VBool ((num_val a <=? num_val c) && (num_val c <? num_val b)))
             s2) /\
  (forall numpy_available,
      exists s',
        inbetween_example numpy_available 5 5 10 empty_state
        = Ok (VBool true) s') /\
  (forall numpy_available,
      exists s',
        inbetween_example numpy_available 10 5 10 empty_state
        = Ok (VBool false) s').
Proof.
  split; [apply inbetween_numbers|].
  split; [apply inbetween_constructed|].
  split; intros []; by eexists.
Qed.

Lemma inbetween_bounds_witness :
  let h := [Inst Constant [("value", VInt 10)];
            Inst InBetween
                 [("value", VRef 0); ("low", VRef 2); ("high", VRef 3)];
            Inst Constant [("value", VInt 5)];
            Inst Constant [("value", VInt 10)]] in
  call true 2 (VRef 1) [] [] (State h [])
  = Ok (VBool false)
       (State h [Event 1 [] []; Event 2 [] []; Event 3 [] []; Event 0 [] []]).
Proof.
  intros h.
  apply (proj1 inbetween_bounds true 1%nat 1%nat
           [("value", VRef 0); ("low", VRef 2); ("high", VRef 3)]
           (VRef 0) (VRef 2) (VRef 3) (VInt 5) (VInt 10) (VInt 10)
           (NInt 5) (NInt 10) (NInt 10) [] [] (State h [])
           (State h [Event 1 [] []; Event 2 [] []])
           (State h [Event 1 [] []; Event 2 [] []; Event 3 [] []])
           (State h [Event 1 [] []; Event 2 [] []; Event 3 [] [];
                     Event 0 [] []]));
    reflexivity.
Defined.

(** * Further properties of the code *)

(** ** Evaluation and the store *)

(** X1: no [__call__] of [function.py] or [op.py] assigns to an attribute.
    Whatever node is invoked, with whatever arguments, and whether the
    invocation returns or raises, the store only grows, every instance keeps
    its class and all its attributes, and every [map] object stays a [map]
    object. *)
Theorem evaluation_keeps_instances (numpy_available : bool) (fuel : nat)
    (f : value) (args : list value) (kw : list (string * value))
    (s : state) :
  match call numpy_available fuel f args kw s with
  | Ok _ s' | Raise _ s' =>
      (List.length (st_heap s) <= List.length (st_heap s'))%nat /\
      (forall l c attrs,
          st_heap s !! l = Some (Inst c attrs) ->
          st_heap s' !! l = Some (Inst c attrs)) /\
      (forall l p,
          st_heap s !! l = Some (MapIter p) ->
          exists p', st_heap s' !! l = Some (MapIter p'))
  | _ => True
  end.
Proof.
  pose proof (stable_call numpy_available (List.length (st_heap s)) fuel
                f args kw s (le_n _)) as St.
  unfold evolves in St.
  assert (K : forall s' : state,
             grows_below (List.length (st_heap s)) (st_heap s) (st_heap s') ->
             (List.length (st_heap s) <= List.length (st_heap s'))%nat /\
             (forall l c attrs,
                 st_heap s !! l = Some (Inst c attrs) ->
                 st_heap s' !! l = Some (Inst c attrs)) /\
             (forall l p,
                 st_heap s !! l = Some (MapIter p) ->
                 exists p', st_heap s' !! l = Some (MapIter p'))).
  { intros s' [L G]. split; [exact L|]. split.
    - intros l c attrs H.
      destruct (G l _ (lookup_lt_Some _ _ _ H) H) as (o' & Ho' & Hp).
      cbn in Hp. by subst.
    - intros l p H.
      destruct (G l _ (lookup_lt_Some _ _ _ H) H) as (o' & Ho' & [p' ->]).
      eauto. }
  destruct (call numpy_available fuel f args kw s) as [v s'|e s'| |];
    auto; apply K, St.
Qed.

(** ** Leaves *)

Lemma new_constant (c : class) (v : value) (s : state) :
  c = Constant \/ c = OpConstant ->
  new c [v] [] s
  = Ok (VRef (List.length (st_heap s)))
       (State (st_heap s ++ [Inst c [("value", v)]]) (st_trace s)).
Proof.
  destruct s as [h t]. cbn [st_heap st_trace]. intros Hc.
  unfold new, bind at 1. rewrite alloc_eq. unfold bind at 1.
  assert (E : init c (VRef (List.length h)) [v] []
                   (State (h ++ [Inst c []]) t)
              = Ok tt (State (h ++ [Inst c [("value", v)]]) t)).
  { destruct Hc as [-> | ->]; cbn [init]; unfold Constant__init__, bind at 1;
      cbn -[setattr];
      (erewrite setattr_eq by apply lookup_fresh);
      by rewrite insert_fresh. }
  by rewrite E.
Qed.

(** X2: a constant returns its value whatever it is invoked with, and the
    invocation changes nothing but the call trace.  For [Constant] and for
    [OpConstant]: [Constant(v)] is one new object that holds [v]; and every
    such instance, in every store, invoked with any positional and keyword
    arguments, returns the value it holds, leaves the store as it is and
    adds the one call to the trace. *)
Theorem constant_ignores_arguments (numpy_available : bool) (c : class)
    (v : value) (args : list value) (kw : list (string * value)) :
  c = Constant \/ c = OpConstant ->
  (forall s,
      new c [v] [] s
      = Ok (VRef (List.length (st_heap s)))
           (State (st_heap s ++ [Inst c [("value", v)]]) (st_trace s))) /\
  (forall n s l attrs,
      st_heap s !! l = Some (Inst c attrs) ->
      assoc "value" attrs = Some v ->
      call numpy_available (S n) (VRef l) args kw s
      = Ok v (State (st_heap s) (st_trace s ++ [Event l args kw]))).
Proof.
  intros Hc. split.
  - intros s. by apply new_constant.
  - intros n s l attrs H Hv.
    by apply (call_constant numpy_available n l c attrs v args kw s).
Qed.

Lemma constant_ignores_arguments_witness :
  new OpConstant [VInt 5] [] empty_state
  = Ok (VRef 0) (State [Inst OpConstant [("value", VInt 5)]] []) /\
  call true 1 (VRef 0) [VInt 1] [("x", VInt 2)]
       (State [Inst OpConstant [("value", VInt 5)]] [])
  = Ok (VInt 5)
       (State [Inst OpConstant [("value", VInt 5)]]
              [Event 0 [VInt 1] [("x", VInt 2)]]).
Proof.
  destruct (constant_ignores_arguments true OpConstant (VInt 5)
              [VInt 1] [("x", VInt 2)] (or_intror eq_refl)) as [H1 H2].
  split.
  - exact (H1 empty_state).
  - exact (H2 0%nat (State [Inst OpConstant [("value", VInt 5)]] []) 0%nat
              [("value", VInt 5)] eq_refl eq_refl).
Defined.

(** X3: [Identity.__call__(self, *args)] returns its only argument as it is,
    any other number of arguments (none included) as a tuple, and takes no
    keyword argument: invoked with one it raises [TypeError].  The same
    holds for [OpIdentity]. *)
Theorem identity_returns_arguments (numpy_available : bool) (n : nat)
    (l : loc) (c : class) (attrs : list (string * value)) (s : state) :
  st_heap s !! l = Some (Inst c attrs) ->
  c = Identity \/ c = OpIdentity ->
  (forall x,
      call numpy_available (S n) (VRef l) [x] [] s
      = Ok x (State (st_heap s) (st_trace s ++ [Event l [x] []]))) /\
  (forall args,
      List.length args <> 1%nat ->
      call numpy_available (S n) (VRef l) args [] s
      = Ok (VTuple args)
           (State (st_heap s) (st_trace s ++ [Event l args []]))) /\
  (forall args k kw,
      call numpy_available (S n) (VRef l) args (k :: kw) s
      = Raise TypeError
              (State (st_heap s) (st_trace s ++ [Event l args (k :: kw)]))).
Proof.
  intros H Hc. repeat split; intros;
    rewrite (call_enter _ _ _ _ _ _ _ _ H); unfold bind, log;
    destruct Hc as [-> | ->]; cbn [call_method]; try reflexivity.
  all: destruct args as [|x [|y r]]; try reflexivity; cbn in *; lia.
Qed.

Lemma identity_returns_arguments_witness :
  let s := State [Inst OpIdentity []] [] in
  call false 1 (VRef 0) [VInt 5; VInt 6] [] s
  = Ok (VTuple [VInt 5; VInt 6])
       (State [Inst OpIdentity []] [Event 0 [VInt 5; VInt 6] []]).
Proof.
  intros s.
  apply (proj1 (proj2 (identity_returns_arguments false 0 0 OpIdentity []
                         s eq_refl (or_intror eq_refl)))).
  cbn. lia.
Defined.

(** ** asopfunction *)

Lemma new_OpWrap (x : value) (s : state) :
  new OpWrap [x] [] s
  = Ok (VRef (List.length (st_heap s)))
       (State (st_heap s ++ [Inst OpWrap [("target", x)]]) (st_trace s)).
Proof.
  destruct s as [h t]. cbn [st_heap st_trace].
  unfold new, bind at 1. rewrite alloc_eq. unfold bind at 1.
  cbn [init]. unfold bind at 1. cbn -[setattr].
  erewrite setattr_eq by apply lookup_fresh.
  by rewrite insert_fresh.
Qed.

Lemma call_OpWrap (numpy_available : bool) (n : nat) (l : loc)
    (attrs : list (string * value)) (target : value) (args : list value)
    (kw : list (string * value)) (s : state) :
  st_heap s !! l = Some (Inst OpWrap attrs) ->
  assoc "target" attrs = Some target ->
  call numpy_available (S n) (VRef l) args kw s
  = (log (Event l args kw) ;;; call numpy_available n target args kw) s.
Proof.
  intros H Ht. rewrite (call_enter _ _ _ _ _ _ _ _ H).
  cbn [call_method]. unfold call_attr, bind, log.
  by rewrite (getattr_state
                (State (st_heap s) (st_trace s ++ [Event l args kw]))
                l _ _ "target" target H Ht).
Qed.

(** X4: [asopfunction] gives every value the operator overloads.  An
    [OpFunction] instance is returned as the same reference; a [Function]
    instance without the overloads is wrapped in an [OpWrap], whose
    invocation with any arguments is the invocation of the wrapped function
    with them; any other value becomes an [OpConstant] that holds it.  In
    every case the result is an [OpFunction] instance, and converting it
    again returns the same reference and leaves the store as it is. *)
Theorem asopfunction_adds_operators (numpy_available : bool) (s : state)
    (x : value) :
  (isinstance (st_heap s) x OpFunction = true -> asopfunction x s = Ok x s) /\
  (isinstance (st_heap s) x OpFunction = false ->
   isinstance (st_heap s) x Function = true ->
   let l := List.length (st_heap s) in
   let s1 := State (st_heap s ++ [Inst OpWrap [("target", x)]])
                   (st_trace s) in
   asopfunction x s = Ok (VRef l) s1 /\
   forall n args kw,
     call numpy_available (S n) (VRef l) args kw s1
     = (log (Event l args kw) ;;; call numpy_available n x args kw) s1) /\
  (isinstance (st_heap s) x Function = false ->
   asopfunction x s
   = Ok (VRef (List.length (st_heap s)))
        (State (st_heap s ++ [Inst OpConstant [("value", x)]])
               (st_trace s))) /\
  (exists r s1,
      asopfunction x s = Ok r s1 /\
      isinstance (st_heap s1) r OpFunction = true /\
      asopfunction r s1 = Ok r s1).
Proof.
  assert (Hop : isinstance (st_heap s) x OpFunction = true ->
                asopfunction x s = Ok x s).
  { intros H. unfold asopfunction, bind, get_heap. by rewrite H. }
  assert (Hw : isinstance (st_heap s) x OpFunction = false ->
               isinstance (st_heap s) x Function = true ->
               asopfunction x s
               = Ok (VRef (List.length (st_heap s)))
                    (State (st_heap s ++ [Inst OpWrap [("target", x)]])
                           (st_trace s))).
  { intros H1 H2. unfold asopfunction, bind, get_heap. rewrite H1, H2.
    apply new_OpWrap. }
  assert (Hc : isinstance (st_heap s) x Function = false ->
               asopfunction x s
               = Ok (VRef (List.length (st_heap s)))
                    (State (st_heap s ++ [Inst OpConstant [("value", x)]])
                           (st_trace s))).
  { intros H2. unfold asopfunction, bind, get_heap.
    destruct (isinstance (st_heap s) x OpFunction) eqn:H1.
    - apply isinstance_OpFunction_Function in H1. congruence.
    - rewrite H2. apply new_constant. by right. }
  split; [exact Hop|]. split; [|split; [exact Hc|]].
  - intros H1 H2 l s1. split; [by apply Hw|]. intros n args kw.
    eapply call_OpWrap; [apply lookup_fresh|reflexivity].
  - assert (Again : forall r s1,
               isinstance (st_heap s1) r OpFunction = true ->
               asopfunction r s1 = Ok r s1).
    { intros r s1 H. unfold asopfunction, bind, get_heap. by rewrite H. }
    destruct (isinstance (st_heap s) x OpFunction) eqn:H1.
    { exists x, s. auto. }
    destruct (isinstance (st_heap s) x Function) eqn:H2.
    + eexists _, _. split; [by apply Hw|].
      assert (I : isinstance
                    (st_heap s ++ [Inst OpWrap [("target", x)]])
                    (VRef (List.length (st_heap s))) OpFunction = true)
        by apply isinstance_fresh.
      split; [exact I|]. by apply Again.
    + eexists _, _. split; [by apply Hc|].
      assert (I : isinstance
                    (st_heap s ++ [Inst OpConstant [("value", x)]])
                    (VRef (List.length (st_heap s))) OpFunction = true)
        by apply isinstance_fresh.
      split; [exact I|]. by apply Again.
Qed.

Lemma asopfunction_adds_operators_witness :
  let s := State [Inst Identity []] [] in
  asopfunction (VRef 0) s
  = Ok (VRef 1) (State [Inst Identity []; Inst OpWrap [("target", VRef 0)]] [])
  /\
  forall n args kw,
    call false (S n) (VRef 1) args kw
         (State [Inst Identity []; Inst OpWrap [("target", VRef 0)]] [])
    = (log (Event 1 args kw) ;;; call false n (VRef 0) args kw)
        (State [Inst Identity []; Inst OpWrap [("target", VRef 0)]] []).
Proof.
  intros s.
  apply (proj1 (proj2 (asopfunction_adds_operators false s (VRef 0))));
    reflexivity.
Defined.

(** ** Binary operator nodes *)

Lemma new_binary_positional (c : class) (n1 n2 : string) (a b : value)
    (s : state) :
  operands c = Some (n1, n2) ->
  isinstance (st_heap s) a Function = true ->
  isinstance (st_heap s) b Function = true ->
  new c [a; b] [] s
  = Ok (VRef (List.length (st_heap s)))
       (State (st_heap s ++ [Inst c [(n1, a); (n2, b)]]) (st_trace s)).
Proof.
  destruct s as [h t]. cbn [st_heap st_trace]. intros Hc Ha Hb.
  unfold new, bind at 1. rewrite alloc_eq. unfold bind at 1.
  assert (E : init c (VRef (List.length h)) [a; b] []
                   (State (h ++ [Inst c []]) t)
              = Ok tt (State (h ++ [Inst c [(n1, a); (n2, b)]]) t)).
  { destruct c; try discriminate; injection Hc as <- <-; cbn [init];
      unfold bind at 1; cbn -[set_function]; unfold bind at 1.
    all: rewrite (set_function_node _ _ _ _ [])
      by (apply lookup_fresh || by apply isinstance_old).
    all: rewrite insert_fresh; cbn [set_key].
    all: erewrite set_function_node
      by (apply lookup_fresh || by apply isinstance_old).
    all: by rewrite insert_fresh. }
  by rewrite E.
Qed.

Lemma new_Power_keywords (a b : value) (s : state) :
  isinstance (st_heap s) a Function = true ->
  isinstance (st_heap s) b Function = true ->
  new Power [] [("base", a); ("exponent", b)] s
  = Ok (VRef (List.length (st_heap s)))
       (State (st_heap s ++ [Inst Power [("base", a); ("exponent", b)]])
              (st_trace s)).
Proof.
  destruct s as [h t]. cbn [st_heap st_trace]. intros Ha Hb.
  unfold new, bind at 1. rewrite alloc_eq. unfold bind at 1.
  cbn [init]. unfold bind at 1. cbn -[set_function]. unfold bind at 1.
  rewrite (set_function_node _ _ _ _ [])
    by (apply lookup_fresh || by apply isinstance_old).
  rewrite insert_fresh. cbn [set_key].
  erewrite set_function_node
    by (apply lookup_fresh || by apply isinstance_old).
  by rewrite insert_fresh.
Qed.

Lemma call_binary (numpy_available : bool) (n : nat) (l : loc) (c : class)
    (op : binop) (n1 n2 : string) (attrs : list (string * value))
    (a b : value) (args : list value) (kw : list (string * value))
    (s : state) :
  st_heap s !! l = Some (Inst c attrs) ->
  operator_of c = Some op -> operands c = Some (n1, n2) ->
  assoc n1 attrs = Some a -> assoc n2 attrs = Some b ->
  call numpy_available (S n) (VRef l) args kw s
  = (log (Event l args kw) ;;;
     x <- call numpy_available n a args kw ;;
     y <- call numpy_available n b args kw ;;
     py_binop op x y) s.
Proof.
  intros H Hop Hn Ha Hb. rewrite (call_enter _ _ _ _ _ _ _ _ H).
  assert (E : forall s0,
             call_method numpy_available (call numpy_available n) c
                         (VRef l) args kw s0
             = binary (call numpy_available n) op (VRef l) n1 n2 args kw s0).
  { intros s0. destruct c; try discriminate;
      injection Hop as <-; injection Hn as <- <-; reflexivity. }
  unfold bind at 1 4, log. rewrite E.
  unfold binary, call_attr, bind.
  set (s1 := State (st_heap s) (st_trace s ++ [Event l args kw])).
  rewrite (getattr_state s1 l _ _ n1 a H Ha).
  destruct (call numpy_available n a args kw s1) as [x s2|e s2| |] eqn:E1;
    try reflexivity.
  assert (H2 := call_keeps_instance _ _ _ _ _ _ _ _ _ _ _ E1 H).
  by rewrite (getattr_state s2 l _ _ n2 b H2 Hb).
Qed.

(** X5: the arithmetic and comparison operators build nodes and compute
    nothing.  Let [a] be an [OpFunction] instance, [b] a node and [op] one
    of [+], [*], [**], [<], [>], [<=], [>=], [==], [!=].  Then [a op b]
    allocates exactly one node and invokes nothing: the store grows by this
    node and the trace stays as it is.  The node has the class of [op] and
    the operands [a], [b], unless [op] is a comparison and the class of [b]
    is a proper subclass of the class of [a]: then the host asks [b] first
    and the node is the mirrored comparison with the operands [b], [a].
    The invocation of a node of either kind evaluates its first operand,
    then its second, with the arguments of the invocation, and applies the
    operator of the host to the two results.  With constants [3] and [4]:
    [3 + 4] is [7], [3 * 4] is [12], [3 ** 4] is [81], and [3 < 4] holds. *)
Theorem operator_builds_node :
  (forall numpy_available op c n1 n2 s a b,
      node_class op = Some c -> operands c = Some (n1, n2) ->
      isinstance (st_heap s) a OpFunction = true ->
      isinstance (st_heap s) b Function = true ->
      (is_comparison op = true -> proper_subclass (st_heap s) b a = false) ->
      let l := List.length (st_heap s) in
      let s1 := State (st_heap s ++ [Inst c [(n1, a); (n2, b)]])
                      (st_trace s) in
      py_binop op a b s = Ok (VRef l) s1 /\
      forall n args kw,
        call numpy_available (S n) (VRef l) args kw s1
        = (log (Event l args kw) ;;;
           x <- call numpy_available n a args kw ;;
           y <- call numpy_available n b args kw ;;
           py_binop op x y) s1) /\
  (forall numpy_available op c s a b,
      is_comparison op = true -> node_class (mirror op) = Some c ->
      isinstance (st_heap s) a OpFunction = true ->
      isinstance (st_heap s) b OpFunction = true ->
      proper_subclass (st_heap s) b a = true ->
      let l := List.length (st_heap s) in
      let s1 := State (st_heap s ++ [Inst c [("A", b); ("B", a)]])
                      (st_trace s) in
      py_binop op a b s = Ok (VRef l) s1 /\
      forall n args kw,
        call numpy_available (S n) (VRef l) args kw s1
        = (log (Event l args kw) ;;;
           x <- call numpy_available n b args kw ;;
           y <- call numpy_available n a args kw ;;
           py_binop (mirror op) x y) s1) /\
  (forall numpy_available,
      (exists s', arithmetic_example numpy_available Add 3 4 empty_state
                  = Ok (VInt 7) s') /\
      (exists s', arithmetic_example numpy_available Mul 3 4 empty_state
                  = Ok (VInt 12) s') /\
      (exists s', arithmetic_example numpy_available Pow 3 4 empty_state
                  = Ok (VInt 81) s') /\
      (exists s', arithmetic_example numpy_available Lt 3 4 empty_state
                  = Ok (VBool true) s')).
Proof.
  split; [|split; [|intros np; repeat split; by eexists]].
  - intros np op c n1 n2 s a b Hc Hn Ha Hb Hcmp l s1.
    pose proof (isinstance_OpFunction_Function _ _ Ha) as Ha'.
    assert (Hd : py_binop op a b s = dispatch (forward op) a b s).
    { unfold py_binop, bind, get_heap. rewrite Ha.
      destruct (is_comparison op) eqn:Ec.
      - rewrite (Hcmp eq_refl). by rewrite !andb_false_r.
      - by rewrite andb_false_r. }
    rewrite Hd.
    assert (Hnew : dispatch (forward op) a b s = Ok (VRef l) s1).
    { destruct op; try discriminate; injection Hc as <-;
        injection Hn as <- <-; cbn [forward dispatch].
      - unfold OpFunction__add__, bind.
        rewrite asfunction_function by exact Hb.
        by apply new_binary_positional.
      - unfold OpFunction__mul__, bind.
        rewrite asfunction_function by exact Hb.
        by apply new_binary_positional.
      - unfold OpFunction__pow__, bind.
        rewrite asfunction_function by exact Hb.
        by apply new_Power_keywords.
      - by apply new_binary_positional.
      - by apply new_binary_positional.
      - by apply new_binary_positional.
      - by apply new_binary_positional.
      - by apply new_binary_positional.
      - by apply new_binary_positional. }
    split; [exact Hnew|]. intros n args kw.
    destruct op; try discriminate; injection Hc as <-;
      injection Hn as <- <-;
      (eapply call_binary;
       [apply lookup_fresh|reflexivity|reflexivity|reflexivity|reflexivity]).
  - intros np op c s a b Hop Hc Ha Hb Hp l s1.
    pose proof (isinstance_OpFunction_Function _ _ Ha) as Ha'.
    pose proof (isinstance_OpFunction_Function _ _ Hb) as Hb'.
    assert (Hd : py_binop op a b s = dispatch (reflected op) b a s).
    { unfold py_binop, bind, get_heap. by rewrite Ha, Hb, Hop, Hp. }
    rewrite Hd.
    assert (Hnew : dispatch (reflected op) b a s = Ok (VRef l) s1).
    { destruct op; try discriminate; injection Hc as <-;
        cbn [reflected dispatch]; by apply new_binary_positional. }
    split; [exact Hnew|]. intros n args kw.
    destruct op; try discriminate; injection Hc as <-;
      (eapply call_binary;
       [apply lookup_fresh|reflexivity|reflexivity|reflexivity|reflexivity]).
Qed.

Lemma operator_builds_node_witness :
  let s := State [Inst OpFunction []; Inst OpConstant [("value", VInt 1)]]
                 [] in
  let sum := State [Inst OpFunction []; Inst OpConstant [("value", VInt 1)];
                    Inst Sum [("one", VRef 1); ("two", VRef 0)]] [] in
  let greater :=
    State [Inst OpFunction []; Inst OpConstant [("value", VInt 1)];
           Inst Greater [("A", VRef 1); ("B", VRef 0)]] [] in
  (py_binop Add (VRef 1) (VRef 0) s = Ok (VRef 2) sum /\
   forall n args kw,
     call false (S n) (VRef 2) args kw sum
     = (log (Event 2 args kw) ;;;
        x <- call false n (VRef 1) args kw ;;
        y <- call false n (VRef 0) args kw ;;
        py_binop Add x y) sum) /\
  (py_binop Lt (VRef 0) (VRef 1) s = Ok (VRef 2) greater /\
   forall n args kw,
     call false (S n) (VRef 2) args kw greater
     = (log (Event 2 args kw) ;;;
        x <- call false n (VRef 1) args kw ;;
        y <- call false n (VRef 0) args kw ;;
        py_binop Gt x y) greater).
Proof.
  intros s sum greater.
  destruct operator_builds_node as (H1 & H2 & _). split.
  - apply (H1 false Add Sum "one" "two" s (VRef 1) (VRef 0));
      reflexivity || discriminate.
  - apply (H2 false Lt Greater s (VRef 0) (VRef 1)); reflexivity.
Defined.

(** X6: in Python 3 the operator [/] looks for [__truediv__], and
    [OpFunction] defines [__div__] and [__rdiv__] only.  So [a / b] raises
    [TypeError] as soon as one operand is an [OpFunction] instance, and
    allocates nothing.  The method [__div__] itself, called by name, still
    builds a [Quotient] node, which divides the results of its operands. *)
Theorem division_operator_raises :
  (forall s a b,
      isinstance (st_heap s) a OpFunction = true \/
      isinstance (st_heap s) b OpFunction = true ->
      py_binop TrueDiv a b s = Raise TypeError s) /\
  (forall numpy_available s a b,
      isinstance (st_heap s) a Function = true ->
      isinstance (st_heap s) b Function = true ->
      exists l s1,
        OpFunction__div__ a b s = Ok (VRef l) s1 /\
        forall n args kw,
          call numpy_available (S n) (VRef l) args kw s1
          = (log (Event l args kw) ;;;
             x <- call numpy_available n a args kw ;;
             y <- call numpy_available n b args kw ;;
             py_binop TrueDiv x y) s1).
Proof.
  split.
  - intros s a b H. unfold py_binop, bind, get_heap. cbn [is_comparison].
    rewrite andb_false_r. cbn [andb].
    destruct (isinstance (st_heap s) a OpFunction) eqn:Ha; [reflexivity|].
    destruct H as [H|H]; [discriminate|]. by rewrite H.
  - intros np s a b Ha Hb. unfold OpFunction__div__, bind.
    rewrite asfunction_function by exact Hb.
    rewrite (new_binary_positional Quotient "one" "two" a b s eq_refl Ha Hb).
    eexists _, _. split; [reflexivity|]. intros n args kw.
    eapply call_binary;
      [apply lookup_fresh|reflexivity|reflexivity|reflexivity|reflexivity].
Qed.

Lemma division_operator_raises_witness :
  let s := State [Inst OpConstant [("value", VInt 6)]] [] in
  py_binop TrueDiv (VRef 0) (VInt 3) s = Raise TypeError s.
Proof.
  intros s. apply (proj1 division_operator_raises s (VRef 0) (VInt 3)).
  left. reflexivity.
Defined.

(** ** Negation *)

Lemma new_Neg (s : state) :
  new Neg [] [] s
  = Ok (VRef (List.length (st_heap s)))
       (State (st_heap s
               ++ [Inst Neg [("args", VTuple []); ("kwargs", VDict [])]])
              (st_trace s)).
Proof.
  destruct s as [h t]. cbn [st_heap st_trace].
  unfold new, bind at 1. rewrite alloc_eq. unfold bind at 1.
  cbn [init]. unfold bind at 1. cbn -[setattr]. unfold bind at 1.
  erewrite setattr_eq by apply lookup_fresh.
  rewrite insert_fresh. cbn -[setattr].
  erewrite setattr_eq by apply lookup_fresh.
  by rewrite insert_fresh.
Qed.

Lemma neg_node (s : state) (a : value) :
  isinstance (st_heap s) a Function = true ->
  OpFunction__neg__ a s
  = Ok (VRef (S (List.length (st_heap s))))
       (State (st_heap s
               ++ [Inst Neg [("args", VTuple []); ("kwargs", VDict [])];
                   Inst ComposedFunction
                        [("a", a); ("b", VRef (List.length (st_heap s)))]])
              (st_trace s)).
Proof.
  intros Ha. unfold OpFunction__neg__, bind. rewrite new_Neg.
  rewrite or_nodes.
  - cbn [st_heap st_trace]. rewrite length_app. cbn [List.length].
    replace (List.length (st_heap s) + 1)%nat
      with (S (List.length (st_heap s))) by lia.
    by rewrite <- app_assoc.
  - cbn [st_heap]. by apply isinstance_old.
  - cbn [st_heap]. apply isinstance_fresh.
Qed.

Lemma call_Neg_int (numpy_available : bool) (n : nat) (l : loc)
    (attrs : list (string * value)) (z : Z) (s : state) :
  st_heap s !! l = Some (Inst Neg attrs) ->
  call numpy_available (S n) (VRef l) [VInt z] [] s
  = Ok (VInt (- z))
       (State (st_heap s) (st_trace s ++ [Event l [VInt z] []])).
Proof. intros H. by rewrite (call_enter _ _ _ _ _ _ _ _ H). Qed.

Lemma lookup_offset (h rest : heap) (k : nat) (o : obj) :
  rest !! k = Some o -> (h ++ rest) !! (List.length h + k)%nat = Some o.
Proof.
  intros H. rewrite lookup_app_r by lia.
  by replace (List.length h + k - List.length h)%nat with k by lia.
Qed.

Lemma negation_nodes (numpy_available : bool) (s : state) (a : value) :
  isinstance (st_heap s) a OpFunction = true ->
  exists l1 s1 l2 s2,
    py_neg a s = Ok (VRef l1) s1 /\
    py_neg (VRef l1) s1 = Ok (VRef l2) s2 /\
    forall n args kw z,
      (forall s3,
          call numpy_available n a args kw
               (State (st_heap s2) (st_trace s2 ++ [Event l1 args kw]))
          = Ok (VInt z) s3 ->
          exists s4,
            call numpy_available (S n) (VRef l1) args kw s2
            = Ok (VInt (- z)) s4) /\
      (forall s3,
          call numpy_available n a args kw
               (State (st_heap s2)
                      (st_trace s2 ++ [Event l2 args kw; Event l1 args kw]))
          = Ok (VInt z) s3 ->
          exists s4,
            call numpy_available (S (S n)) (VRef l2) args kw s2
            = Ok (VInt z) s4).
Proof.
  intros Ha. pose proof (isinstance_OpFunction_Function _ _ Ha) as Ha'.
  destruct s as [h t]. cbn [st_heap] in *.
  set (l0 := List.length h).
  set (neg := Inst Neg [("args", VTuple []); ("kwargs", VDict [])]).
  set (c1 := Inst ComposedFunction [("a", a); ("b", VRef l0)]).
  set (c2 := Inst ComposedFunction
               [("a", VRef (S l0)); ("b", VRef (S (S l0)))]).
  set (hf := h ++ [neg; c1; neg; c2]).
  assert (E1 : py_neg a (State h t)
               = Ok (VRef (S l0)) (State (h ++ [neg; c1]) t)).
  { unfold py_neg, bind, get_heap. cbn [st_heap]. rewrite Ha.
    by rewrite neg_node. }
  assert (I1 : isinstance (h ++ [neg; c1]) (VRef (S l0)) OpFunction = true).
  { unfold isinstance, instance_class. unfold l0.
    by rewrite lookup_fresh_next. }
  assert (E2 : py_neg (VRef (S l0)) (State (h ++ [neg; c1]) t)
               = Ok (VRef (S (S (S l0)))) (State hf t)).
  { unfold py_neg, bind, get_heap. cbn [st_heap]. rewrite I1.
    rewrite neg_node by (by apply isinstance_OpFunction_Function).
    cbn [st_heap st_trace]. rewrite length_app. cbn [List.length].
    replace (List.length h + 2)%nat with (S (S l0)) by (unfold l0; lia).
    unfold hf. by rewrite <- app_assoc. }
  assert (L0 : hf !! l0 = Some neg) by apply lookup_fresh.
  assert (L1 : hf !! S l0 = Some c1) by apply lookup_fresh_next.
  assert (L2 : hf !! S (S l0) = Some neg).
  { replace (S (S l0)) with (List.length h + 2)%nat by (unfold l0; lia).
    by apply lookup_offset. }
  assert (L3 : hf !! S (S (S l0)) = Some c2).
  { replace (S (S (S l0))) with (List.length h + 3)%nat by (unfold l0; lia).
    by apply lookup_offset. }
  assert (Neg1 : forall n args kw z t0 s3,
             call numpy_available n a args kw
                  (State hf (t0 ++ [Event (S l0) args kw])) = Ok (VInt z) s3 ->
             call numpy_available (S n) (VRef (S l0)) args kw (State hf t0)
             = Ok (VInt (- z))
                  (State (st_heap s3)
                         (st_trace s3 ++ [Event l0 [VInt z] []])) /\
             st_heap s3 !! S (S l0) = Some neg).
  { intros n args kw z t0 s3 E.
    rewrite (call_composed numpy_available n (S l0) _ a (VRef l0) args kw
               (State hf t0) L1 eq_refl eq_refl).
    unfold bind, log. cbn [st_heap st_trace]. rewrite E.
    destruct n as [|n]; [discriminate E|].
    pose proof (call_keeps_instance _ _ _ _ _ _ _ _ _ _ _ E L0) as K0.
    pose proof (call_keeps_instance _ _ _ _ _ _ _ _ _ _ _ E L2) as K2.
    split; [|exact K2].
    exact (call_Neg_int numpy_available n l0 _ z s3 K0). }
  exists (S l0), (State (h ++ [neg; c1]) t), (S (S (S l0))), (State hf t).
  split; [exact E1|]. split; [exact E2|].
  intros n args kw z. cbn [st_heap st_trace]. split.
  - intros s3 E. destruct (Neg1 n args kw z t s3 E) as [-> _]. by eexists.
  - intros s3 E.
    rewrite (call_composed numpy_available (S n) (S (S (S l0))) _
               (VRef (S l0)) (VRef (S (S l0))) args kw
               (State hf t) L3 eq_refl eq_refl).
    unfold bind at 1, log. cbn [st_heap st_trace]. unfold bind.
    assert (E' : call numpy_available n a args kw
                   (State hf ((t ++ [Event (S (S (S l0))) args kw])
                              ++ [Event (S l0) args kw]))
                 = Ok (VInt z) s3) by (by rewrite <- app_assoc).
    destruct (Neg1 n args kw z _ s3 E') as [-> K2].
    rewrite (call_Neg_int numpy_available n (S (S l0)) _ (- z)
               (State (st_heap s3) _) K2).
    rewrite Z.opp_involutive. by eexists.
Qed.

(** X7: unary minus pipes a node into a fresh [Neg].  For an [OpFunction]
    instance [a], [-a] and [-(-a)] are new nodes.  Without the numeric
    backend, whenever [a] evaluates to an integer [z], [-a] evaluates to
    [-z] and [-(-a)] evaluates to [z] again, with the same arguments.  When
    [a] is a constant that holds the integer [z], both evaluations return,
    with these results, with the backend and without it. *)
Theorem negation_round_trip (s : state) (a : value) :
  isinstance (st_heap s) a OpFunction = true ->
  exists l1 s1 l2 s2,
    py_neg a s = Ok (VRef l1) s1 /\
    py_neg (VRef l1) s1 = Ok (VRef l2) s2 /\
    (forall n args kw z,
        (forall s3,
            call false n a args kw
                 (State (st_heap s2) (st_trace s2 ++ [Event l1 args kw]))
            = Ok (VInt z) s3 ->
            exists s4,
              call false (S n) (VRef l1) args kw s2 = Ok (VInt (- z)) s4) /\
        (forall s3,
            call false n a args kw
                 (State (st_heap s2)
                        (st_trace s2 ++ [Event l2 args kw; Event l1 args kw]))
            = Ok (VInt z) s3 ->
            exists s4,
              call false (S (S n)) (VRef l2) args kw s2 = Ok (VInt z) s4)) /\
    (forall numpy_available z args kw,
        constant_at (st_heap s) a (VInt z) ->
        (exists s4,
            call numpy_available 2 (VRef l1) args kw s2
            = Ok (VInt (- z)) s4) /\
        (exists s4,
            call numpy_available 3 (VRef l2) args kw s2 = Ok (VInt z) s4)).
Proof.
  intros Ha.
  destruct (negation_nodes false s a Ha)
    as (l1 & s1 & l2 & s2 & E1 & E2 & G).
  exists l1, s1, l2, s2. split; [exact E1|]. split; [exact E2|].
  split; [exact G|].
  intros np z args kw C.
  destruct (negation_nodes np s a Ha)
    as (l1' & s1' & l2' & s2' & E1' & E2' & G').
  rewrite E1 in E1'. injection E1' as <- <-.
  rewrite E2 in E2'. injection E2' as <- <-.
  assert (C2 : constant_at (st_heap s2) a (VInt z)).
  { destruct C as (k & cls & attrs & -> & H & R).
    exists k, cls, attrs. split; [reflexivity|]. split; [|exact R].
    eapply (stable_keeps_instance (py_neg (VRef l1)) s1 s2);
      [apply stable_py_neg|exact E2|].
    eapply (stable_keeps_instance (py_neg (VRef k)) s s1);
      [apply stable_py_neg|exact E1|exact H]. }
  destruct s2 as [h2 t2]. cbn [st_heap st_trace] in *.
  destruct (constant_operand np h2 (t2 ++ [Event l1 args kw]) a (VInt z)
              args kw C2) as (ta & Ea).
  destruct (constant_operand np h2
              (t2 ++ [Event l2 args kw; Event l1 args kw]) a (VInt z)
              args kw C2) as (tb & Eb).
  destruct (G' 1%nat args kw z) as [Ga Gb].
  split; [exact (Ga _ Ea)|exact (Gb _ Eb)].
Qed.

Lemma negation_round_trip_witness :
  exists l1 s1 l2 s2 s3 s4,
    py_neg (VRef 0) (State [Inst OpIdentity []] []) = Ok (VRef l1) s1 /\
    py_neg (VRef l1) s1 = Ok (VRef l2) s2 /\
    call false 2 (VRef l1) [VInt 3] [] s2 = Ok (VInt (-3)) s3 /\
    call false 3 (VRef l2) [VInt 3] [] s2 = Ok (VInt 3) s4.
Proof.
  destruct (negation_round_trip (State [Inst OpIdentity []] []) (VRef 0)
              eq_refl) as (l1 & s1 & l2 & s2 & E1 & E2 & G & _).
  injection E1 as <- <-. injection E2 as <- <-.
  destruct (G 1%nat [VInt 3] [] 3) as [Ga Gb].
  destruct (Ga _ eq_refl) as (s3 & E3).
  destruct (Gb _ eq_refl) as (s4 & E4).
  eexists _, _, _, _, s3, s4.
  split; [reflexivity|]. split; [reflexivity|]. split; [exact E3|exact E4].
Defined.

Lemma reflected_subtraction_nodes (numpy_available : bool) (s : state)
    (w : Z)
    (a : value) :
  isinstance (st_heap s) a OpFunction = true ->
  exists l s1 k c,
    py_binop Sub (VInt w) a s = Ok (VRef l) s1 /\
    st_heap s1 !! l = Some (Inst Sum [("one", VRef k); ("two", VRef c)]) /\
    forall n args kw z s2,
      call numpy_available n a args kw
           (State (st_heap s1)
                  (st_trace s1 ++ [Event l args kw; Event k args kw;
                                   Event c args kw]))
      = Ok (VInt z) s2 ->
      exists s3,
        call numpy_available (S (S n)) (VRef l) args kw s1
        = Ok (VInt (w - z)) s3.
Proof.
  intros Ha. pose proof (isinstance_OpFunction_Function _ _ Ha) as Ha'.
  destruct s as [h t]. cbn [st_heap] in *.
  set (l0 := List.length h).
  set (kw0 := Inst Constant [("value", VInt w)]).
  set (neg := Inst Neg [("args", VTuple []); ("kwargs", VDict [])]).
  set (cmp := Inst ComposedFunction [("a", a); ("b", VRef (S l0))]).
  set (sum := Inst Sum [("one", VRef l0); ("two", VRef (S (S l0)))]).
  set (hf := h ++ [kw0; neg; cmp; sum]).
  assert (E : py_binop Sub (VInt w) a (State h t)
              = Ok (VRef (S (S (S l0)))) (State hf t)).
  { unfold py_binop, bind at 1, get_heap. cbn [st_heap]. rewrite Ha.
    cbn [isinstance instance_class andb dispatch reflected].
    unfold OpFunction__rsub__, bind at 1.
    rewrite asfunction_constant by reflexivity. cbn [st_heap st_trace].
    unfold bind at 1.
    rewrite neg_node by (by apply isinstance_old). cbn [st_heap st_trace].
    rewrite length_app. cbn [List.length].
    replace (List.length h + 1)%nat with (S l0) by (unfold l0; lia).
    rewrite <- app_assoc. cbn [app]. fold l0 kw0 neg cmp.
    rewrite (new_binary_positional Sum "one" "two" (VRef l0) (VRef (S (S l0)))
               _ eq_refl).
    - cbn [st_heap st_trace]. rewrite length_app. cbn [List.length].
      replace (List.length h + 3)%nat with (S (S (S l0)))
        by (unfold l0; lia).
      unfold hf. by rewrite <- app_assoc.
    - cbn [st_heap]. unfold isinstance, instance_class.
      unfold l0. by rewrite lookup_fresh.
    - cbn [st_heap]. unfold isinstance, instance_class.
      replace (S (S l0)) with (List.length h + 2)%nat by (unfold l0; lia).
      by rewrite (lookup_offset h [kw0; neg; cmp] 2 cmp eq_refl). }
  assert (L0 : hf !! l0 = Some kw0) by apply lookup_fresh.
  assert (L1 : hf !! S l0 = Some neg) by apply lookup_fresh_next.
  assert (L2 : hf !! S (S l0) = Some cmp).
  { replace (S (S l0)) with (List.length h + 2)%nat by (unfold l0; lia).
    by apply lookup_offset. }
  assert (L3 : hf !! S (S (S l0)) = Some sum).
  { replace (S (S (S l0))) with (List.length h + 3)%nat by (unfold l0; lia).
    by apply lookup_offset. }
  exists (S (S (S l0))), (State hf t), l0, (S (S l0)).
  split; [exact E|]. split; [exact L3|].
  intros n args kw z s2 Ea. cbn [st_heap st_trace] in Ea.
  rewrite (call_binary numpy_available (S n) (S (S (S l0))) Sum Add
             "one" "two" _ (VRef l0) (VRef (S (S l0))) args kw (State hf t)
             L3 eq_refl eq_refl eq_refl eq_refl).
  unfold bind at 1, log. cbn [st_heap st_trace]. unfold bind at 1.
  rewrite (call_constant numpy_available n l0 Constant _ (VInt w) args kw
             (State hf _) L0 (or_introl eq_refl) eq_refl).
  cbn [st_heap st_trace]. unfold bind at 1.
  rewrite (call_composed numpy_available n (S (S l0)) _ a (VRef (S l0))
             args kw (State hf _) L2 eq_refl eq_refl).
  unfold bind at 1, log. cbn [st_heap st_trace]. unfold bind at 1.
  rewrite <- !app_assoc. cbn [app]. rewrite Ea.
  destruct n as [|n]; [discriminate Ea|].
  pose proof (call_keeps_instance _ _ _ _ _ _ _ _ _ _ _ Ea L1) as K1.
  rewrite (call_Neg_int numpy_available n (S l0) _ z s2 K1).
  rewrite Z.sub_opp_r || rewrite <- Z.add_opp_r. by eexists.
Qed.

(** X8: the reflected subtraction works where the direct one does not.  For
    an integer [w] and an [OpFunction] instance [a], [w - a] is a [Sum] of
    the constant [w] and the pipe of [a] into [Neg].  Without the numeric
    backend, whenever [a] evaluates to an integer [z], the node evaluates
    to [w - z].  When [a] is a constant that holds the integer [z], the
    evaluation returns [w - z] with the backend and without it. *)
Theorem reflected_subtraction (s : state) (w : Z) (a : value) :
  isinstance (st_heap s) a OpFunction = true ->
  exists l s1 k c,
    py_binop Sub (VInt w) a s = Ok (VRef l) s1 /\
    st_heap s1 !! l = Some (Inst Sum [("one", VRef k); ("two", VRef c)]) /\
    (forall n args kw z s2,
        call false n a args kw
             (State (st_heap s1)
                    (st_trace s1 ++ [Event l args kw; Event k args kw;
                                     Event c args kw]))
        = Ok (VInt z) s2 ->
        exists s3,
          call false (S (S n)) (VRef l) args kw s1 = Ok (VInt (w - z)) s3) /\
    (forall numpy_available z args kw,
        constant_at (st_heap s) a (VInt z) ->
        exists s3,
          call numpy_available 3 (VRef l) args kw s1
          = Ok (VInt (w - z)) s3).
Proof.
  intros Ha.
  destruct (reflected_subtraction_nodes false s w a Ha)
    as (l & s1 & k & c & E & L & G).
  exists l, s1, k, c. split; [exact E|]. split; [exact L|].
  split; [exact G|].
  intros np z args kw C.
  destruct (reflected_subtraction_nodes np s w a Ha)
    as (l' & s1' & k' & c' & E' & L' & G').
  rewrite E in E'. injection E' as <- <-.
  rewrite L in L'. injection L' as <- <-.
  assert (C1 : constant_at (st_heap s1) a (VInt z)).
  { destruct C as (j & cls & attrs & -> & H & R).
    exists j, cls, attrs. split; [reflexivity|]. split; [|exact R].
    eapply (stable_keeps_instance (py_binop Sub (VInt w) (VRef j)) s s1);
      [apply stable_py_binop|exact E|exact H]. }
  destruct s1 as [h1 t1]. cbn [st_heap st_trace] in *.
  destruct (constant_operand np h1
              (t1 ++ [Event l args kw; Event k args kw; Event c args kw])
              a (VInt z) args kw C1) as (ta & Ea).
  exact (G' 1%nat args kw z _ Ea).
Qed.

Lemma reflected_subtraction_witness :
  exists l s1 s3,
    py_binop Sub (VInt 10) (VRef 0) (State [Inst OpIdentity []] [])
    = Ok (VRef l) s1 /\
    call false 3 (VRef l) [VInt 3] [] s1 = Ok (VInt 7) s3.
Proof.
  destruct (reflected_subtraction (State [Inst OpIdentity []] []) 10 (VRef 0)
              eq_refl) as (l & s1 & k & c & E & L & G & _).
  injection E as <- <-. injection L as <- <-.
  destruct (G 1%nat [VInt 3] [] 3 _ eq_refl) as (s3 & E3).
  eexists _, _, s3. split; [|exact E3]. reflexivity.
Defined.

(** ** Lifted lists and tuples *)

Lemma sequence_node_evaluates (numpy_available : bool) (c : class)
    (l m : loc) (cs vs : list value) (args : list value)
    (kw : list (string * value)) (s : state) :
  c = _List \/ c = _Tuple ->
  st_heap s !! l = Some (Inst c [("_elements", VRef m)]) ->
  st_heap s !! m = Some (MapIter cs) ->
  Forall2 (constant_at (st_heap s)) cs vs ->
  exists t',
    call numpy_available 2 (VRef l) args kw s
    = Ok (sequence_value c vs)
         (State (<[m:=MapIter []]> (st_heap s)) t').
Proof.
  intros Hc Hl Hm C.
  destruct (advance_constants numpy_available 0 m args kw cs vs
              (State (st_heap s) (st_trace s ++ [Event l args kw])) C Hm)
    as (t' & A).
  exists t'. rewrite (call_enter _ _ _ _ _ _ _ _ Hl). unfold bind at 1, log.
  destruct Hc as [-> | ->]; cbn [call_method sequence_value];
    unfold bind at 1;
    rewrite (getattr_state
               (State (st_heap s) (st_trace s ++ [Event l args kw]))
               l _ _ "_elements" (VRef m) Hl eq_refl);
    unfold call_each, bind, load; cbn [st_heap]; rewrite Hm;
    cbn [st_heap] in A; by rewrite A.
Qed.

(** X9: lifting a tuple literal of scalars and constant nodes gives a
    [_Tuple] node whose first evaluation, with any arguments, returns the
    tuple of the values in the order of the literal.  Like a lifted list it
    keeps its elements in a [map] object: the second evaluation returns the
    empty tuple. *)
Theorem lifted_tuple_evaluates (numpy_available : bool) (s : state)
    (xs vs : list value) (args : list value) (kw : list (string * value)) :
  Forall2 (leaf_value (st_heap s)) xs vs ->
  exists l s1 s2 s3,
    compound (VTuple xs) s = Ok (VRef l) s1 /\
    call numpy_available 2 (VRef l) args kw s1 = Ok (VTuple vs) s2 /\
    call numpy_available 2 (VRef l) args kw s2 = Ok (VTuple []) s3.
Proof.
  intros HF. destruct (each_leaves xs vs s HF) as (cs & ext & E & C).
  set (h1 := st_heap s ++ ext) in *.
  set (l := List.length h1).
  set (h2 := h1 ++ [Inst _Tuple [("_elements", VRef (S l))]; MapIter cs]).
  assert (Hl : h2 !! l = Some (Inst _Tuple [("_elements", VRef (S l))]))
    by apply lookup_fresh.
  assert (Hm : h2 !! S l = Some (MapIter cs)) by apply lookup_fresh_next.
  assert (C2 : Forall2 (constant_at h2) cs vs).
  { eapply Forall2_impl; [exact C|]. intros. by apply constant_at_old. }
  destruct (sequence_node_evaluates numpy_available _Tuple l (S l) cs vs
              args kw (State h2 (st_trace s)) (or_intror eq_refl) Hl Hm C2)
    as (t1 & E1).
  set (h3 := <[S l:=MapIter []]> h2) in *.
  assert (Hl3 : h3 !! l = Some (Inst _Tuple [("_elements", VRef (S l))])).
  { unfold h3. rewrite list_lookup_insert_ne by lia. exact Hl. }
  assert (Hm3 : h3 !! S l = Some (MapIter [])).
  { unfold h3. apply list_lookup_insert_eq. by eapply lookup_lt_Some. }
  destruct (sequence_node_evaluates numpy_available _Tuple l (S l) [] []
              args kw (State h3 t1) (or_intror eq_refl) Hl3 Hm3
              (@List.Forall2_nil _ _ _)) as (t2 & E2).
  exists l, (State h2 (st_trace s)), (State h3 t1),
    (State (<[S l:=MapIter []]> h3) t2).
  split; [|split; [exact E1|exact E2]].
  cbn [compound]. unfold bind. rewrite E.
  by rewrite (new_sequence _Tuple cs _ (or_intror eq_refl)).
Qed.

Lemma lifted_tuple_evaluates_witness :
  exists l s1 s2 s3,
    compound (VTuple [VInt 1; VStr "a"]) empty_state = Ok (VRef l) s1 /\
    call false 2 (VRef l) [] [] s1 = Ok (VTuple [VInt 1; VStr "a"]) s2 /\
    call false 2 (VRef l) [] [] s2 = Ok (VTuple []) s3.
Proof.
  apply (lifted_tuple_evaluates false empty_state [VInt 1; VStr "a"]
           [VInt 1; VStr "a"] [] []).
  constructor; [|constructor; [|constructor]]; left; split; reflexivity.
Defined.

(** ** Indexing *)

Lemma new_apply (c : class) (args : list value) (kw : list (string * value))
    (s : state) :
  In c [Cos; Sin; Exp; Sqrt; SumCall; Indexing; Attribute; AsType; Apply] ->
  new c args kw s
  = Ok (VRef (List.length (st_heap s)))
       (State (st_heap s
               ++ [Inst c [("args", VTuple args);
                           ("kwargs", kwargs_dict kw)]])
              (st_trace s)).
Proof.
  destruct s as [h t]. cbn [st_heap st_trace]. intros Hc.
  unfold new, bind at 1. rewrite alloc_eq. unfold bind at 1.
  assert (E : init c (VRef (List.length h)) args kw
                   (State (h ++ [Inst c []]) t)
              = Ok tt (State (h ++ [Inst c [("args", VTuple args);
                                            ("kwargs", kwargs_dict kw)]]) t)).
  { cbn in Hc.
    repeat (destruct Hc as [<- | Hc]; [
      cbn [init]; unfold bind at 1;
      (erewrite setattr_eq by apply lookup_fresh);
      rewrite insert_fresh; cbn [set_key];
      (erewrite setattr_eq by apply lookup_fresh);
      by rewrite insert_fresh |]).
    contradiction. }
  by rewrite E.
Qed.

Lemma seq_index_inside (vs : list value) (i : Z) (j : nat) (s : state) :
  (j < List.length vs)%nat ->
  i = Z.of_nat j \/ i = Z.of_nat j - Z.of_nat (List.length vs) ->
  seq_index vs i s = Ok (nth j vs VNone) s.
Proof.
  intros Hj Hi. unfold seq_index.
  destruct Hi as [-> | ->].
  - replace (Z.of_nat j <? 0) with false by (symmetry; apply Z.ltb_ge; lia).
    replace ((0 <=? Z.of_nat j) && (Z.of_nat j <? Z.of_nat (List.length vs)))
      with true
      by (symmetry; apply andb_true_intro; split;
          [apply Z.leb_le|apply Z.ltb_lt]; lia).
    by rewrite Nat2Z.id.
  - replace (Z.of_nat j - Z.of_nat (List.length vs) <? 0) with true
      by (symmetry; apply Z.ltb_lt; lia).
    replace (Z.of_nat j - Z.of_nat (List.length vs)
             + Z.of_nat (List.length vs)) with (Z.of_nat j) by lia.
    replace ((0 <=? Z.of_nat j) && (Z.of_nat j <? Z.of_nat (List.length vs)))
      with true
      by (symmetry; apply andb_true_intro; split;
          [apply Z.leb_le|apply Z.ltb_lt]; lia).
    by rewrite Nat2Z.id.
Qed.

Lemma seq_index_outside (vs : list value) (i : Z) (s : state) :
  i < - Z.of_nat (List.length vs) \/ Z.of_nat (List.length vs) <= i ->
  seq_index vs i s = Raise IndexError s.
Proof.
  intros Hi. unfold seq_index.
  destruct (i <? 0) eqn:Ei.
  - apply Z.ltb_lt in Ei.
    replace ((0 <=? i + Z.of_nat (List.length vs))
             && (i + Z.of_nat (List.length vs)
                 <? Z.of_nat (List.length vs))) with false; [reflexivity|].
    symmetry. apply andb_false_iff. left. apply Z.leb_gt. lia.
  - apply Z.ltb_ge in Ei.
    replace ((0 <=? i) && (i <? Z.of_nat (List.length vs))) with false;
      [reflexivity|].
    symmetry. apply andb_false_iff. right. apply Z.ltb_ge. lia.
Qed.

Lemma call_Indexing_sequence (numpy_available : bool) (n : nat) (k : loc)
    (i : Z) (vs : list value) (s : state) :
  st_heap s !! k
  = Some (Inst Indexing [("args", VTuple [VInt i]); ("kwargs", VDict [])]) ->
  call numpy_available (S n) (VRef k) [VList vs] [] s
  = seq_index vs i
      (State (st_heap s) (st_trace s ++ [Event k [VList vs] []])).
Proof.
  intros H. rewrite (call_enter _ _ _ _ _ _ _ _ H).
  cbn [call_method]. unfold bind at 1, log. unfold bind at 1.
  unfold operand, bind at 1. cbn -[getattr py_getitem].
  set (s1 := State (st_heap s) (st_trace s ++ [Event k [VList vs] []])).
  unfold bind at 1.
  rewrite (getattr_state s1 k _ _ "args" (VTuple [VInt i]) H eq_refl).
  unfold bind at 1.
  by rewrite (getattr_state s1 k _ _ "kwargs" (VDict []) H eq_refl).
Qed.

Lemma lifted_list_piped (numpy_available : bool) (s : state)
    (xs vs : list value) (c : class) (cargs : list value)
    (args : list value) (kw : list (string * value)) :
  In c [Cos; Sin; Exp; Sqrt; SumCall; Indexing; Attribute; AsType; Apply] ->
  Forall2 (leaf_value (st_heap s)) xs vs ->
  exists l s1 k p s2 s3,
    compound (VList xs) s = Ok (VRef l) s1 /\
    (f <- new c cargs [] ;; OpFunction__or__ (VRef l) f) s1
    = Ok (VRef p) s2 /\
    st_heap s3 !! k
    = Some (Inst c [("args", VTuple cargs); ("kwargs", VDict [])]) /\
    call numpy_available 3 (VRef p) args kw s2
    = call numpy_available 2 (VRef k) [VList vs] [] s3.
Proof.
  intros Hc HF. destruct (each_leaves xs vs s HF) as (cs & ext & E & C).
  set (h1 := st_heap s ++ ext) in *.
  set (l := List.length h1).
  set (h2 := h1 ++ [Inst _List [("_elements", VRef (S l))]; MapIter cs]).
  set (k := List.length h2).
  set (h3 := h2 ++ [Inst c [("args", VTuple cargs); ("kwargs", VDict [])]]).
  set (p := List.length h3).
  set (h4 := h3 ++ [Inst ComposedFunction [("a", VRef l); ("b", VRef k)]]).
  assert (Hl2 : h2 !! l = Some (Inst _List [("_elements", VRef (S l))]))
    by apply lookup_fresh.
  assert (Hm2 : h2 !! S l = Some (MapIter cs)) by apply lookup_fresh_next.
  assert (Hl : h4 !! l = Some (Inst _List [("_elements", VRef (S l))])).
  { unfold h4, h3. by do 2 apply lookup_old. }
  assert (Hm : h4 !! S l = Some (MapIter cs)).
  { unfold h4, h3. by do 2 apply lookup_old. }
  assert (Hk : h4 !! k = Some (Inst c [("args", VTuple cargs);
                                       ("kwargs", VDict [])])).
  { unfold h4. apply lookup_old. apply lookup_fresh. }
  assert (Hp : h4 !! p = Some (Inst ComposedFunction
                                 [("a", VRef l); ("b", VRef k)]))
    by apply lookup_fresh.
  assert (C4 : Forall2 (constant_at h4) cs vs).
  { eapply Forall2_impl; [exact C|]. intros. unfold h4, h3, h2.
    by do 3 apply constant_at_old. }
  assert (Hkl : k = S (S l)).
  { unfold k, h2. rewrite length_app. cbn [List.length]. unfold l. lia. }
  destruct (sequence_node_evaluates numpy_available _List l (S l) cs vs
              args kw (State h4 (st_trace s ++ [Event p args kw]))
              (or_introl eq_refl) Hl Hm C4) as (t1 & E1).
  exists l, (State h2 (st_trace s)), k, p, (State h4 (st_trace s)),
    (State (<[S l:=MapIter []]> h4) t1).
  split; [|split; [|split]].
  - cbn [compound]. unfold bind. rewrite E.
    by rewrite (new_sequence _List cs _ (or_introl eq_refl)).
  - unfold bind at 1.
    rewrite (new_apply c cargs [] (State h2 (st_trace s))) by exact Hc.
    cbn [st_heap st_trace kwargs_dict map]. fold k h3.
    rewrite or_nodes; [reflexivity| |].
    + cbn [st_heap]. unfold h3, isinstance, instance_class.
      by rewrite (lookup_old h2 _ l _ Hl2).
    + cbn [st_heap]. unfold h3, k. rewrite isinstance_fresh.
      cbn in Hc. by repeat (destruct Hc as [<- | Hc]; [reflexivity|]).
  - cbn [st_heap]. rewrite list_lookup_insert_ne by lia. exact Hk.
  - rewrite (call_composed numpy_available 2 p _ (VRef l) (VRef k) args kw
               (State h4 (st_trace s)) Hp eq_refl eq_refl).
    unfold bind at 1, log. cbn [st_heap st_trace].
    unfold bind at 1. cbn [sequence_value] in E1. by rewrite E1.
Qed.

Lemma indexing_lifted_list (numpy_available : bool) (s : state)
    (xs vs : list value) (i : Z) (args : list value)
    (kw : list (string * value)) :
  Forall2 (leaf_value (st_heap s)) xs vs ->
  exists l s1 p s2 s3,
    compound (VList xs) s = Ok (VRef l) s1 /\
    OpFunction__getitem__ (VRef l) (VInt i) s1 = Ok (VRef p) s2 /\
    call numpy_available 3 (VRef p) args kw s2 = seq_index vs i s3.
Proof.
  intros HF.
  destruct (lifted_list_piped numpy_available s xs vs Indexing [VInt i]
              args kw ltac:(cbn; tauto) HF)
    as (l & s1 & k & p & s2 & s3 & E1 & E2 & Hk & E3).
  exists l, s1, p, s2,
    (State (st_heap s3) (st_trace s3 ++ [Event k [VList vs] []])).
  split; [exact E1|]. split; [exact E2|].
  rewrite E3. by apply call_Indexing_sequence.
Qed.

(** X10: [node[i]] on a lifted list of scalars and constant nodes builds
    [node | Indexing(i)]; evaluated with any arguments it returns element
    [i] of the list of values, counted from the end for a negative [i], and
    raises [IndexError] when [i] lies outside the list. *)
Theorem lifted_list_indexing (numpy_available : bool) (s : state)
    (xs vs : list value) (i : Z) (args : list value)
    (kw : list (string * value)) :
  Forall2 (leaf_value (st_heap s)) xs vs ->
  exists l s1 p s2,
    compound (VList xs) s = Ok (VRef l) s1 /\
    OpFunction__getitem__ (VRef l) (VInt i) s1 = Ok (VRef p) s2 /\
    (forall j : nat,
       (j < List.length vs)%nat ->
       i = Z.of_nat j \/ i = Z.of_nat j - Z.of_nat (List.length vs) ->
       exists s3,
         call numpy_available 3 (VRef p) args kw s2
         = Ok (nth j vs VNone) s3) /\
    (i < - Z.of_nat (List.length vs) \/ Z.of_nat (List.length vs) <= i ->
     exists s3,
       call numpy_available 3 (VRef p) args kw s2 = Raise IndexError s3).
Proof.
  intros HF.
  destruct (indexing_lifted_list numpy_available s xs vs i args kw HF)
    as (l & s1 & p & s2 & s3 & E1 & E2 & E3).
  exists l, s1, p, s2. repeat split; try assumption.
  - intros j Hj Hi. exists s3. rewrite E3. by apply seq_index_inside.
  - intros Hi. exists s3. rewrite E3. by apply seq_index_outside.
Qed.

Lemma lifted_list_indexing_witness :
  exists l s1 p s2,
    compound (VList [VInt 10; VInt 20; VInt 30]) empty_state
    = Ok (VRef l) s1 /\
    OpFunction__getitem__ (VRef l) (VInt (-1)) s1 = Ok (VRef p) s2 /\
    (forall j : nat,
       (j < 3)%nat ->
       -1 = Z.of_nat j \/ -1 = Z.of_nat j - 3 ->
       exists s3,
         call false 3 (VRef p) [] [] s2
         = Ok (nth j [VInt 10; VInt 20; VInt 30] VNone) s3) /\
    (-1 < -3 \/ 3 <= -1 ->
     exists s3, call false 3 (VRef p) [] [] s2 = Raise IndexError s3).
Proof.
  apply (lifted_list_indexing false empty_state
           [VInt 10; VInt 20; VInt 30] [VInt 10; VInt 20; VInt 30] (-1)
           [] []).
  constructor; [|constructor; [|constructor; [|constructor]]];
    left; split; reflexivity.
Defined.

(** ** Apply-style nodes *)

(** X11: the [__call__] of an apply-style node ([Neg], [Not], [Cos], [Sin],
    [Exp], [Sqrt], [SumCall], [Indexing], [Attribute], [AsType], [Int],
    [Float], [Bool]) takes exactly one operand: invoked with no positional
    argument or with more than one, and no keyword, it raises [TypeError]
    before anything is computed. *)
Theorem apply_node_needs_one_operand (numpy_available : bool) (n : nat)
    (l : loc) (c : class) (attrs : list (string * value))
    (args : list value) (s : state) :
  apply_style c = true ->
  st_heap s !! l = Some (Inst c attrs) ->
  List.length args <> 1%nat ->
  call numpy_available (S n) (VRef l) args [] s
  = Raise TypeError (State (st_heap s) (st_trace s ++ [Event l args []])).
Proof.
  intros Hc H Hn. rewrite (call_enter _ _ _ _ _ _ _ _ H).
  unfold bind at 1, log.
  destruct args as [|x [|y args]]; [|by cbn in Hn|];
    by destruct c; try discriminate Hc.
Qed.

Lemma apply_node_needs_one_operand_witness :
  call false 1 (VRef 0) [VInt 1; VInt 2] []
       (State [Inst Neg [("args", VTuple []); ("kwargs", VDict [])]] [])
  = Raise TypeError
      (State [Inst Neg [("args", VTuple []); ("kwargs", VDict [])]]
             [Event 0 [VInt 1; VInt 2] []]).
Proof.
  apply (apply_node_needs_one_operand false 0 0 Neg
           [("args", VTuple []); ("kwargs", VDict [])] [VInt 1; VInt 2]
           (State [Inst Neg [("args", VTuple []); ("kwargs", VDict [])]] []));
    [reflexivity|reflexivity|cbn; lia].
Defined.

(** ** Lifting *)

Lemma compound_node (v : value) (s : state) :
  isinstance (st_heap s) v Function = true -> compound v s = Ok v s.
Proof.
  intros H. destruct v; try discriminate H.
  cbn [compound]. by apply asfunction_function.
Qed.

(** X12: lifting any value either returns a node, that is an instance of
    [Function] which a further lifting returns unchanged in an unchanged
    store, or it raises [TypeError], and that only for a value that
    contains a dictionary. *)
Theorem lifting_returns_node (v : value) (s : state) :
  match compound v s with
  | Ok r s' =>
      isinstance (st_heap s') r Function = true /\ compound r s' = Ok r s'
  | Raise e _ => e = TypeError /\ dict_free v = false
  | OutOfFuel | Unmodelled => False
  end.
Proof.
  pose proof (compound_outcome v s) as O.
  destruct (compound v s) as [r s'|e s'| |] eqn:E; cbn in O; try contradiction.
  - pose proof (compound_is_function v s s' r E) as F.
    split; [exact F|]. by apply compound_node.
  - split; [exact O|].
    destruct (dict_free v) eqn:D; [|reflexivity].
    destruct (compound_dict_free v D s) as (r & s1 & E1). congruence.
Qed.

(** ** Conversions *)

Lemma conversion_node (c : class) (s : state) (a : value) :
  In c [Int; Float; Bool] ->
  isinstance (st_heap s) a Function = true ->
  (f <- new c [] [] ;; OpFunction__or__ a f) s
  = Ok (VRef (S (List.length (st_heap s))))
       (State (st_heap s
               ++ [Inst c [];
                   Inst ComposedFunction
                        [("a", a); ("b", VRef (List.length (st_heap s)))]])
              (st_trace s)).
Proof.
  intros Hc Ha. unfold bind at 1.
  assert (E : new c [] [] s
              = Ok (VRef (List.length (st_heap s)))
                   (State (st_heap s ++ [Inst c []]) (st_trace s))).
  { destruct s as [h t]. cbn in Hc.
    by destruct Hc as [<- | [<- | [<- | []]]]. }
  rewrite E, or_nodes.
  - cbn [st_heap st_trace]. rewrite length_app. cbn [List.length].
    replace (List.length (st_heap s) + 1)%nat
      with (S (List.length (st_heap s))) by lia.
    by rewrite <- app_assoc.
  - cbn [st_heap]. by apply isinstance_old.
  - cbn [st_heap]. rewrite isinstance_fresh. cbn in Hc.
    by destruct Hc as [<- | [<- | [<- | []]]].
Qed.

(** X13: [__int__], [__float__] and [__bool__] of an operator node return a
    composed node, not a number, so the builtins [int], [float] and [bool]
    (and with it every truth test) raise [TypeError] on a node, after the
    two objects have been built.  The node of [__int__] itself is sound:
    whenever the operand evaluates to a number, it evaluates to that number
    as an integer. *)
Theorem conversion_of_node (numpy_available : bool) (s : state) (a : value) :
  isinstance (st_heap s) a OpFunction = true ->
  let built c :=
    State (st_heap s
           ++ [Inst c [];
               Inst ComposedFunction
                    [("a", a); ("b", VRef (List.length (st_heap s)))]])
          (st_trace s) in
  let l := S (List.length (st_heap s)) in
  py_int a s = Raise TypeError (built Int) /\
  py_float a s = Raise TypeError (built Float) /\
  truth a s = Raise TypeError (built Bool) /\
  OpFunction__int__ a s = Ok (VRef l) (built Int) /\
  forall n args kw x u s3,
    call numpy_available n a args kw
         (State (st_heap (built Int))
                (st_trace (built Int) ++ [Event l args kw]))
    = Ok x s3 ->
    as_num x = Some u ->
    exists s4,
      call numpy_available (S n) (VRef l) args kw (built Int)
      = Ok (VInt (num_val u)) s4.
Proof.
  intros Ha built l.
  pose proof (isinstance_OpFunction_Function _ _ Ha) as Ha'.
  repeat split.
  - unfold py_int, bind at 1, get_heap. rewrite Ha.
    unfold OpFunction__int__, bind at 1.
    by rewrite (conversion_node Int s a) by (cbn; tauto).
  - unfold py_float, bind at 1, get_heap. rewrite Ha.
    unfold OpFunction__float__, bind at 1.
    by rewrite (conversion_node Float s a) by (cbn; tauto).
  - unfold truth, bind at 1, get_heap. rewrite Ha.
    unfold OpFunction__bool__, bind at 1.
    by rewrite (conversion_node Bool s a) by (cbn; tauto).
  - unfold OpFunction__int__. by apply conversion_node; [cbn; tauto|].
  - intros n args kw x u s3 E Hx.
    assert (L0 : st_heap (built Int) !! List.length (st_heap s)
                 = Some (Inst Int [])) by apply lookup_fresh.
    assert (L1 : st_heap (built Int) !! l
                 = Some (Inst ComposedFunction
                           [("a", a);
                            ("b", VRef (List.length (st_heap s)))]))
      by apply lookup_fresh_next.
    rewrite (call_composed numpy_available n l _ a
               (VRef (List.length (st_heap s))) args kw (built Int)
               L1 eq_refl eq_refl).
    unfold bind at 1, log. unfold bind at 1. rewrite E.
    destruct n as [|n]; [discriminate E|].
    pose proof (call_keeps_instance _ _ _ _ _ _ _ _ _ _ _ E L0) as K0.
    rewrite (call_enter _ _ _ _ _ _ _ _ K0).
    unfold bind at 1, log. cbn [call_method].
    unfold operand, bind at 1. cbn -[py_int].
    unfold py_int, bind, get_heap.
    rewrite (number_not_instance _ x u _ Hx).
    destruct x; try discriminate Hx; rewrite Hx; by eexists.
Qed.

Lemma conversion_of_node_witness :
  let s := State [Inst OpConstant [("value", VFloat 2)]] [] in
  let built :=
    State [Inst OpConstant [("value", VFloat 2)]; Inst Int [];
           Inst ComposedFunction [("a", VRef 0); ("b", VRef 1)]] [] in
  py_int (VRef 0) s = Raise TypeError built /\
  OpFunction__int__ (VRef 0) s = Ok (VRef 2) built /\
  exists s4, call false 2 (VRef 2) [] [] built = Ok (VInt 2) s4.
Proof.
  destruct (conversion_of_node false
              (State [Inst OpConstant [("value", VFloat 2)]] []) (VRef 0)
              eq_refl) as (H1 & _ & _ & H4 & H5).
  split; [exact H1|]. split; [exact H4|].
  apply (H5 1%nat [] [] (VFloat 2) (NFloat 2)
            (State [Inst OpConstant [("value", VFloat 2)]; Inst Int [];
                    Inst ComposedFunction [("a", VRef 0); ("b", VRef 1)]]
                   [Event 2 [] []; Event 0 [] []]));
    reflexivity.
Defined.

(** ** Sums *)

Lemma fold_sum_ext (xs : list value) (m m' : M value) :
  (forall s, m s = m' s) ->
  forall s,
    fold_left (fun acc x => a <- acc ;; py_binop Add a x) xs m s
    = fold_left (fun acc x => a <- acc ;; py_binop Add a x) xs m' s.
Proof.
  revert m m'. induction xs as [|x xs IH]; intros m m' H s; cbn [fold_left].
  - apply H.
  - apply IH. intros s0. unfold bind. by rewrite H.
Qed.

Lemma py_sum_integers (zs : list Z) (s : state) :
  py_sum (VList (map VInt zs)) s = Ok (VInt (fold_left Z.add zs 0)) s.
Proof.
  cbn [py_sum]. generalize 0 as acc. revert s.
  induction zs as [|z zs IH]; intros s acc; cbn [map fold_left];
    [reflexivity|].
  rewrite <- IH. apply fold_sum_ext. intros s0. unfold bind, ret.
  by rewrite (py_binop_numbers Add (VInt acc) (VInt z) (NInt acc) (NInt z)).
Qed.

(** X14: [node.sum()] pipes the node into [SumCall].  On a lifted list of
    integers the scalar fallback adds the elements with the builtin [sum];
    with the numeric backend available the node asks the native list for
    its [sum] method and raises [AttributeError]. *)
Theorem lifted_list_sum (s : state) (xs : list value) (zs : list Z)
    (args : list value) (kw : list (string * value)) :
  Forall2 (leaf_value (st_heap s)) xs (map VInt zs) ->
  exists l s1 p s2,
    compound (VList xs) s = Ok (VRef l) s1 /\
    OpFunction_sum (VRef l) [] [] s1 = Ok (VRef p) s2 /\
    (exists s3,
       call false 3 (VRef p) args kw s2
       = Ok (VInt (fold_left Z.add zs 0)) s3) /\
    (exists s3,
       call true 3 (VRef p) args kw s2 = Raise AttributeError s3).
Proof.
  intros HF.
  destruct (lifted_list_piped false s xs (map VInt zs) SumCall []
              args kw ltac:(cbn; tauto) HF)
    as (l & s1 & k & p & s2 & s3 & E1 & E2 & Hk & E3).
  destruct (lifted_list_piped true s xs (map VInt zs) SumCall []
              args kw ltac:(cbn; tauto) HF)
    as (l' & s1' & k' & p' & s2' & s3' & E1' & E2' & Hk' & E3').
  rewrite E1 in E1'. injection E1' as <- <-.
  rewrite E2 in E2'. injection E2' as <- <-.
  exists l, s1, p, s2. split; [exact E1|]. split; [exact E2|]. split.
  - eexists. rewrite E3, (call_enter _ _ _ _ _ _ _ _ Hk).
    unfold bind at 1, log. cbn [call_method].
    unfold operand, bind at 1. cbn -[py_sum map].
    apply py_sum_integers.
  - eexists. rewrite E3', (call_enter _ _ _ _ _ _ _ _ Hk').
    unfold bind at 1, log. reflexivity.
Qed.

Lemma lifted_list_sum_witness :
  exists l s1 p s2,
    compound (VList [VInt 1; VInt 2; VInt 3]) empty_state = Ok (VRef l) s1 /\
    OpFunction_sum (VRef l) [] [] s1 = Ok (VRef p) s2 /\
    (exists s3, call false 3 (VRef p) [] [] s2 = Ok (VInt 6) s3) /\
    (exists s3, call true 3 (VRef p) [] [] s2 = Raise AttributeError s3).
Proof.
  apply (lifted_list_sum empty_state [VInt 1; VInt 2; VInt 3] [1; 2; 3]
           [] []).
  constructor; [|constructor; [|constructor; [|constructor]]];
    left; split; reflexivity.
Defined.

(** ** Constructors *)

(** X15: the constructors with a fixed signature check the number of their
    operands: with any other number of positional arguments, and no
    keyword, the instantiation raises [TypeError] after the instance has
    been allocated and before any attribute is set on it. *)
Theorem constructor_checks_operands (c : class) (k : nat)
    (args : list value) (s : state) :
  arity c = Some k ->
  List.length args <> k ->
  new c args [] s
  = Raise TypeError (State (st_heap s ++ [Inst c []]) (st_trace s)).
Proof.
  intros Hc Hn. destruct s as [h t]. cbn [st_heap st_trace].
  unfold new, bind at 1. rewrite alloc_eq. unfold bind at 1.
  destruct args as [|x1 [|x2 [|x3 [|x4 args]]]];
    destruct c; cbn in Hc; try discriminate Hc;
    injection Hc as <-; cbn in Hn; try lia; reflexivity.
Qed.

Lemma constructor_checks_operands_witness :
  new Sum [VInt 1] [] empty_state
  = Raise TypeError (State [Inst Sum []] []).
Proof.
  apply (constructor_checks_operands Sum 2 [VInt 1] empty_state);
    [reflexivity|cbn; lia].
Defined.

(** ** Elementary functions *)

Lemma apply_node (c : class) (cargs : list value) (s : state) (a : value) :
  In c [Cos; Sin; Exp; Sqrt; SumCall; Indexing; Attribute; AsType; Apply] ->
  isinstance (st_heap s) a Function = true ->
  (f <- new c cargs [] ;; OpFunction__or__ a f) s
  = Ok (VRef (S (List.length (st_heap s))))
       (State (st_heap s
               ++ [Inst c [("args", VTuple cargs); ("kwargs", VDict [])];
                   Inst ComposedFunction
                        [("a", a); ("b", VRef (List.length (st_heap s)))]])
              (st_trace s)).
Proof.
  intros Hc Ha. unfold bind at 1. rewrite (new_apply c cargs [] s Hc).
  rewrite or_nodes.
  - cbn [st_heap st_trace]. rewrite length_app. cbn [List.length].
    replace (List.length (st_heap s) + 1)%nat
      with (S (List.length (st_heap s))) by lia.
    by rewrite <- app_assoc.
  - cbn [st_heap]. by apply isinstance_old.
  - cbn [st_heap]. rewrite isinstance_fresh.
    cbn in Hc. by repeat (destruct Hc as [<- | Hc]; [reflexivity|]).
Qed.

Lemma piped_node_evaluates (numpy_available : bool) (n : nat) (l k : loc)
    (c : class) (attrs : list (string * value)) (a : value)
    (args : list value) (kw : list (string * value)) (x : value)
    (s s3 : state) :
  st_heap s !! l = Some (Inst ComposedFunction [("a", a); ("b", VRef k)]) ->
  st_heap s !! k = Some (Inst c attrs) ->
  call numpy_available n a args kw
       (State (st_heap s) (st_trace s ++ [Event l args kw]))
  = Ok x s3 ->
  call numpy_available (S n) (VRef l) args kw s
  = call numpy_available n (VRef k) [x] [] s3 /\
  st_heap s3 !! k = Some (Inst c attrs).
Proof.
  intros Hl Hk E.
  rewrite (call_composed numpy_available n l _ a (VRef k) args kw s
             Hl eq_refl eq_refl).
  unfold bind at 1, log. unfold bind at 1. rewrite E.
  split; [reflexivity|].
  destruct n as [|n]; [discriminate E|].
  exact (call_keeps_instance _ _ _ _ _ _ _ _ _ _ _ E Hk).
Qed.

Lemma sqrt_square (r : Z) :
  0 <= r <= 2 ^ 26 ->
  perfect_square (r * r) && float_ok (r * r) = true /\ Z.sqrt (r * r) = r.
Proof.
  intros Hr. assert (S : Z.sqrt (r * r) = r) by (apply Z.sqrt_square; lia).
  split; [|exact S]. unfold perfect_square, float_ok. rewrite S.
  apply andb_true_intro. split; [apply andb_true_intro; split|].
  - apply Z.leb_le. nia.
  - apply Z.eqb_eq. reflexivity.
  - apply Z.leb_le. rewrite Z.abs_eq by nia.
    change (2 ^ 53) with (2 ^ 26 * 2 ^ 26 * 2). nia.
Qed.

(** X16: [a.sqrt()] pipes the node [a] into a fresh [Sqrt].  Whenever [a]
    evaluates to a number that is the square of an integer [r] between [0]
    and [2^26], the node evaluates to the float [r], with the numeric
    backend and without it; for a negative number the scalar fallback
    raises [ValueError]. *)
Theorem square_root_of_node (numpy_available : bool) (s : state) (a : value) :
  isinstance (st_heap s) a OpFunction = true ->
  exists l s1,
    OpFunction_sqrt a s = Ok (VRef l) s1 /\
    forall n args kw x u s3,
      call numpy_available n a args kw
           (State (st_heap s1) (st_trace s1 ++ [Event l args kw]))
      = Ok x s3 ->
      as_num x = Some u ->
      (forall r,
          0 <= r <= 2 ^ 26 -> num_val u = r * r ->
          exists s4,
            call numpy_available (S n) (VRef l) args kw s1
            = Ok (VFloat r) s4) /\
      (num_val u < 0 -> numpy_available = false ->
       exists s4,
         call numpy_available (S n) (VRef l) args kw s1
         = Raise ValueError s4).
Proof.
  intros Ha. pose proof (isinstance_OpFunction_Function _ _ Ha) as Ha'.
  set (k := List.length (st_heap s)).
  set (sq := Inst Sqrt [("args", VTuple []); ("kwargs", VDict [])]).
  set (s1 := State (st_heap s
                    ++ [sq; Inst ComposedFunction [("a", a); ("b", VRef k)]])
                   (st_trace s)).
  exists (S k), s1. split.
  { unfold OpFunction_sqrt. by rewrite (apply_node Sqrt [] s a)
      by (cbn; tauto || exact Ha'). }
  intros n args kw x u s3 E Hx.
  assert (Hl : st_heap s1 !! S k
               = Some (Inst ComposedFunction [("a", a); ("b", VRef k)]))
    by apply lookup_fresh_next.
  assert (Hk : st_heap s1 !! k = Some sq) by apply lookup_fresh.
  destruct (piped_node_evaluates numpy_available n (S k) k Sqrt _ a args kw
              x s1 s3 Hl Hk E) as [-> K].
  destruct n as [|n]; [discriminate E|].
  rewrite (call_enter _ _ _ _ _ _ _ _ K).
  unfold bind at 1, log. cbn [call_method].
  unfold operand, bind at 1. cbn -[getattr numpy_sqrt math_sqrt].
  set (s4 := State (st_heap s3) (st_trace s3 ++ [Event k [x] []])).
  split.
  - intros r Hr Hu. destruct (sqrt_square r Hr) as [P S].
    exists s4. destruct numpy_available.
    + unfold bind at 1.
      rewrite (getattr_state s4 k _ _ "args" (VTuple []) K eq_refl).
      unfold bind at 1.
      rewrite (getattr_state s4 k _ _ "kwargs" (VDict []) K eq_refl).
      unfold numpy_sqrt. rewrite Hx, Hu. cbn [no_extra andb].
      by rewrite P, S.
    + unfold math_sqrt. rewrite Hx, Hu.
      replace (r * r <? 0) with false by (symmetry; apply Z.ltb_ge; nia).
      by rewrite P, S.
  - intros Hu ->. exists s4. unfold math_sqrt. rewrite Hx.
    by replace (num_val u <? 0) with true by (symmetry; by apply Z.ltb_lt).
Qed.

Lemma square_root_of_node_witness :
  let s := State [Inst OpConstant [("value", VInt 49)]] [] in
  exists l s1 s4,
    OpFunction_sqrt (VRef 0) s = Ok (VRef l) s1 /\
    call true 2 (VRef l) [] [] s1 = Ok (VFloat 7) s4.
Proof.
  destruct (square_root_of_node true
              (State [Inst OpConstant [("value", VInt 49)]] []) (VRef 0)
              eq_refl) as (l & s1 & E & H).
  injection E as <- <-.
  destruct (H 1%nat [] [] (VInt 49) (NInt 49)
              (State [Inst OpConstant [("value", VInt 49)];
                      Inst Sqrt [("args", VTuple []); ("kwargs", VDict [])];
                      Inst ComposedFunction [("a", VRef 0); ("b", VRef 1)]]
                     [Event 2 [] []; Event 0 [] []])
              eq_refl eq_refl) as [H1 _].
  destruct (H1 7 ltac:(lia) eq_refl) as (s4 & E4).
  eexists 2%nat, _, s4. split; [reflexivity|exact E4].
Defined.

(** ** Negation of truth values *)

(** X17: [Not] computes the same with and without the numeric backend on
    numbers: applied to a number it returns whether the number is zero. *)
Theorem not_is_backend_independent (numpy_available : bool) (n : nat)
    (l : loc) (attrs : list (string * value)) (x : value) (u : num)
    (s : state) :
  st_heap s !! l = Some (Inst Not attrs) ->
  as_num x = Some u ->
  call numpy_available (S n) (VRef l) [x] [] s
  = Ok (VBool (num_val u =? 0))
       (State (st_heap s) (st_trace s ++ [Event l [x] []])).
Proof.
  intros H Hx. rewrite (call_enter _ _ _ _ _ _ _ _ H).
  unfold bind at 1, log. cbn [call_method].
  unfold operand, bind at 1. cbn -[truth numpy_logical_not].
  destruct numpy_available.
  - unfold numpy_logical_not. by rewrite Hx.
  - unfold truth, bind, get_heap, ret.
    rewrite (number_not_instance _ x u _ Hx).
    destruct x; try discriminate Hx; injection Hx as <-; cbn [num_val].
    + by destruct b.
    + by rewrite Bool.negb_involutive.
    + by rewrite Bool.negb_involutive.
Qed.

Lemma not_is_backend_independent_witness :
  call true 1 (VRef 0) [VInt 0] []
       (State [Inst Not [("args", VTuple []); ("kwargs", VDict [])]] [])
  = Ok (VBool true)
       (State [Inst Not [("args", VTuple []); ("kwargs", VDict [])]]
              [Event 0 [VInt 0] []]).
Proof.
  apply (not_is_backend_independent true 0 0
           [("args", VTuple []); ("kwargs", VDict [])] (VInt 0) (NInt 0)
           (State [Inst Not [("args", VTuple []); ("kwargs", VDict [])]] []));
    reflexivity.
Defined.

(** ** Lifted dictionaries *)

Lemma each_scalars (xs : list value) :
  forallb scalar xs = true ->
  forall s,
    each compound xs s
    = Ok (refs (List.length (st_heap s)) (List.length xs))
         (State (st_heap s ++ constants_of xs) (st_trace s)).
Proof.
  induction xs as [|x xs IH]; intros Hs s.
  - cbn. rewrite app_nil_r. by destruct s.
  - cbn in Hs. apply andb_prop in Hs as [Hx Hxs].
    cbn [each]. unfold bind at 1.
    assert (E : compound x s
                = Ok (VRef (List.length (st_heap s)))
                     (State (st_heap s ++ [Inst Constant [("value", x)]])
                            (st_trace s))).
    { destruct x; try discriminate Hx; by apply asfunction_constant. }
    rewrite E. fold (each compound). unfold bind at 1.
    rewrite (IH Hxs). cbn [st_heap st_trace].
    rewrite length_app, <- app_assoc. cbn [List.length app].
    by replace (List.length (st_heap s) + 1)%nat
      with (S (List.length (st_heap s))) by lia.
Qed.

Lemma each_projection {A} (f : A -> value) (xs : list A) (s : state) :
  each (fun x => compound (f x)) xs s = each compound (map f xs) s.
Proof.
  revert s. induction xs as [|x xs IH]; intros s; [reflexivity|].
  cbn [each map]. unfold bind.
  destruct (compound (f x) s) as [e s1|e s1| |]; try reflexivity.
  fold (each (fun x => compound (f x))). fold (each compound).
  by rewrite IH.
Qed.

Lemma constants_located (h rest : heap) (xs : list value) :
  Forall2 (fun r x =>
             exists k,
               r = VRef k /\
               (h ++ constants_of xs ++ rest) !! k
               = Some (Inst Constant [("value", x)]))
          (refs (List.length h) (List.length xs)) xs.
Proof.
  revert h. induction xs as [|x xs IH]; intros h; [constructor|].
  cbn [List.length refs seq map constants_of].
  constructor.
  - exists (List.length h). split; [reflexivity|]. apply lookup_fresh.
  - specialize (IH (h ++ [Inst Constant [("value", x)]])).
    rewrite length_app in IH. cbn [List.length] in IH.
    replace (List.length h + 1)%nat with (S (List.length h)) in IH by lia.
    eapply Forall2_impl; [exact IH|].
    intros r y (k & -> & H). exists k. split; [reflexivity|].
    rewrite <- app_assoc in H. exact H.
Qed.

Lemma constants_at (h rest : heap) (xs : list value) :
  Forall2 (constant_at (h ++ constants_of xs ++ rest))
          (refs (List.length h) (List.length xs)) xs.
Proof.
  eapply Forall2_impl; [apply constants_located|].
  intros r x (k & -> & H). exists k, Constant, [("value", x)].
  split; [reflexivity|]. split; [exact H|]. split; [by left|reflexivity].
Qed.

Lemma constants_hashable (h rest : heap) (xs : list value) :
  forallb (hashable (h ++ constants_of xs ++ rest))
          (refs (List.length h) (List.length xs)) = true.
Proof.
  generalize (constants_located h rest xs).
  generalize (h ++ constants_of xs ++ rest) as h'.
  generalize (refs (List.length h) (List.length xs)) as rs.
  intros rs h' F.
  induction F as [|r x rs' ys (k & -> & H) _ IH]; [reflexivity|].
  cbn [forallb hashable]. rewrite H. exact IH.
Qed.

Lemma refs_distinct (n a : nat) : distinct_keys (refs a n) = true.
Proof.
  revert a. induction n as [|n IH]; intros a; [reflexivity|].
  cbn [refs seq map distinct_keys]. apply andb_true_intro. split.
  - apply forallb_forall. intros k Hk.
    apply in_map_iff in Hk as (m & <- & Hm). apply in_seq in Hm.
    cbn [value_eq]. apply negb_true_iff, Nat.eqb_neq. lia.
  - apply IH.
Qed.

Lemma length_refs (a n : nat) : List.length (refs a n) = n.
Proof. unfold refs. by rewrite length_map, length_seq. Qed.

Lemma dict_set_new (k v : value) (acc : list (value * value)) :
  forallb (fun k' => negb (value_eq k' k)) (map fst acc) = true ->
  dict_set k v acc = acc ++ [(k, v)].
Proof.
  induction acc as [|[k' v'] acc IH]; intros H; [reflexivity|].
  cbn in H. apply andb_prop in H as [H1 H2].
  cbn [dict_set]. apply negb_true_iff in H1. rewrite H1.
  by rewrite IH.
Qed.

Lemma distinct_keys_middle (xs r : list value) (k : value) :
  distinct_keys (xs ++ k :: r) = true ->
  forallb (fun k' => negb (value_eq k' k)) xs = true /\
  distinct_keys ((xs ++ [k]) ++ r) = true.
Proof.
  intros H. split; [|by rewrite <- app_assoc].
  induction xs as [|x xs IH]; [reflexivity|].
  cbn in H. apply andb_prop in H as [H1 H2].
  rewrite forallb_app in H1. apply andb_prop in H1 as [_ H1].
  cbn in H1. apply andb_prop in H1 as [H1 _].
  cbn [forallb]. rewrite H1. by apply IH.
Qed.

Lemma dict_of_pairs_distinct (h : heap) (pairs : list (value * value)) :
  forall acc,
    forallb (hashable h) (map fst pairs) = true ->
    distinct_keys (map fst acc ++ map fst pairs) = true ->
    dict_of_pairs h pairs acc = Some (acc ++ pairs).
Proof.
  induction pairs as [|[k v] pairs IH]; intros acc Hh Hd.
  - by rewrite app_nil_r.
  - cbn in Hh. apply andb_prop in Hh as [Hk Hh].
    cbn [map fst] in Hd.
    apply distinct_keys_middle in Hd as [Hnew Hd].
    cbn [dict_of_pairs]. rewrite Hk, (dict_set_new k v acc Hnew).
    rewrite IH; [by rewrite <- app_assoc|exact Hh|].
    by rewrite map_app.
Qed.

Lemma py_dict_distinct (pairs : list (value * value)) (s : state) :
  forallb (hashable (st_heap s)) (map fst pairs) = true ->
  distinct_keys (map fst pairs) = true ->
  py_dict pairs s = Ok (VDict pairs) s.
Proof.
  intros Hh Hd. unfold py_dict, bind, get_heap.
  by rewrite (dict_of_pairs_distinct _ pairs [] Hh Hd).
Qed.

Lemma scalar_hashable (h : heap) (xs : list value) :
  forallb scalar xs = true -> forallb (hashable h) xs = true.
Proof.
  intros H. apply forallb_forall. intros x Hx.
  pose proof (proj1 (forallb_forall _ _) H x Hx) as Hs. by destruct x.
Qed.

Lemma combine_fst_snd {A B} (xs : list (A * B)) :
  combine (map fst xs) (map snd xs) = xs.
Proof. induction xs as [|[a b] xs IH]; [reflexivity|]. cbn. by rewrite IH. Qed.

Lemma map_fst_combine {A B} (xs : list A) (ys : list B) :
  List.length xs = List.length ys -> map fst (combine xs ys) = xs.
Proof.
  revert ys. induction xs as [|x xs IH]; intros [|y ys] H;
    try discriminate H; [reflexivity|].
  cbn. rewrite IH; [reflexivity|]. by injection H.
Qed.

Lemma map_snd_combine {A B} (xs : list A) (ys : list B) :
  List.length xs = List.length ys -> map snd (combine xs ys) = ys.
Proof.
  revert ys. induction xs as [|x xs IH]; intros [|y ys] H;
    try discriminate H; [reflexivity|].
  cbn. rewrite IH; [reflexivity|]. by injection H.
Qed.

Lemma constant_at_insert_iterator (h : heap) (m : loc) (p p' : list value)
    (c v : value) :
  h !! m = Some (MapIter p) ->
  constant_at h c v -> constant_at (<[m:=MapIter p']> h) c v.
Proof.
  intros Hm (k & cls & attrs & -> & H & R).
  exists k, cls, attrs. repeat split; try apply R.
  rewrite list_lookup_insert_ne; [exact H|].
  intros ->. rewrite Hm in H. discriminate.
Qed.

Lemma mapping_node_evaluates (numpy_available : bool) (l mk mv : loc)
    (kcs vcs ks vs : list value) (args : list value)
    (kw : list (string * value)) (s : state) :
  st_heap s !! l
  = Some (Inst _Dict [("_keys", VRef mk); ("_values", VRef mv)]) ->
  st_heap s !! mk = Some (MapIter kcs) ->
  st_heap s !! mv = Some (MapIter vcs) ->
  mk <> mv ->
  Forall2 (constant_at (st_heap s)) kcs ks ->
  Forall2 (constant_at (st_heap s)) vcs vs ->
  exists t',
    call numpy_available 2 (VRef l) args kw s
    = py_dict (combine ks vs)
        (State (<[mv:=MapIter []]> (<[mk:=MapIter []]> (st_heap s))) t').
Proof.
  intros Hl Hk Hv Hne Ck Cv.
  set (s0 := State (st_heap s) (st_trace s ++ [Event l args kw])).
  destruct (advance_constants numpy_available 0 mk args kw kcs ks s0 Ck Hk)
    as (t1 & A1).
  set (h1 := <[mk:=MapIter []]> (st_heap s)) in *.
  assert (Hl1 : h1 !! l
                = Some (Inst _Dict [("_keys", VRef mk);
                                    ("_values", VRef mv)])).
  { unfold h1. rewrite list_lookup_insert_ne; [exact Hl|].
    intros <-. rewrite Hk in Hl. discriminate. }
  assert (Hv1 : h1 !! mv = Some (MapIter vcs)).
  { unfold h1. by rewrite list_lookup_insert_ne. }
  assert (Cv1 : Forall2 (constant_at h1) vcs vs).
  { eapply Forall2_impl; [exact Cv|]. intros c v.
    by apply constant_at_insert_iterator with (p := kcs). }
  destruct (advance_constants numpy_available 0 mv args kw vcs vs
              (State h1 t1) Cv1 Hv1) as (t2 & A2).
  exists t2. rewrite (call_enter _ _ _ _ _ _ _ _ Hl).
  unfold bind at 1, log. cbn [call_method]. fold s0.
  unfold bind at 1.
  rewrite (getattr_state s0 l _ _ "_keys" (VRef mk) Hl eq_refl).
  unfold bind at 1. unfold call_each at 1, bind at 1, load.
  cbn [st_heap s0]. rewrite Hk. cbn [st_heap s0] in A1. rewrite A1.
  fold h1. unfold bind at 1.
  rewrite (getattr_state (State h1 t1) l _ _ "_values" (VRef mv) Hl1 eq_refl).
  unfold bind at 1. unfold call_each, bind at 1, load.
  cbn [st_heap]. rewrite Hv1. cbn [st_heap] in A2. by rewrite A2.
Qed.

(** X18: lifting a dictionary of scalars gives a [_Dict] node whose first
    evaluation, with any arguments, returns the dictionary again: same keys,
    same values, same order.  The keys and values are kept in two [map]
    objects, so the second evaluation returns the empty dictionary. *)
Theorem lifted_dict_evaluates (numpy_available : bool) (s : state)
    (kvs : list (value * value)) (args : list value)
    (kw : list (string * value)) :
  forallb scalar (map fst kvs) = true ->
  forallb scalar (map snd kvs) = true ->
  distinct_keys (map fst kvs) = true ->
  exists l s1 s2 s3,
    compound (VDict kvs) s = Ok (VRef l) s1 /\
    call numpy_available 2 (VRef l) args kw s1 = Ok (VDict kvs) s2 /\
    call numpy_available 2 (VRef l) args kw s2 = Ok (VDict []) s3.
Proof.
  intros Hks Hvs Hd.
  set (ks := map fst kvs) in *. set (vs := map snd kvs) in *.
  set (h0 := st_heap s).
  set (krefs := refs (List.length h0) (List.length ks)).
  set (vrefs := refs (List.length (h0 ++ constants_of ks)) (List.length vs)).
  set (h2 := (h0 ++ constants_of ks) ++ constants_of vs).
  set (l := List.length h2).
  set (node := Inst _Dict [("_keys", VRef (S l)); ("_values", VRef (S (S l)))]).
  set (h3 := h2 ++ [node; MapIter krefs; MapIter vrefs]).
  assert (Hlen : List.length krefs = List.length vrefs).
  { unfold krefs, vrefs, ks, vs. by rewrite !length_refs, !length_map. }
  assert (E : compound (VDict kvs) s = Ok (VRef l) (State h3 (st_trace s))).
  { cbn [compound]. unfold bind at 1.
    rewrite (each_projection fst kvs s). fold ks.
    rewrite (each_scalars ks Hks s). unfold bind at 1.
    rewrite (each_projection snd kvs). fold vs.
    rewrite (each_scalars vs Hvs).
    cbn [st_heap st_trace]. fold h0 krefs vrefs h2.
    unfold bind at 1. rewrite py_dict_distinct.
    - rewrite new_mapping. cbn [st_heap st_trace].
      by rewrite (map_fst_combine _ _ Hlen), (map_snd_combine _ _ Hlen).
    - cbn [st_heap]. rewrite (map_fst_combine _ _ Hlen).
      unfold h2, krefs. rewrite <- app_assoc. apply constants_hashable.
    - rewrite (map_fst_combine _ _ Hlen). apply refs_distinct. }
  assert (Hl : h3 !! l = Some node) by apply lookup_fresh.
  assert (Hk : h3 !! S l = Some (MapIter krefs)) by apply lookup_fresh_next.
  assert (Hv : h3 !! S (S l) = Some (MapIter vrefs)).
  { replace (S (S l)) with (List.length h2 + 2)%nat by (unfold l; lia).
    by apply lookup_offset. }
  assert (Ck : Forall2 (constant_at h3) krefs ks).
  { unfold h3, h2, krefs. rewrite <- !app_assoc. apply constants_at. }
  assert (Cv : Forall2 (constant_at h3) vrefs vs).
  { unfold h3, h2, vrefs. rewrite <- (app_assoc _ (constants_of vs)).
    apply constants_at. }
  destruct (mapping_node_evaluates numpy_available l (S l) (S (S l))
              krefs vrefs ks vs args kw (State h3 (st_trace s))
              Hl Hk Hv ltac:(lia) Ck Cv) as (t1 & E1).
  cbn [st_heap] in E1.
  set (h4 := <[S (S l):=MapIter []]> (<[S l:=MapIter []]> h3)) in *.
  assert (Hl4 : h4 !! l = Some node).
  { unfold h4. by rewrite !list_lookup_insert_ne by lia. }
  assert (Hk4 : h4 !! S l = Some (MapIter [])).
  { unfold h4. rewrite list_lookup_insert_ne by lia.
    apply list_lookup_insert_eq. by eapply lookup_lt_Some. }
  assert (Hv4 : h4 !! S (S l) = Some (MapIter [])).
  { unfold h4. apply list_lookup_insert_eq. rewrite length_insert.
    by eapply lookup_lt_Some. }
  destruct (mapping_node_evaluates numpy_available l (S l) (S (S l))
              [] [] [] [] args kw (State h4 t1)
              Hl4 Hk4 Hv4 ltac:(lia) (@List.Forall2_nil _ _ _)
              (@List.Forall2_nil _ _ _)) as (t2 & E2).
  cbn [st_heap] in E2.
  exists l, (State h3 (st_trace s)), (State h4 t1),
    (State (<[S (S l):=MapIter []]> (<[S l:=MapIter []]> h4)) t2).
  split; [exact E|]. split.
  - rewrite E1. unfold ks, vs. rewrite combine_fst_snd.
    apply py_dict_distinct; [|exact Hd].
    by apply scalar_hashable.
  - rewrite E2. reflexivity.
Qed.

Lemma lifted_dict_evaluates_witness :
  exists l s1 s2 s3,
    compound (VDict [(VStr "a", VInt 1); (VInt 2, VNone)]) empty_state
    = Ok (VRef l) s1 /\
    call false 2 (VRef l) [] [] s1
    = Ok (VDict [(VStr "a", VInt 1); (VInt 2, VNone)]) s2 /\
    call false 2 (VRef l) [] [] s2 = Ok (VDict []) s3.
Proof.
  apply (lifted_dict_evaluates false empty_state
           [(VStr "a", VInt 1); (VInt 2, VNone)] [] []);
    reflexivity.
Defined.

(** ** Evaluation and the iterators it cannot reach *)

Create HintDb framed.

Section Frame.

Context (it : loc) (b : nat).
Hypothesis below_it : (b <= it)%nat.

Lemma instance_class_over (h : heap) (p : list value) (x : value) :
  (exists q, h !! it = Some (MapIter q)) ->
  instance_class (<[it:=MapIter p]> h) x = instance_class h x.
Proof.
  intros [q Hq]. unfold instance_class. destruct x; try reflexivity.
  destruct (decide (l = it)) as [->|Hne].
  - rewrite list_lookup_insert_eq by (by eapply lookup_lt_Some).
    by rewrite Hq.
  - by rewrite list_lookup_insert_ne.
Qed.

Lemma isinstance_over (h : heap) (p : list value) (x : value) (c : class) :
  (exists q, h !! it = Some (MapIter q)) ->
  isinstance (<[it:=MapIter p]> h) x c = isinstance h x c.
Proof. intros H. unfold isinstance. by rewrite instance_class_over. Qed.

Lemma proper_subclass_over (h : heap) (p : list value) (x y : value) :
  (exists q, h !! it = Some (MapIter q)) ->
  proper_subclass (<[it:=MapIter p]> h) x y = proper_subclass h x y.
Proof. intros H. unfold proper_subclass. by rewrite !instance_class_over. Qed.

Lemma hashable_over (h : heap) (p : list value) (x : value) :
  (exists q, h !! it = Some (MapIter q)) ->
  hashable (<[it:=MapIter p]> h) x = hashable h x.
Proof.
  intros [q Hq].
  induction x as [| | | | |xs IH|xs IH|kvs IH|l] using value_nested_ind;
    try reflexivity.
  - cbn [hashable]. induction IH as [|x xs Hx _ IHxs]; [reflexivity|].
    cbn [forallb]. by rewrite Hx, IHxs.
  - cbn [hashable]. destruct (decide (l = it)) as [->|Hne].
    + rewrite list_lookup_insert_eq by (by eapply lookup_lt_Some).
      by rewrite Hq.
    + by rewrite list_lookup_insert_ne.
Qed.

Lemma dict_of_pairs_over (h : heap) (p : list value)
    (pairs acc : list (value * value)) :
  (exists q, h !! it = Some (MapIter q)) ->
  dict_of_pairs (<[it:=MapIter p]> h) pairs acc = dict_of_pairs h pairs acc.
Proof.
  intros H. revert acc. induction pairs as [|[k v] pairs IH]; intros acc;
    [reflexivity|].
  cbn [dict_of_pairs]. rewrite hashable_over by exact H.
  destruct (hashable h k); [apply IH|reflexivity].
Qed.

Lemma good_over (p : list value) (s : state) :
  good it b s -> good it b (over it p s).
Proof.
  intros [[q Hq] C]. split.
  - exists p. cbn. apply list_lookup_insert_eq. by eapply lookup_lt_Some.
  - intros k o Hk H. cbn in H.
    rewrite list_lookup_insert_ne in H by lia. by apply (C k).
Qed.

Lemma framed_same {A} (m : M A) (r : res A) :
  (forall s, m s = match r with
                   | Ok a _ => Ok a s
                   | Raise e _ => Raise e s
                   | OutOfFuel => OutOfFuel
                   | Unmodelled => Unmodelled
                   end) ->
  framed it b m.
Proof.
  intros H p s G. rewrite !H. destruct r; cbn; auto.
Qed.

Lemma framed_ret {A} (a : A) : framed it b (ret a).
Proof. by apply (framed_same _ (Ok a empty_state)). Qed.

Lemma framed_raise {A} (e : exn) : framed it b (@raise A e).
Proof. by apply (framed_same _ (Raise e empty_state)). Qed.

Lemma framed_unmodelled {A} : framed it b (@unmodelled A).
Proof. by apply (framed_same _ Unmodelled). Qed.

Lemma framed_log (e : event) : framed it b (log e).
Proof. intros p s G. split; [reflexivity|exact G]. Qed.

Lemma framed_bind {A B} (m : M A) (k : A -> M B) :
  framed it b m -> (forall a, framed it b (k a)) -> framed it b (bind m k).
Proof.
  intros Hm Hk p s G. unfold bind. destruct (Hm p s G) as [E G1].
  rewrite E. destruct (m s) as [a s1|e s1| |]; cbn [lift]; auto.
  exact (Hk a p s1 G1).
Qed.

Lemma framed_heap {A} (k : heap -> M A) :
  (forall h p s,
      (exists q, h !! it = Some (MapIter q)) ->
      k (<[it:=MapIter p]> h) s = k h s) ->
  (forall h, framed it b (k h)) ->
  framed it b (bind get_heap k).
Proof.
  intros Hk Hf p s G. unfold bind, get_heap. cbn [over st_heap].
  rewrite (Hk (st_heap s) p _ (proj1 G)). exact (Hf (st_heap s) p s G).
Qed.

Lemma good_alloc (o : obj) (s : state) :
  good it b s -> good it b (State (st_heap s ++ [o]) (st_trace s)).
Proof.
  intros [[q Hq] C]. pose proof (lookup_lt_Some _ _ _ Hq) as Lq. split.
  - exists q. cbn. by apply lookup_old.
  - intros k o' Hk H. cbn in H. rewrite lookup_app_l in H by lia.
    by apply (C k).
Qed.

Lemma framed_alloc_then {B} (o : obj) (k : value -> M B) :
  (forall j, (it < j)%nat -> framed it b (k (VRef j))) ->
  framed it b (bind (alloc o) k).
Proof.
  intros Hk p s G. unfold bind, alloc.
  destruct G as [[q Hq] C]. pose proof (lookup_lt_Some _ _ _ Hq) as Lq.
  cbn [over st_heap st_trace]. rewrite length_insert.
  assert (E : <[it:=MapIter p]> (st_heap s) ++ [o]
              = <[it:=MapIter p]> (st_heap s ++ [o]))
    by (by rewrite insert_app_l).
  rewrite E.
  exact (Hk (List.length (st_heap s)) Lq p
            (State (st_heap s ++ [o]) (st_trace s))
            (good_alloc o s (conj (ex_intro _ q Hq) C))).
Qed.

Lemma framed_alloc (o : obj) : framed it b (alloc o).
Proof.
  intros p s G. destruct G as [[q Hq] C].
  pose proof (lookup_lt_Some _ _ _ Hq) as Lq.
  unfold alloc, lift, over. cbn [st_heap st_trace]. rewrite length_insert.
  split; [by rewrite insert_app_l|].
  exact (good_alloc o s (conj (ex_intro _ q Hq) C)).
Qed.

Lemma good_store (j : loc) (o : obj) (s : state) :
  (it < j)%nat -> good it b s ->
  good it b (State (<[j:=o]> (st_heap s)) (st_trace s)).
Proof.
  intros Hj [[q Hq] C]. split.
  - exists q. cbn. rewrite list_lookup_insert_ne by lia. exact Hq.
  - intros k o' Hk H. cbn in H.
    rewrite list_lookup_insert_ne in H by lia. by apply (C k).
Qed.

Lemma framed_store (j : loc) (o : obj) :
  (it < j)%nat -> framed it b (store j o).
Proof.
  intros Hj p s G. unfold store, lift, over. cbn [st_heap st_trace]. split.
  - by rewrite list_insert_insert_ne by lia.
  - by apply good_store.
Qed.

Lemma framed_getattr (self : value) (name : string) :
  framed it b (getattr self name).
Proof.
  intros p s G. unfold getattr. destruct self; try (by split).
  unfold bind, load. cbn [over st_heap].
  destruct (decide (l = it)) as [->|Hne].
  - destruct (proj1 G) as [q Hq].
    rewrite list_lookup_insert_eq by (by eapply lookup_lt_Some).
    rewrite Hq. by split.
  - rewrite list_lookup_insert_ne by auto.
    destruct (st_heap s !! l) as [[c attrs|q]|]; try (by split).
    destruct (assoc name attrs); by split.
Qed.

Lemma framed_setattr (j : loc) (name : string) (v : value) :
  (it < j)%nat -> framed it b (setattr (VRef j) name v).
Proof.
  intros Hj p s G. unfold setattr, bind, load. cbn [over st_heap].
  rewrite list_lookup_insert_ne by lia.
  destruct (st_heap s !! j) as [[c attrs|q]|]; try (by split).
  exact (framed_store j _ Hj p s G).
Qed.

#[local] Hint Resolve framed_ret framed_raise framed_unmodelled framed_log
  framed_alloc framed_getattr : framed.

Ltac heap_same :=
  intros; cbn zeta;
  rewrite ?isinstance_over, ?proper_subclass_over, ?hashable_over,
    ?dict_of_pairs_over by assumption;
  reflexivity.

Ltac framed_step :=
  lazymatch goal with
  | |- framed _ _ (bind (alloc _) _) => apply framed_alloc_then; intros
  | |- framed _ _ (bind get_heap _) => apply framed_heap; [heap_same|intros]
  | |- framed _ _ (bind _ _) => apply framed_bind; [|intros]
  | |- framed _ _ (store _ _) => apply framed_store; lia
  | |- framed _ _ (let _ := _ in _) => cbn zeta
  | |- framed _ _ (match ?x with _ => _ end) => destruct x
  | |- framed _ _ _ => solve [eauto with framed]
  end.

Ltac framed_auto := repeat framed_step.

Lemma framed_bind_args (ps : list param) (args : list value)
    (kw : list (string * value)) : framed it b (bind_args ps args kw).
Proof. unfold bind_args. framed_auto. Qed.

Lemma framed_py_dict (pairs : list (value * value)) :
  framed it b (py_dict pairs).
Proof. unfold py_dict. framed_auto. Qed.

Lemma framed_dict_keys (d : value) : framed it b (dict_keys d).
Proof. unfold dict_keys. framed_auto. Qed.

Lemma framed_dict_values (d : value) : framed it b (dict_values d).
Proof. unfold dict_values. framed_auto. Qed.

Lemma framed_py_map_asfunction (xs : value) :
  framed it b (py_map_asfunction xs).
Proof. unfold py_map_asfunction. framed_auto. Qed.

#[local] Hint Resolve framed_setattr framed_bind_args framed_py_dict
  framed_dict_keys framed_dict_values framed_py_map_asfunction : framed.

Lemma framed_Constant__init__ (j : loc) (args : list value)
    (kw : list (string * value)) :
  (it < j)%nat -> framed it b (Constant__init__ (VRef j) args kw).
Proof. intros. unfold Constant__init__. framed_auto. Qed.

#[local] Hint Resolve framed_Constant__init__ : framed.

Lemma framed_new_constant (v : value) : framed it b (new Constant [v] []).
Proof. unfold new, init. framed_auto. Qed.

#[local] Hint Resolve framed_new_constant : framed.

Lemma framed_asfunction (v : value) : framed it b (asfunction v).
Proof. unfold asfunction. framed_auto. Qed.

#[local] Hint Resolve framed_asfunction : framed.

Lemma framed_set_function (j : loc) (name : string) (v : value) :
  (it < j)%nat -> framed it b (set_function (VRef j) name v).
Proof. intros. unfold set_function. framed_auto. Qed.

#[local] Hint Resolve framed_set_function : framed.

Lemma framed_init (c : class) (j : loc) (args : list value)
    (kw : list (string * value)) :
  (it < j)%nat -> framed it b (init c (VRef j) args kw).
Proof. intros. unfold init. destruct c; framed_auto. Qed.

#[local] Hint Resolve framed_init : framed.

Lemma framed_new (c : class) (args : list value)
    (kw : list (string * value)) : framed it b (new c args kw).
Proof. unfold new. framed_auto. Qed.

#[local] Hint Resolve framed_new : framed.

Lemma framed_or (self other : value) :
  framed it b (OpFunction__or__ self other).
Proof. unfold OpFunction__or__. framed_auto. Qed.

#[local] Hint Resolve framed_or : framed.

Lemma framed_forward (op : binop) (self other : value) :
  framed it b (dispatch (forward op) self other).
Proof.
  destruct op; cbn;
    unfold OpFunction__add__, OpFunction__sub__, OpFunction__mul__,
      OpFunction__pow__, OpFunction__lt__, OpFunction__gt__,
      OpFunction__le__, OpFunction__ge__, OpFunction__eq__,
      OpFunction__ne__; framed_auto.
Qed.

Lemma framed_neg (self : value) : framed it b (OpFunction__neg__ self).
Proof. unfold OpFunction__neg__. framed_auto. Qed.

#[local] Hint Resolve framed_neg : framed.

Lemma framed_reflected (op : binop) (self other : value) :
  framed it b (dispatch (reflected op) self other).
Proof.
  destruct op; cbn;
    unfold OpFunction__radd__, OpFunction__rsub__, OpFunction__rmul__,
      OpFunction__rpow__, OpFunction__lt__, OpFunction__gt__,
      OpFunction__le__, OpFunction__ge__, OpFunction__eq__,
      OpFunction__ne__; framed_auto.
Qed.

Lemma framed_mk_float (z : Z) : framed it b (mk_float z).
Proof. unfold mk_float. framed_auto. Qed.

#[local] Hint Resolve framed_mk_float : framed.

Lemma framed_arith (float : bool) (u v r : Z) :
  framed it b (arith float u v r).
Proof. unfold arith. framed_auto. Qed.

#[local] Hint Resolve framed_arith : framed.

Lemma framed_prim_binop (op : binop) (x y : value) :
  framed it b (prim_binop op x y).
Proof.
  unfold prim_binop.
  destruct (as_num x); [destruct (as_num y)|].
  - destruct op; framed_auto.
  - destruct op, x, y; framed_auto.
  - destruct op, x, y; framed_auto.
Qed.

#[local] Hint Resolve framed_forward framed_reflected framed_prim_binop
  : framed.

Lemma framed_py_binop (op : binop) (x y : value) :
  framed it b (py_binop op x y).
Proof. unfold py_binop. framed_auto. Qed.

Lemma framed_py_neg (x : value) : framed it b (py_neg x).
Proof. unfold py_neg. framed_auto. Qed.

Lemma framed_truth (x : value) : framed it b (truth x).
Proof. unfold truth, OpFunction__bool__. framed_auto. Qed.

#[local] Hint Resolve framed_py_binop framed_py_neg framed_truth : framed.

Lemma framed_math_sqrt (x : value) : framed it b (math_sqrt x).
Proof. unfold math_sqrt. framed_auto. Qed.

Lemma framed_numpy_sqrt (x sa sk : value) :
  framed it b (numpy_sqrt x sa sk).
Proof. unfold numpy_sqrt. framed_auto. Qed.

Lemma framed_at_zero (r : Z) (x : value) : framed it b (at_zero r x).
Proof. unfold at_zero. framed_auto. Qed.

#[local] Hint Resolve framed_at_zero : framed.

Lemma framed_numpy_at_zero (r : Z) (x sa sk : value) :
  framed it b (numpy_at_zero r x sa sk).
Proof. unfold numpy_at_zero. framed_auto. Qed.

Lemma framed_numpy_logical_and (x y : value) :
  framed it b (numpy_logical_and x y).
Proof. unfold numpy_logical_and. framed_auto. Qed.

Lemma framed_numpy_logical_not (x : value) :
  framed it b (numpy_logical_not x).
Proof. unfold numpy_logical_not. framed_auto. Qed.

Lemma framed_numpy_clip (leaf low high : value) :
  framed it b (numpy_clip leaf low high).
Proof. unfold numpy_clip. framed_auto. Qed.

Lemma framed_py_sum (array : value) : framed it b (py_sum array).
Proof.
  assert (F : forall xs acc, framed it b acc ->
              framed it b (fold_left
                             (fun acc x => a <- acc ;; py_binop Add a x)
                             xs acc)).
  { induction xs as [|x xs IH]; intros acc Hacc; cbn; [exact Hacc|].
    apply IH. framed_auto. }
  unfold py_sum. destruct array; framed_auto; apply F; framed_auto.
Qed.

Lemma framed_seq_index (xs : list value) (i : Z) :
  framed it b (seq_index xs i).
Proof. unfold seq_index. framed_auto. Qed.

#[local] Hint Resolve framed_seq_index : framed.

Lemma framed_py_getitem (x : value) (args : list value)
    (kw : list (string * value)) : framed it b (py_getitem x args kw).
Proof.
  unfold py_getitem, OpFunction__getitem__. apply framed_heap.
  - intros h p s H. rewrite isinstance_over by exact H.
    destruct (isinstance h x OpFunction); [reflexivity|].
    destruct x; try reflexivity.
    destruct args as [|k [|k' args]]; try reflexivity.
    destruct kw; try reflexivity. by rewrite hashable_over.
  - intros h. framed_auto.
Qed.

Lemma framed_py_int (x : value) : framed it b (py_int x).
Proof. unfold py_int, OpFunction__int__. framed_auto. Qed.

Lemma framed_py_float (x : value) : framed it b (py_float x).
Proof. unfold py_float, OpFunction__float__. framed_auto. Qed.

Lemma framed_sum_method (self : value) (args : list value)
    (kw : list (string * value)) :
  framed it b (OpFunction_sum self args kw).
Proof. unfold OpFunction_sum. framed_auto. Qed.

Lemma framed_astype_method (self : value) (args : list value)
    (kw : list (string * value)) :
  framed it b (OpFunction_astype self args kw).
Proof. unfold OpFunction_astype. framed_auto. Qed.

#[local] Hint Resolve framed_math_sqrt framed_numpy_sqrt
  framed_numpy_at_zero framed_numpy_logical_and framed_numpy_logical_not
  framed_numpy_clip framed_py_sum framed_py_getitem framed_py_int
  framed_py_float framed_sum_method framed_astype_method : framed.

Lemma framed_ext {A} (m m' : M A) :
  (forall s, m s = m' s) -> framed it b m -> framed it b m'.
Proof. intros H F p s G. rewrite <- !H. exact (F p s G). Qed.

Lemma assoc_held {A} (name : string) (attrs : list (string * A)) (v : A) :
  assoc name attrs = Some v -> In v (map snd attrs).
Proof.
  induction attrs as [|[k x] attrs IH]; [discriminate|].
  cbn. destruct (String.eqb name k).
  - intros [= ->]. by left.
  - intros H. right. by apply IH.
Qed.

Lemma getattr_below (k : loc) (name : string) (s s' : state) (f : value) :
  good it b s -> (k < b)%nat ->
  getattr (VRef k) name s = Ok f s' -> s' = s /\ below b f.
Proof.
  intros [_ C] Hk. unfold getattr, bind, load.
  destruct (st_heap s !! k) as [[c attrs|q]|] eqn:H; try discriminate.
  destruct (assoc name attrs) as [v|] eqn:Ha; try discriminate.
  intros [= <- <-]. split; [reflexivity|].
  pose proof (C k _ Hk H) as F. cbn [held] in F.
  rewrite List.Forall_forall in F. apply F. by eapply assoc_held.
Qed.

Lemma framed_getattr_then {B} (k : loc) (name : string) (K : value -> M B) :
  (k < b)%nat ->
  (forall f, below b f -> framed it b (K f)) ->
  framed it b (bind (getattr (VRef k) name) K).
Proof.
  intros Hk HK p s G. unfold bind.
  destruct (framed_getattr (VRef k) name p s G) as [E G1]. rewrite E.
  destruct (getattr (VRef k) name s) as [f s1|e s1| |] eqn:Eg;
    cbn [lift]; auto.
  destruct (getattr_below k name s s1 f G Hk Eg) as [-> Hf].
  exact (HK f Hf p s G).
Qed.

Lemma framed_load_then {B} (k : loc) (K : obj -> M B) :
  (k < b)%nat ->
  (forall o, framed it b (K o)) ->
  framed it b (bind (load k) K).
Proof.
  intros Hk HK p s G. unfold bind, load. cbn [over st_heap].
  rewrite list_lookup_insert_ne by lia.
  destruct (st_heap s !! k) as [o|]; [|by split].
  exact (HK o p s G).
Qed.

Lemma framed_store_iterator (j : loc) (r : list value) :
  (j < b)%nat -> Forall (below b) r -> framed it b (store j (MapIter r)).
Proof.
  intros Hj Hr p s [[q Hq] C]. unfold store, lift, over.
  cbn [st_heap st_trace]. split.
  - by rewrite list_insert_insert_ne by lia.
  - split.
    + exists q. cbn. rewrite list_lookup_insert_ne by lia. exact Hq.
    + intros k o Hk H. cbn in H.
      destruct (decide (k = j)) as [->|Hne].
      * rewrite list_lookup_insert_eq in H
          by (apply lookup_lt_Some in H; by rewrite length_insert in H).
        injection H as <-. exact Hr.
      * rewrite list_lookup_insert_ne in H by auto. by apply (C k).
Qed.

Section FrameEvaluation.

Context (numpy_available : bool) (fuel : nat).
Hypothesis framed_rec :
  forall f args kw,
    below b f -> framed it b (call numpy_available fuel f args kw).

Lemma framed_convert_call (x : value) (args : list value)
    (kw : list (string * value)) :
  below b x ->
  framed it b (element <- asfunction x ;;
               call numpy_available fuel element args kw).
Proof.
  intros Hx p s G. unfold bind.
  destruct (isinstance (st_heap s) x Function) eqn:E.
  - rewrite (asfunction_function s x E).
    rewrite (asfunction_function (over it p s) x)
      by (cbn; by rewrite isinstance_over by apply G).
    exact (framed_rec x args kw Hx p s G).
  - rewrite (asfunction_constant s x E).
    rewrite (asfunction_constant (over it p s) x)
      by (cbn; by rewrite isinstance_over by apply G).
    destruct G as [[q Hq] C]. pose proof (lookup_lt_Some _ _ _ Hq) as Lq.
    cbn [over st_heap st_trace]. rewrite length_insert.
    rewrite <- insert_app_l by exact Lq.
    set (l := List.length (st_heap s)).
    set (h1 := st_heap s ++ [Inst Constant [("value", x)]]).
    assert (H1 : h1 !! l = Some (Inst Constant [("value", x)]))
      by apply lookup_fresh.
    assert (G1 : good it b (State h1 (st_trace s)))
      by (apply good_alloc; by split; [exists q|]).
    destruct fuel as [|n]; [by split|].
    assert (H2 : <[it:=MapIter p]> h1 !! l
                 = Some (Inst Constant [("value", x)])).
    { rewrite list_lookup_insert_ne by (unfold l; lia). exact H1. }
    rewrite (call_constant numpy_available n l Constant [("value", x)] x
               args kw (State h1 (st_trace s)) H1 (or_introl eq_refl)
               eq_refl).
    rewrite (call_constant numpy_available n l Constant [("value", x)] x
               args kw (State (<[it:=MapIter p]> h1) (st_trace s)) H2
               (or_introl eq_refl) eq_refl).
    by split.
Qed.

Lemma framed_advance (j : loc) (args : list value)
    (kw : list (string * value)) (pending : list value) :
  (j < b)%nat -> Forall (below b) pending ->
  framed it b (advance (call numpy_available fuel) j args kw pending).
Proof.
  intros Hj. induction pending as [|x r IH]; intros Hp; cbn [advance].
  - apply framed_ret.
  - apply Forall_cons in Hp as [Hx Hr].
    apply framed_bind; [by apply framed_store_iterator|]. intros _.
    apply (framed_ext
             (v <- (element <- asfunction x ;;
                    call numpy_available fuel element args kw) ;;
              vs <- advance (call numpy_available fuel) j args kw r ;;
              ret (v :: vs))).
    { intros s. unfold bind. by destruct (asfunction x s). }
    apply framed_bind; [by apply framed_convert_call|]. intros v.
    apply framed_bind; [by apply IH|]. intros vs. apply framed_ret.
Qed.

Lemma framed_call_each (x : value) (args : list value)
    (kw : list (string * value)) :
  below b x ->
  framed it b (call_each (call numpy_available fuel) x args kw).
Proof.
  intros Hx p s G. unfold call_each.
  destruct x; try (by split). cbn [below] in Hx.
  unfold bind, load. cbn [over st_heap].
  rewrite list_lookup_insert_ne by lia.
  destruct (st_heap s !! l) as [[c attrs|pending]|] eqn:H; try (by split).
  apply framed_advance; [exact Hx| |exact G].
  exact (proj2 G l _ Hx H).
Qed.

Ltac evaluation_step :=
  lazymatch goal with
  | |- framed _ _ (bind (getattr (VRef _) _) _) =>
      apply framed_getattr_then; [assumption|intros]
  | |- _ => framed_step
  end.

Lemma framed_call_method (c : class) (k : loc) (args : list value)
    (kw : list (string * value)) :
  (k < b)%nat ->
  framed it b
    (call_method numpy_available (call numpy_available fuel) c (VRef k)
                 args kw).
Proof.
  intros Hk. pose proof framed_call_each as He.
  destruct c; cbn [call_method];
    unfold binary, operand, elementary, call_attr; repeat evaluation_step.
Qed.

End FrameEvaluation.

Lemma framed_call (numpy_available : bool) (fuel : nat) :
  forall f args kw,
    below b f -> framed it b (call numpy_available fuel f args kw).
Proof.
  induction fuel as [|n IH]; intros f args kw Hf; cbn [call].
  - intros p s G. by split.
  - destruct f; try apply framed_raise. cbn [below] in Hf.
    apply framed_load_then; [exact Hf|]. intros [c attrs|q].
    + apply framed_bind; [apply framed_log|]. intros _.
      by apply framed_call_method.
    + apply framed_raise.
Qed.

(** The comprehension over the [map] object at [it] itself, whose items are
    nodes below [b]: it calls the items in turn, as the comprehension over
    the items themselves does, and leaves the object exhausted. *)
Lemma advance_children (numpy_available : bool) (n : nat)
    (args : list value) (kw : list (string * value)) (cs : list value) :
  forall s,
    good it b s -> Forall (below b) cs ->
    Forall (fun c => isinstance (st_heap s) c Function = true) cs ->
    match evaluate_children numpy_available n cs args kw s with
    | Ok vs s2 =>
        advance (call numpy_available n) it args kw cs (over it cs s)
        = Ok vs (over it [] s2)
    | Raise e s2 =>
        exists p,
          advance (call numpy_available n) it args kw cs (over it cs s)
          = Raise e (over it p s2)
    | OutOfFuel =>
        advance (call numpy_available n) it args kw cs (over it cs s)
        = OutOfFuel
    | Unmodelled =>
        advance (call numpy_available n) it args kw cs (over it cs s)
        = Unmodelled
    end.
Proof.
  unfold evaluate_children.
  induction cs as [|c r IH]; intros s G Hb Hi; [reflexivity|].
  apply Forall_cons in Hb as [Hc Hr]. apply Forall_cons in Hi as [Ic Ir].
  assert (E : advance (call numpy_available n) it args kw (c :: r)
                      (over it (c :: r) s)
              = (v <- call numpy_available n c args kw ;;
                 vs <- advance (call numpy_available n) it args kw r ;;
                 ret (v :: vs)) (over it r s)).
  { cbn [advance]. unfold bind at 1, store, over. cbn [st_heap st_trace].
    rewrite list_insert_insert_eq. unfold bind at 1.
    rewrite asfunction_function; [reflexivity|].
    cbn [st_heap]. rewrite isinstance_over by apply G. exact Ic. }
  rewrite E. clear E.
  set (f := fun c0 => call numpy_available n c0 args kw) in *.
  change (each f (c :: r) s)
    with ((e <- f c ;; es <- each f r ;; ret (e :: es)) s).
  destruct (framed_call numpy_available n c args kw Hc r s G) as [F G1].
  assert (EA : (v <- call numpy_available n c args kw ;;
                vs <- advance (call numpy_available n) it args kw r ;;
                ret (v :: vs)) (over it r s)
               = match call numpy_available n c args kw s with
                 | Ok v s1 =>
                     (vs <- advance (call numpy_available n) it args kw r ;;
                      ret (v :: vs)) (over it r s1)
                 | Raise e s1 => Raise e (over it r s1)
                 | OutOfFuel => OutOfFuel
                 | Unmodelled => Unmodelled
                 end).
  { unfold bind at 1. rewrite F.
    by destruct (call numpy_available n c args kw s). }
  rewrite EA. clear EA. unfold bind at 1. unfold f at 1.
  destruct (call numpy_available n c args kw s) as [v s1|e s1| |] eqn:Ec;
    [|by exists r|reflexivity|reflexivity].
  assert (Ir1 : Forall (fun c0 => isinstance (st_heap s1) c0 Function = true)
                       r).
  { eapply Forall_impl; [exact Ir|]. intros c0 H0.
    exact (call_keeps_isinstance _ _ _ _ _ _ _ _ _ _ Ec H0). }
  specialize (IH s1 G1 Hr Ir1). unfold bind.
  destruct (each f r s1) as [vs s2|e s2| |].
  - by rewrite IH.
  - destruct IH as [p ->]. by exists p.
  - by rewrite IH.
  - by rewrite IH.
Qed.

End Frame.

(** ** Lifting keeps the store closed *)

Lemma below_mono (n m : nat) (v : value) :
  (n <= m)%nat -> below n v -> below m v.
Proof. destruct v; cbn; auto. lia. Qed.

Lemma references_bound_below (n : nat) (v : value) :
  references_bound n v = true -> below n v.
Proof. destruct v; cbn; auto. intros H. by apply Nat.ltb_lt. Qed.

Lemma references_bound_mono (n m : nat) (v : value) :
  (n <= m)%nat -> references_bound n v = true -> references_bound m v = true.
Proof.
  intros Hn.
  induction v as [| | | | |xs IH|xs IH|kvs IH|l] using value_nested_ind;
    cbn [references_bound]; auto.
  - induction IH as [|x xs Hx _ IHxs]; [reflexivity|]. cbn [forallb].
    intros H. apply andb_prop in H as [H1 H2].
    by rewrite (Hx H1), (IHxs H2).
  - induction IH as [|x xs Hx _ IHxs]; [reflexivity|]. cbn [forallb].
    intros H. apply andb_prop in H as [H1 H2].
    by rewrite (Hx H1), (IHxs H2).
  - induction IH as [|kv kvs [Hk Hv] _ IHkvs]; [reflexivity|].
    cbn [forallb]. intros H. apply andb_prop in H as [H1 H2].
    apply andb_prop in H1 as [H1 H1'].
    by rewrite (Hk H1), (Hv H1'), (IHkvs H2).
  - intros H. apply Nat.ltb_lt in H. apply Nat.ltb_lt. lia.
Qed.

Lemma well_formed_closed (h : heap) :
  well_formed h = true -> closed_below (List.length h) h.
Proof.
  intros W k o _ H. unfold well_formed in W.
  pose proof (proj1 (forallb_forall _ _) W o) as Ho.
  assert (I : In o h).
  { apply list_elem_of_In. by eapply list_elem_of_lookup_2. }
  specialize (Ho I). apply List.Forall_forall. intros v Hv.
  pose proof (proj1 (forallb_forall _ _) Ho v Hv) as B.
  destruct v; cbn; auto. by apply Nat.ltb_lt.
Qed.

Lemma closed_app (h ext : heap) :
  closed_below (List.length h) h ->
  Forall (fun o => Forall (below (List.length (h ++ ext))) (held o)) ext ->
  closed_below (List.length (h ++ ext)) (h ++ ext).
Proof.
  intros C F k o Hk H.
  destruct (decide (k < List.length h)%nat) as [Hl|Hl].
  - rewrite lookup_app_l in H by exact Hl.
    eapply Forall_impl; [exact (C k o Hl H)|].
    intros v. apply below_mono. rewrite length_app. lia.
  - rewrite lookup_app_r in H by lia.
    rewrite List.Forall_forall in F. apply F.
    apply list_elem_of_In. by eapply list_elem_of_lookup_2.
Qed.

Lemma asfunction_closed (x : value) (s s' : state) (r : value) :
  closed_below (List.length (st_heap s)) (st_heap s) ->
  below (List.length (st_heap s)) x ->
  asfunction x s = Ok r s' ->
  closed_below (List.length (st_heap s')) (st_heap s') /\
  below (List.length (st_heap s')) r /\
  (List.length (st_heap s) <= List.length (st_heap s'))%nat.
Proof.
  intros C Hx. destruct (isinstance (st_heap s) x Function) eqn:E.
  - rewrite asfunction_function by exact E. intros [= <- <-]. auto.
  - rewrite asfunction_constant by exact E. intros [= <- <-].
    cbn [st_heap]. split; [|split].
    + apply closed_app; [exact C|]. constructor; [|constructor].
      cbn [held map snd]. constructor; [|constructor].
      eapply below_mono; [|exact Hx]. rewrite length_app. lia.
    + cbn. rewrite length_app. cbn. lia.
    + rewrite length_app. lia.
Qed.

Lemma each_closed (xs : list value) :
  Forall (fun x =>
            forall s r s',
              closed_below (List.length (st_heap s)) (st_heap s) ->
              references_bound (List.length (st_heap s)) x = true ->
              compound x s = Ok r s' ->
              closed_below (List.length (st_heap s')) (st_heap s') /\
              below (List.length (st_heap s')) r /\
              (List.length (st_heap s) <= List.length (st_heap s'))%nat)
         xs ->
  forall s cs s',
    closed_below (List.length (st_heap s)) (st_heap s) ->
    forallb (references_bound (List.length (st_heap s))) xs = true ->
    each compound xs s = Ok cs s' ->
    closed_below (List.length (st_heap s')) (st_heap s') /\
    Forall (below (List.length (st_heap s'))) cs /\
    (List.length (st_heap s) <= List.length (st_heap s'))%nat.
Proof.
  induction 1 as [|x xs Hx _ IH]; intros s cs s' C B; cbn [each].
  - intros [= <- <-]. split; [exact C|]. split; [constructor|lia].
  - cbn [forallb] in B. apply andb_prop in B as [Bx Bxs].
    unfold bind. destruct (compound x s) as [c s1|e s1| |] eqn:E1;
      try discriminate.
    destruct (Hx s c s1 C Bx E1) as (C1 & Hc & L1).
    fold (each compound).
    destruct (each compound xs s1) as [cs1 s2|e s2| |] eqn:E2;
      try discriminate.
    intros [= <- <-].
    assert (B1 : forallb (references_bound (List.length (st_heap s1))) xs
                 = true).
    { apply forallb_forall. intros y Hy.
      eapply references_bound_mono; [exact L1|].
      exact (proj1 (forallb_forall _ _) Bxs y Hy). }
    destruct (IH s1 cs1 s2 C1 B1 E2) as (C2 & Hcs & L2).
    split; [exact C2|]. split; [|lia].
    constructor; [|exact Hcs]. eapply below_mono; [exact L2|exact Hc].
Qed.

Lemma dict_set_held (P : value -> Prop) (k v : value)
    (acc : list (value * value)) :
  P k -> P v -> Forall P (map fst acc) -> Forall P (map snd acc) ->
  Forall P (map fst (dict_set k v acc)) /\
  Forall P (map snd (dict_set k v acc)).
Proof.
  intros Hk Hv. induction acc as [|[k' v'] acc IH]; intros F1 F2.
  - cbn. split; constructor; auto.
  - cbn in F1, F2. apply Forall_cons in F1 as [F1 F1'].
    apply Forall_cons in F2 as [F2 F2'].
    cbn [dict_set]. destruct (value_eq k' k).
    + cbn. split; constructor; auto.
    + destruct (IH F1' F2') as [I1 I2]. cbn. split; constructor; auto.
Qed.

Lemma dict_of_pairs_held (P : value -> Prop) (h : heap)
    (pairs : list (value * value)) :
  forall acc d,
    dict_of_pairs h pairs acc = Some d ->
    Forall P (map fst pairs) -> Forall P (map snd pairs) ->
    Forall P (map fst acc) -> Forall P (map snd acc) ->
    Forall P (map fst d) /\ Forall P (map snd d).
Proof.
  induction pairs as [|[k v] pairs IH]; intros acc d; cbn [dict_of_pairs].
  - intros [= <-]. auto.
  - destruct (hashable h k); [|discriminate].
    intros E F1 F2 A1 A2. cbn in F1, F2.
    apply Forall_cons in F1 as [Hk F1]. apply Forall_cons in F2 as [Hv F2].
    destruct (dict_set_held P k v acc Hk Hv A1 A2) as [S1 S2].
    exact (IH _ d E F1 F2 S1 S2).
Qed.

Lemma Forall_combine (P : value -> Prop) (xs ys : list value) :
  Forall P xs -> Forall P ys ->
  Forall P (map fst (combine xs ys)) /\ Forall P (map snd (combine xs ys)).
Proof.
  intros Hx. revert ys. induction Hx as [|x xs Px _ IH]; intros ys Hy.
  - cbn. split; constructor.
  - destruct Hy as [|y ys Py Hys]; [cbn; split; constructor|].
    destruct (IH ys Hys) as [I1 I2]. cbn. split; constructor; auto.
Qed.

Lemma compound_closed (v : value) :
  forall s r s',
    closed_below (List.length (st_heap s)) (st_heap s) ->
    references_bound (List.length (st_heap s)) v = true ->
    compound v s = Ok r s' ->
    closed_below (List.length (st_heap s')) (st_heap s') /\
    below (List.length (st_heap s')) r /\
    (List.length (st_heap s) <= List.length (st_heap s'))%nat.
Proof.
  assert (Seq : forall c xs,
             c = _List \/ c = _Tuple ->
             Forall (fun x =>
                       forall s r s',
                         closed_below (List.length (st_heap s)) (st_heap s) ->
                         references_bound (List.length (st_heap s)) x = true ->
                         compound x s = Ok r s' ->
                         closed_below (List.length (st_heap s')) (st_heap s')
                         /\ below (List.length (st_heap s')) r /\
                         (List.length (st_heap s)
                          <= List.length (st_heap s'))%nat) xs ->
             forall s r s',
               closed_below (List.length (st_heap s)) (st_heap s) ->
               forallb (references_bound (List.length (st_heap s))) xs
               = true ->
               (es <- each compound xs ;; new c [VList es] []) s = Ok r s' ->
               closed_below (List.length (st_heap s')) (st_heap s') /\
               below (List.length (st_heap s')) r /\
               (List.length (st_heap s) <= List.length (st_heap s'))%nat).
  { intros c xs Hc IH st r s' C B. unfold bind.
    destruct (each compound xs st) as [cs s0|e s0| |] eqn:E;
      try discriminate.
    destruct (each_closed xs IH st cs s0 C B E) as (C0 & Hcs & L0).
    rewrite (new_sequence c cs s0 Hc). intros [= <- <-]. cbn [st_heap].
    split; [|split].
    - apply closed_app; [exact C0|].
      constructor; [|constructor; [|constructor]]; cbn [held map snd].
      + constructor; [|constructor]. cbn. rewrite length_app. cbn. lia.
      + eapply Forall_impl; [exact Hcs|]. intros y. apply below_mono.
        rewrite length_app. lia.
    - cbn. rewrite length_app. cbn. lia.
    - rewrite length_app. lia. }
  induction v as [| | | | |xs IH|xs IH|kvs IH|l] using value_nested_ind;
    intros st r s' C B; cbn [compound];
    try (apply asfunction_closed; [exact C|]; by apply references_bound_below).
  - apply (Seq _List xs (or_introl eq_refl) IH st r s' C B).
  - apply (Seq _Tuple xs (or_intror eq_refl) IH st r s' C B).
  - cbn [references_bound] in B.
    assert (Bk : forallb (references_bound (List.length (st_heap st)))
                         (map fst kvs) = true).
    { apply forallb_forall. intros y Hy.
      apply in_map_iff in Hy as (kv & <- & Hkv).
      pose proof (proj1 (forallb_forall _ _) B kv Hkv) as Hb.
      by apply andb_prop in Hb as [Hb _]. }
    assert (Bv : forallb (references_bound (List.length (st_heap st)))
                         (map snd kvs) = true).
    { apply forallb_forall. intros y Hy.
      apply in_map_iff in Hy as (kv & <- & Hkv).
      pose proof (proj1 (forallb_forall _ _) B kv Hkv) as Hb.
      by apply andb_prop in Hb as [_ Hb]. }
    assert (IHk : Forall (fun x =>
                     forall s r s',
                       closed_below (List.length (st_heap s)) (st_heap s) ->
                       references_bound (List.length (st_heap s)) x = true ->
                       compound x s = Ok r s' ->
                       closed_below (List.length (st_heap s')) (st_heap s')
                       /\ below (List.length (st_heap s')) r /\
                       (List.length (st_heap s)
                        <= List.length (st_heap s'))%nat) (map fst kvs)).
    { apply List.Forall_forall. intros y Hy.
      apply in_map_iff in Hy as (kv & <- & Hkv).
      rewrite List.Forall_forall in IH. exact (proj1 (IH kv Hkv)). }
    assert (IHv : Forall (fun x =>
                     forall s r s',
                       closed_below (List.length (st_heap s)) (st_heap s) ->
                       references_bound (List.length (st_heap s)) x = true ->
                       compound x s = Ok r s' ->
                       closed_below (List.length (st_heap s')) (st_heap s')
                       /\ below (List.length (st_heap s')) r /\
                       (List.length (st_heap s)
                        <= List.length (st_heap s'))%nat) (map snd kvs)).
    { apply List.Forall_forall. intros y Hy.
      apply in_map_iff in Hy as (kv & <- & Hkv).
      rewrite List.Forall_forall in IH. exact (proj2 (IH kv Hkv)). }
    unfold bind. rewrite (each_projection fst kvs st).
    destruct (each compound (map fst kvs) st) as [keys s0|e s0| |] eqn:Ek;
      try discriminate.
    destruct (each_closed _ IHk st keys s0 C Bk Ek) as (C0 & Hkeys & L0).
    rewrite (each_projection snd kvs s0).
    destruct (each compound (map snd kvs) s0) as [values s1|e s1| |] eqn:Ev;
      try discriminate.
    assert (Bv0 : forallb (references_bound (List.length (st_heap s0)))
                          (map snd kvs) = true).
    { apply forallb_forall. intros y Hy.
      eapply references_bound_mono; [exact L0|].
      exact (proj1 (forallb_forall _ _) Bv y Hy). }
    destruct (each_closed _ IHv s0 values s1 C0 Bv0 Ev) as (C1 & Hvals & L1).
    unfold py_dict, bind, get_heap.
    destruct (dict_of_pairs (st_heap s1) (combine keys values) [])
      as [d|] eqn:Ed; try discriminate.
    unfold ret. rewrite new_mapping. intros [= <- <-]. cbn [st_heap].
    assert (Hkeys1 : Forall (below (List.length (st_heap s1))) keys).
    { eapply Forall_impl; [exact Hkeys|]. intros y. by apply below_mono. }
    destruct (Forall_combine _ keys values Hkeys1 Hvals) as [F1 F2].
    destruct (dict_of_pairs_held _ _ _ [] d Ed F1 F2
                (@List.Forall_nil _ _) (@List.Forall_nil _ _)) as [D1 D2].
    split; [|split].
    + apply closed_app; [exact C1|].
      constructor; [|constructor; [|constructor; [|constructor]]];
        cbn [held map snd].
      * constructor; [|constructor; [|constructor]]; cbn;
          rewrite length_app; cbn; lia.
      * eapply Forall_impl; [exact D1|]. intros y. apply below_mono.
        rewrite length_app. lia.
      * eapply Forall_impl; [exact D2|]. intros y. apply below_mono.
        rewrite length_app. lia.
    + cbn. rewrite length_app. cbn. lia.
    + rewrite length_app. lia.
Qed.

(** ** Lifted lists over any children *)

Lemma lifted_list_children (numpy_available : bool) (n : nat) (s : state)
    (xs : list value) (l : loc) (s1 : state) (args : list value)
    (kw : list (string * value)) :
  well_formed (st_heap s) = true ->
  references_bound (List.length (st_heap s)) (VList xs) = true ->
  compound (VList xs) s = Ok (VRef l) s1 ->
  exists cs,
    st_heap s1 !! S l = Some (MapIter cs) /\
    match evaluate_children numpy_available n cs args kw
            (State (st_heap s1) (st_trace s1 ++ [Event l args kw])) with
    | Ok vs s2 =>
        call numpy_available (S n) (VRef l) args kw s1
        = Ok (VList vs) (over (S l) [] s2)
    | Raise e s2 =>
        exists p,
          call numpy_available (S n) (VRef l) args kw s1
          = Raise e (over (S l) p s2)
    | OutOfFuel =>
        call numpy_available (S n) (VRef l) args kw s1 = OutOfFuel
    | Unmodelled =>
        call numpy_available (S n) (VRef l) args kw s1 = Unmodelled
    end.
Proof.
  intros W B E. cbn [compound] in E. unfold bind in E.
  destruct (each compound xs s) as [cs s0|e s0| |] eqn:Ee; try discriminate.
  rewrite (new_sequence _List cs s0 (or_introl eq_refl)) in E.
  injection E as <- <-. cbn [st_heap st_trace].
  set (l := List.length (st_heap s0)).
  set (h1 := st_heap s0
             ++ [Inst _List [("_elements", VRef (S l))]; MapIter cs]).
  assert (IH : Forall (fun x =>
                  forall s r s',
                    closed_below (List.length (st_heap s)) (st_heap s) ->
                    references_bound (List.length (st_heap s)) x = true ->
                    compound x s = Ok r s' ->
                    closed_below (List.length (st_heap s')) (st_heap s') /\
                    below (List.length (st_heap s')) r /\
                    (List.length (st_heap s) <= List.length (st_heap s'))%nat)
                xs).
  { apply List.Forall_forall. intros x _. apply compound_closed. }
  destruct (each_closed xs IH s cs s0 (well_formed_closed _ W) B Ee)
    as (C0 & Hcs & _).
  destruct (each_compound_children xs s cs s0 Ee) as [_ Hi].
  assert (Hl : h1 !! l = Some (Inst _List [("_elements", VRef (S l))]))
    by apply lookup_fresh.
  assert (Hm : h1 !! S l = Some (MapIter cs)) by apply lookup_fresh_next.
  exists cs. split; [exact Hm|].
  set (entered := State h1 (st_trace s0 ++ [Event l args kw])).
  assert (G : good (S l) l entered).
  { split; [by exists cs|]. intros k o Hk H. cbn in H. unfold h1 in H.
    rewrite lookup_app_l in H by exact Hk. exact (C0 k o Hk H). }
  assert (Hi1 : Forall (fun c => isinstance (st_heap entered) c Function
                                 = true) cs).
  { eapply Forall_impl; [exact Hi|]. intros c Hc. cbn.
    by apply isinstance_old. }
  pose proof (advance_children (S l) l (Nat.le_succ_diag_r l)
                numpy_available n args kw cs entered G Hcs Hi1) as A.
  assert (O : over (S l) cs entered = entered).
  { unfold over, entered. cbn [st_heap st_trace].
    by rewrite list_insert_id by exact Hm. }
  rewrite O in A.
  rewrite (call_sequence_node numpy_available n l (S l) cs args kw
             (State h1 (st_trace s0)) Hl Hm).
  cbn [st_heap st_trace]. fold entered. unfold bind.
  destruct (evaluate_children numpy_available n cs args kw entered)
    as [vs s2|e s2| |].
  - by rewrite A.
  - destruct A as [p ->]. by exists p.
  - by rewrite A.
  - by rewrite A.
Qed.



